(** * Maritime Market Watch (mmw): linker, analytics, CSV index import and upserts

    A shallow embedding of the Python package [mmw] (src/mmw/linker.py,
    analytics.py, indices.py, prices.py, news.py, nlp.py, config.py, db.py).  Database tables are
    lists of rows in rowid order, SQL statements are functions on them, pandas
    frames are lists of records. *)

From Stdlib Require Import Bool Arith List Lia String Ascii ZArith QArith Sorted.
From Stdlib Require OrdersEx.
From Stdlib Require Import RelationClasses Permutation.
Import ListNotations.
Open Scope bool_scope.

(* ------------------------------------------------------------------------- *)
(** ** Loading analytics.py: the string-literal layer of the Python tokenizer *)

Module PyLex.

(** The tokenizer state between characters: ordinary code, a [#] comment, a
    one-line string opened by quote [q], or a triple-quoted string. *)
Inductive mode := Code | Comment | Str (q : ascii) | Triple (q : ascii).

Inductive lex_error := UnterminatedString | UnterminatedTriple.

(** [LexOk n]: the text splits into code, comments and [n] string literals. *)
Inductive lex_result := LexOk (n : nat) | LexErr (e : lex_error).

Definition dq : ascii := ascii_of_nat 34.
Definition sq : ascii := ascii_of_nat 39.
Definition nl : ascii := ascii_of_nat 10.
Definition bslash : ascii := ascii_of_nat 92.
Definition hash : ascii := ascii_of_nat 35.

Definition is_quote (c : ascii) : bool := Ascii.eqb c dq || Ascii.eqb c sq.

(** Python's rules for where a literal ends: a backslash always takes the next
    character with it (also in raw strings), a one-line literal may not cross
    a newline, a triple-quoted literal ends at the next three equal quotes. *)
Fixpoint scan (m : mode) (s : list ascii) (n : nat) : lex_result :=
  match m, s with
  | Code, [] | Comment, [] => LexOk n
  | Str _, [] => LexErr UnterminatedString
  | Triple _, [] => LexErr UnterminatedTriple
  | Code, c :: r =>
      if Ascii.eqb c hash then scan Comment r n
      else if is_quote c then
        match r with
        | c1 :: r1 =>
            match r1 with
            | c2 :: r2 =>
                if Ascii.eqb c1 c && Ascii.eqb c2 c then scan (Triple c) r2 n
                else scan (Str c) r n
            | [] => scan (Str c) r n
            end
        | [] => scan (Str c) r n
        end
      else scan Code r n
  | Comment, c :: r => if Ascii.eqb c nl then scan Code r n else scan Comment r n
  | Str q, c :: r =>
      if Ascii.eqb c bslash then
        match r with _ :: r1 => scan (Str q) r1 n | [] => LexErr UnterminatedString end
      else if Ascii.eqb c q then scan Code r (S n)
      else if Ascii.eqb c nl then LexErr UnterminatedString
      else scan (Str q) r n
  | Triple q, c :: r =>
      if Ascii.eqb c bslash then
        match r with _ :: r1 => scan (Triple q) r1 n | [] => LexErr UnterminatedTriple end
      else if Ascii.eqb c q then
        match r with
        | c1 :: r1 =>
            match r1 with
            | c2 :: r2 =>
                if Ascii.eqb c1 q && Ascii.eqb c2 q then scan Code r2 (S n)
                else scan (Triple q) r n
            | [] => scan (Triple q) r n
            end
        | [] => scan (Triple q) r n
        end
      else scan (Triple q) r n
  end.

Definition lex (s : list ascii) : lex_result := scan Code s 0.

(** The text of src/mmw/analytics.py, each double quote written as [~]
    (the file has no [~] of its own). *)
Definition analytics_py_encoded : string := "~~~Analytics helpers for Maritime Market Watch.

This module provides a small collection of analytical utilities built on top
of the project database.  The functions are intentionally lightweight and use
only pandas/SQLAlchemy to remain easy to test and extend.
~~~

from __future__ import annotations

import json
from itertools import combinations
from typing import Iterable, Tuple

import pandas as pd
from sqlalchemy import select
from sqlalchemy.orm import sessionmaker

from .config import WATCHLIST_TICKERS
from .db import Asset, Link, News, Price, Run


# ---------------------------------------------------------------------------
# Helpers

def _save_run(engine, name: str, data: pd.DataFrame) -> int:
    ~~~Persist analysis result as a JSON payload in the ``runs`` table.

    The payload is stored in the ``status`` column as JSON text.  The function
    returns the created run identifier.
    ~~~

    payload = {~name~: name, ~data~: data.to_dict(orient=~records~)}
    Session = sessionmaker(bind=engine, future=True)
    with Session.begin() as session:
        run = Run(status=json.dumps(payload))
        session.add(run)
        session.flush()
        return run.id


# ---------------------------------------------------------------------------
# Core analytics

def compute_daily_returns(engine, tickers: Iterable[str]) -> pd.DataFrame:
    ~~~Compute simple daily returns for the provided tickers.

    Parameters
    ----------
    engine:
        SQLAlchemy engine connected to the project database.
    tickers:
        Iterable of ticker symbols to compute returns for.

    Returns
    -------
    pandas.DataFrame
        Tidy data frame with columns ``date``, ``ticker`` and ``ret``.
    ~~~

    if not tickers:
        return pd.DataFrame(columns=[~date~, ~ticker~, ~ret~])

    q = (
        select(Asset.ticker, Price.date, Price.close)
        .join(Price, Asset.id == Price.asset_id)
        .where(Asset.ticker.in_(list(tickers)))
        .order_by(Asset.ticker, Price.date)
    )

    with engine.connect() as conn:
        df = pd.read_sql(q, conn)

    if df.empty:
        return pd.DataFrame(columns=[~date~, ~ticker~, ~ret~])

    df[~date~] = pd.to_datetime(df[~date~])
    df.sort_values([~ticker~, ~date~], inplace=True)
    df[~ret~] = df.groupby(~ticker~)[~close~].pct_change()
    df = df.dropna(subset=[~ret~])
    return df[[~date~, ~ticker~, ~ret~]]


def news_intensity(engine) -> pd.DataFrame:
    ~~~Aggregate news intensity by day.

    The function counts the number of news items published per day and uses the
    length of ``summary_ai`` as a crude proxy for sentiment (higher value
    roughly corresponds to longer/~more positive~ summaries).
    ~~~

    q = select(News.published_at, News.summary_ai)
    with engine.connect() as conn:
        df = pd.read_sql(q, conn)

    if df.empty:
        return pd.DataFrame(columns=[~date~, ~news_count~, ~avg_sentiment~])

    df[~date~] = pd.to_datetime(df[~published_at~]).dt.date
    df[~sent_len~] = df[~summary_ai~].fillna(~~~).str.len()

    agg = (
        df.groupby(~date~).agg(
            news_count=(~summary_ai~, ~size~),
            avg_sentiment=(~sent_len~, ~mean~),
        )
    ).reset_index()
    return agg


def rolling_corr(ret_df: pd.DataFrame, window: int = 30) -> pd.DataFrame:
    ~~~Compute rolling correlations for all ticker pairs.

    Parameters
    ----------
    ret_df:
        Data frame as returned by :func:`compute_daily_returns`.
    window:
        Rolling window size in days.

    Returns
    -------
    pandas.DataFrame
        Columns: ``date``, ``pair`` and ``corr`` where ``pair`` is a string
        ``~TICKER1-TICKER2~``.
    ~~~

    if ret_df.empty:
        return pd.DataFrame(columns=[~date~, ~pair~, ~corr~])

    wide = ret_df.pivot(index=~date~, columns=~ticker~, values=~ret~).sort_index()

    pairs = list(combinations(wide.columns, 2))
    frames = []
    for a, b in pairs:
        series = wide[a].rolling(window).corr(wide[b])
        frames.append(
            pd.DataFrame({~date~: series.index, ~pair~: f~{a}-{b}~, ~corr~: series.values})
        )

    if not frames:
        return pd.DataFrame(columns=[~date~, ~pair~, ~corr~])

    return pd.concat(frames, ignore_index=True)


def event_study(
    engine, ticker: str, window: Tuple[int, int] = (-3, 3)
) -> pd.DataFrame:
    ~~~Perform a simple event study for ``ticker`` around news events.

    For each day with at least one linked news item for ``ticker`` an event
    window is extracted from daily returns.  Abnormal returns are computed as
    the difference between the ticker return and the equal-weight mean of all
    watchlist tickers.  The function returns aggregated abnormal returns over
    all events.
    ~~~

    # Compute returns for baseline and target ticker
    ret_df = compute_daily_returns(engine, WATCHLIST_TICKERS)
    if ret_df.empty:
        return pd.DataFrame(columns=[~rel_day~, ~abret_mean~, ~abret_std~, ~n_events~])

    market = ret_df.groupby(~date~)[~ret~].mean().rename(~mkt_ret~).reset_index()
    ticker_ret = ret_df[ret_df[~ticker~] == ticker][[~date~, ~ret~]].rename(
        columns={~ret~: ~ret_ticker~}
    )

    merged = ticker_ret.merge(market, on=~date~, how=~left~)
    merged[~abret~] = merged[~ret_ticker~] - merged[~mkt_ret~]

    # Determine event dates from news links
    q = (
        select(News.published_at)
        .join(Link, Link.news_id == News.id)
        .where(Link.asset_ticker == ticker)
    )
    with engine.connect() as conn:
        news_df = pd.read_sql(q, conn)

    if news_df.empty:
        return pd.DataFrame(columns=[~rel_day~, ~abret_mean~, ~abret_std~, ~n_events~])

    event_dates = pd.to_datetime(news_df[~published_at~]).dt.date.unique()

    frames = []
    merged.set_index(~date~, inplace=True)
    for ed in event_dates:
        start = pd.to_datetime(ed) + pd.Timedelta(days=window[0])
        end = pd.to_datetime(ed) + pd.Timedelta(days=window[1])
        sub = merged.loc[start:end].copy()
        if sub.empty:
            continue
        sub[~rel_day~] = (sub.index.date - ed).astype(~timedelta64[D]~).astype(int)
        frames.append(sub[[~rel_day~, ~abret~]])

    if not frames:
        return pd.DataFrame(columns=[~rel_day~, ~abret_mean~, ~abret_std~, ~n_events~])

    events = pd.concat(frames, ignore_index=True)
    agg = (
        events.groupby(~rel_day~)[~abret~].agg([
            (~abret_mean~, ~mean~),
            (~abret_std~, ~std~),
            (~n_events~, ~count~),
        ])
    ).reset_index()

    _save_run(engine, f~event_study_{ticker}~, agg)
    return agg


__all__ = [
    ~compute_daily_returns~,
    ~news_intensity~,
    ~rolling_corr~,
    ~event_study~,
]


".

Definition decode (c : ascii) : ascii := if Ascii.eqb c "~"%char then dq else c.

Definition analytics_py : list ascii := map decode (list_ascii_of_string analytics_py_encoded).

(** Line 99 of analytics.py fills the null summaries with [fillna(~~~)]:
    three double quotes where report.py writes two. *)
Definition slip : list ascii := list_ascii_of_string "fillna(~~~)".
Definition slip_fixed : list ascii := list_ascii_of_string "fillna(~~)".

Fixpoint starts_with (p s : list ascii) : bool :=
  match p, s with
  | [], _ => true
  | a :: p', b :: s' => Ascii.eqb a b && starts_with p' s'
  | _ :: _, [] => false
  end.

(** Replace the first occurrence of [p] by [p']. *)
Fixpoint replace_first (p p' s : list ascii) : list ascii :=
  match s with
  | [] => []
  | c :: s' => if starts_with p s then List.app p' (skipn (List.length p) s)
               else c :: replace_first p p' s'
  end.

(** The same file with the null fill written [fillna(~~)] (two double quotes),
    as report.py writes it. *)
Definition analytics_py_fixed : list ascii :=
  map decode (replace_first slip slip_fixed (list_ascii_of_string analytics_py_encoded)).

(** Python compiles a module before running any of it: a tokenizer error makes
    [import mmw.analytics] raise SyntaxError, and no function of the module
    can be called. *)
Inductive py_exc := SyntaxError | ValueError.
Inductive py_result (A : Type) := Ok (a : A) | Raise (e : py_exc).
Arguments Ok {A} a.
Arguments Raise {A} e.

Definition import_module (text : list ascii) : py_result unit :=
  match lex text with LexOk _ => Ok tt | LexErr _ => Raise SyntaxError end.

Definition import_analytics : py_result unit := import_module analytics_py.

(** Calling a function of a module on its arguments: import, then run. *)
Definition call_module {A} (text : list ascii) (run : unit -> A) : py_result A :=
  match import_module text with Ok u => Ok (run u) | Raise e => Raise e end.

Definition call_analytics {A} (run : unit -> A) : py_result A := call_module analytics_py run.

(** The same call against analytics.py with the one character of the slip removed. *)
Definition call_analytics_fixed {A} (run : unit -> A) : py_result A :=
  call_module analytics_py_fixed run.

End PyLex.

(* ------------------------------------------------------------------------- *)
(** ** linker.py *)

Module Linker.

Local Open Scope nat_scope.
Local Open Scope string_scope.

(** Python's [str.lower] on ASCII text. *)
Definition lower_char (c : ascii) : ascii :=
  let n := nat_of_ascii c in
  if (65 <=? n)%nat && (n <=? 90)%nat then ascii_of_nat (n + 32) else c.

Fixpoint lower (s : string) : string :=
  match s with
  | EmptyString => EmptyString
  | String c s' => String (lower_char c) (lower s')
  end.

Fixpoint startswith (s p : string) : bool :=
  match p, s with
  | EmptyString, _ => true
  | String a p', String b s' => Ascii.eqb a b && startswith s' p'
  | String _ _, EmptyString => false
  end.

(** Python's [needle in hay] on strings. *)
Fixpoint contains (hay needle : string) : bool :=
  startswith hay needle ||
  match hay with
  | EmptyString => false
  | String _ hay' => contains hay' needle
  end.

(** [_match_score]: [sum(1 for kw in keywords if kw.lower() in text.lower())]. *)
Definition _match_score (text : string) (keywords : list string) : nat :=
  let text_l := lower text in
  List.length (filter (fun kw => contains text_l (lower kw)) keywords).

Definition MAPPINGS : list (string * list string) :=
  [("MAERSK", ["MAERSK-B.CO"]);
   ("ZIM", ["ZIM"]);
   ("HAPAG", ["HLAG.DE"; "HLAG.F"]);
   ("COSCO", ["1919.HK"])].

Definition INDEX_KEYWORDS : list (string * list string) :=
  [("SCFI", ["SCFI"]);
   ("HARPEX", ["HARPEX"]);
   ("WCI", ["Drewry"; "World Container Index"]);
   ("FBX", ["FBX"; "Freightos"])].

(** Rows of the tables [news], [entities] and [links] (db.py), as far as the
    linker reads or writes them.  [score] is [float(score)] of a count, kept
    as the count. *)
Record News := { news_id : nat; title : option string; summary : option string }.
Record Entity := { entity_news_id : nat; value : string }.
Record Link := {
  link_id : nat; link_news_id : nat;
  asset_ticker : option string; index_code : option string; score : nat }.

(** A [Link(...)] object added to the session, before it has a rowid. *)
Record NewLink := {
  nl_news_id : nat; nl_asset_ticker : option string;
  nl_index_code : option string; nl_score : nat }.

Definition content (l : Link) : NewLink :=
  {| nl_news_id := link_news_id l; nl_asset_ticker := asset_ticker l;
     nl_index_code := index_code l; nl_score := score l |}.

Record DB := { db_news : list News; db_entities : list Entity; db_links : list Link }.

Definition or_empty (s : option string) : string :=
  match s with Some t => t | None => "" end.

(** [select(Entity.value).where(Entity.news_id == item.id)]. *)
Definition entity_vals (ents : list Entity) (item : News) : list string :=
  map value (filter (fun e => Nat.eqb (entity_news_id e) (news_id item)) ents).

(** [" ".join([item.title or "", item.summary or "", " ".join(entity_vals)])]. *)
Definition full_text (item : News) (vals : list string) : string :=
  concat " " [or_empty (title item); or_empty (summary item); concat " " vals].

(** The links the two loops of [link_news] add for one news item. *)
Definition asset_links (nid : nat) (text : string) : list NewLink :=
  flat_map (fun '(name, tickers) =>
    let sc := _match_score text (name :: tickers) in
    if Nat.eqb sc 0 then []
    else map (fun t => {| nl_news_id := nid; nl_asset_ticker := Some t;
                          nl_index_code := None; nl_score := sc |}) tickers)
    MAPPINGS.

Definition index_links (nid : nat) (text : string) : list NewLink :=
  flat_map (fun '(code, keywords) =>
    let sc := _match_score text keywords in
    if Nat.eqb sc 0 then []
    else [{| nl_news_id := nid; nl_asset_ticker := None;
             nl_index_code := Some code; nl_score := sc |}])
    INDEX_KEYWORDS.

Definition item_links (nid : nat) (text : string) : list NewLink :=
  asset_links nid text ++ index_links nid text.

(** SQLite gives a new row the rowid one above the largest in the table. *)
Definition next_rowid (ls : list Link) : nat :=
  S (fold_right (fun l m => Nat.max (link_id l) m) 0 ls).

Fixpoint insert_links (ls : list Link) (nls : list NewLink) : list Link :=
  match nls with
  | [] => ls
  | n :: rest =>
      let l := {| link_id := next_rowid ls; link_news_id := nl_news_id n;
                  asset_ticker := nl_asset_ticker n; index_code := nl_index_code n;
                  score := nl_score n |} in
      insert_links (ls ++ [l]) rest
  end.

(** [delete(Link).where(Link.news_id == item.id)]. *)
Definition delete_links (nid : nat) (ls : list Link) : list Link :=
  filter (fun l => negb (Nat.eqb (link_news_id l) nid)) ls.

(** One iteration of the loop over [news_items]: read the entities, delete the
    item's links, add the new ones (the session flushes them before its next
    statement, so each item's inserts follow its delete). *)
Definition link_item (ents : list Entity) (ls : list Link) (item : News) : list Link :=
  let text := full_text item (entity_vals ents item) in
  insert_links (delete_links (news_id item) ls) (item_links (news_id item) text).

(** [link_news]: one transaction over [select(News)]. *)
Definition link_news (db : DB) : DB :=
  {| db_news := db_news db; db_entities := db_entities db;
     db_links := fold_left (link_item (db_entities db)) (db_news db) (db_links db) |}.







(** A link targets exactly one of an asset and an index. *)
Definition one_target (l : NewLink) : bool :=
  match nl_asset_ticker l, nl_index_code l with
  | Some _, None | None, Some _ => true
  | _, _ => false
  end.

Definition haystack (db : DB) (item : News) : string :=
  full_text item (entity_vals (db_entities db) item).

Definition links_of (db : DB) (nid : nat) : list NewLink :=
  filter (fun n => Nat.eqb (nl_news_id n) nid) (map content (db_links db)).

(** A small database: two news items, one entity, two links from an earlier pass. *)
Definition news1 : News := {| news_id := 1; title := Some "Zim lifts rates";
                              summary := Some "Freightos FBX up" |}.
Definition news2 : News := {| news_id := 2; title := Some "Port update"; summary := None |}.
Definition db0 : DB :=
  {| db_news := [news1; news2];
     db_entities := [{| entity_news_id := 1; value := "ZIM Integrated" |}];
     db_links := [{| link_id := 1; link_news_id := 1; asset_ticker := Some "ZIM";
                     index_code := None; score := 1 |};
                  {| link_id := 2; link_news_id := 2; asset_ticker := Some "HLAG.DE";
                     index_code := None; score := 3 |}] |}.

End Linker.

(* ------------------------------------------------------------------------- *)
(** ** analytics.py (its logic, read with the null fill [fillna("")]) *)

Module Analytics.

Local Open Scope nat_scope.

(** pandas float64 values: exact rationals for the finite ones (rounding is not
    modelled), the two infinities, and NaN (also what [read_sql] makes of a
    SQL NULL). *)
Inductive flt := Fin (q : Q) | Inf (pos : bool) | NaN.

Definition is_nan (x : flt) : bool := match x with NaN => true | _ => false end.

Definition qpos (a : Q) : bool := negb (Qle_bool a 0).

Definition fadd (x y : flt) : flt :=
  match x, y with
  | Fin a, Fin b => Fin (a + b)
  | Fin _, Inf s | Inf s, Fin _ => Inf s
  | Inf s, Inf s' => if Bool.eqb s s' then Inf s else NaN
  | _, _ => NaN
  end.

Definition fneg (x : flt) : flt :=
  match x with Fin a => Fin (- a) | Inf s => Inf (negb s) | NaN => NaN end.

Definition fsub (x y : flt) : flt := fadd x (fneg y).

Definition fmul (x y : flt) : flt :=
  match x, y with
  | Fin a, Fin b => Fin (a * b)
  | Fin a, Inf s | Inf s, Fin a =>
      if Qeq_bool a 0 then NaN else Inf (Bool.eqb s (qpos a))
  | Inf s, Inf s' => Inf (Bool.eqb s s')
  | _, _ => NaN
  end.

(** IEEE division (the sign of a zero is not tracked). *)
Definition fdiv (x y : flt) : flt :=
  match x, y with
  | Fin a, Fin b =>
      if Qeq_bool b 0 then (if Qeq_bool a 0 then NaN else Inf (qpos a))
      else Fin (a / b)
  | Fin _, Inf _ => Fin 0
  | Inf s, Fin b => if Qeq_bool b 0 then Inf s else Inf (Bool.eqb s (qpos b))
  | _, _ => NaN
  end.

Definition fsub1 (x : flt) : flt := fsub x (Fin 1).

Definition fzero (x : flt) : bool := match x with Fin q => Qeq_bool q 0 | _ => false end.
Definition is_inf (x : flt) : bool := match x with Inf _ => true | _ => false end.

(** An insertion sort; [leb] is the key order. *)
Section ISort.
Context {A : Type} (leb : A -> A -> bool).

Fixpoint insert (x : A) (l : list A) : list A :=
  match l with
  | [] => [x]
  | y :: l' => if leb x y then x :: l else y :: insert x l'
  end.

Fixpoint isort (l : list A) : list A :=
  match l with [] => [] | x :: l' => insert x (isort l') end.
End ISort.

(** Rows of [assets] and [prices] (db.py) as the analytics read them; a price
    date is a day number (the rows are daily bars at midnight). *)
Record Asset := { asset_id : nat; ticker : string }.
Record Price := { price_asset_id : nat; price_date : Z; close : flt }.

(** Rows of [news] and [links]; [published_at] in seconds, [None] for NULL. *)
Record News := { news_id : nat; published_at : option Z; summary_ai : option string }.
Record Link := { link_news_id : nat; link_asset_ticker : option string }.

Record DB := {
  db_assets : list Asset; db_prices : list Price;
  db_news : list News; db_links : list Link }.

(** A data frame: its column names and its rows. *)
Record Frame (R : Type) := { columns : list string; rows : list R }.
Arguments columns {R} f.
Arguments rows {R} f.
Arguments Build_Frame {R} columns rows.

Definition empty_frame {R} (cols : list string) : Frame R := Build_Frame cols [].

(** A row of [select(Asset.ticker, Price.date, Price.close)]. *)
Record PriceRow := { pr_ticker : string; pr_date : Z; pr_close : flt }.

(** The join [Asset.id == Price.asset_id]. *)
Definition joined (db : DB) : list PriceRow :=
  flat_map (fun a =>
    map (fun p => {| pr_ticker := ticker a; pr_date := price_date p; pr_close := close p |})
        (filter (fun p => Nat.eqb (price_asset_id p) (asset_id a)) (db_prices db)))
    (db_assets db).

(** [order_by(Asset.ticker, Price.date)] and [sort_values(["ticker", "date"])]:
    tickers in code-point order, then dates. *)
Definition row_leb (r1 r2 : PriceRow) : bool :=
  match OrdersEx.String_as_OT.compare (pr_ticker r1) (pr_ticker r2) with
  | Lt => true
  | Gt => false
  | Eq => Z.leb (pr_date r1) (pr_date r2)
  end.

Definition in_list (tickers : list string) (t : string) : bool :=
  existsb (String.eqb t) tickers.

(** The query [q] of [compute_daily_returns]. *)
Definition select_prices (db : DB) (tickers : list string) : list PriceRow :=
  isort row_leb (filter (fun r => in_list tickers (pr_ticker r)) (joined db)).

Fixpoint lookup (t : string) (seen : list (string * flt)) : option flt :=
  match seen with
  | [] => None
  | (t', f) :: rest => if String.eqb t t' then Some f else lookup t rest
  end.

(** [df.groupby("ticker")["close"].pct_change()] as pandas 2 computes it:
    [filled] is the group's forward-filled close, [shifted] the previous
    row's [filled] in the group (NaN for the group's first row), and the
    return is [filled / shifted - 1].  [seen] maps a ticker to the [filled]
    of its last row so far. *)
Fixpoint pct_change (seen : list (string * flt)) (rs : list PriceRow) : list (PriceRow * flt) :=
  match rs with
  | [] => []
  | r :: rest =>
      let shifted := match lookup (pr_ticker r) seen with Some f => f | None => NaN end in
      let filled := if is_nan (pr_close r) then shifted else pr_close r in
      (r, fsub1 (fdiv filled shifted)) :: pct_change ((pr_ticker r, filled) :: seen) rest
  end.

Record RetRow := { rr_date : Z; rr_ticker : string; rr_ret : flt }.

Definition to_ret (p : PriceRow * flt) : RetRow :=
  {| rr_date := pr_date (fst p); rr_ticker := pr_ticker (fst p); rr_ret := snd p |}.

Definition ret_columns : list string := ["date"; "ticker"; "ret"]%string.

Definition compute_daily_returns (db : DB) (tickers : list string) : Frame RetRow :=
  match tickers with
  | [] => empty_frame ret_columns
  | _ =>
      match select_prices db tickers with
      | [] => empty_frame ret_columns
      | q =>
          let df := isort row_leb q in
          (* df.dropna(subset=["ret"]) *)
          let kept := filter (fun p => negb (is_nan (snd p))) (pct_change [] df) in
          Build_Frame ret_columns (map to_ret kept)
      end
  end.

(** The spec's reading: the ticker's rows ordered by date, and for each
    consecutive pair the row [close[i]/close[i-1] - 1]. *)
Definition date_leb (r1 r2 : PriceRow) : bool := Z.leb (pr_date r1) (pr_date r2).

Definition ticker_series (db : DB) (t : string) : list PriceRow :=
  isort date_leb (filter (fun r => String.eqb (pr_ticker r) t) (joined db)).

Fixpoint returns_from (prev : flt) (rs : list PriceRow) : list RetRow :=
  match rs with
  | [] => []
  | r :: rest =>
      {| rr_date := pr_date r; rr_ticker := pr_ticker r; rr_ret := fsub1 (fdiv (pr_close r) prev) |}
      :: returns_from (pr_close r) rest
  end.

Definition spec_daily_returns (db : DB) (t : string) : list RetRow :=
  match ticker_series db t with
  | [] => []
  | r :: rest => returns_from (pr_close r) rest
  end.

(** ** news_intensity *)

(** [.dt.date] of a UTC timestamp given in seconds: its day number. *)
Definition day_of (s : Z) : Z := Z.div s 86400.

Fixpoint insert_key (k : Z) (ks : list Z) : list Z :=
  match ks with
  | [] => [k]
  | k' :: rest =>
      if Z.ltb k k' then k :: ks else if Z.eqb k k' then ks else k' :: insert_key k rest
  end.

(** The keys of a [groupby]: distinct and sorted. *)
Definition group_keys (ks : list Z) : list Z := fold_right insert_key [] ks.

Record IntensityRow := { ir_date : Z; news_count : nat; avg_sentiment : Q }.

Definition intensity_columns : list string := ["date"; "news_count"; "avg_sentiment"]%string.

(** [fillna("")]: the intended empty-string fill of line 99. *)
Definition fillna_empty (s : option string) : string :=
  match s with Some x => x | None => EmptyString end.

(** [df] with its [date] and [sent_len] columns, the rows with a NaT date left
    out ([groupby] drops NaT keys). *)
Definition intensity_df (db : DB) : list (Z * nat) :=
  flat_map (fun n =>
    match published_at n with
    | Some s => [(day_of s, String.length (fillna_empty (summary_ai n)))]
    | None => []
    end) (db_news db).

Definition mean_nat (l : list nat) : Q :=
  inject_Z (Z.of_nat (list_sum l)) / inject_Z (Z.of_nat (List.length l)).

Definition news_intensity (db : DB) : Frame IntensityRow :=
  match db_news db with
  | [] => empty_frame intensity_columns
  | _ =>
      let df := intensity_df db in
      Build_Frame intensity_columns
        (map (fun d =>
           let g := map snd (filter (fun p => Z.eqb (fst p) d) df) in
           {| ir_date := d; news_count := List.length g; avg_sentiment := mean_nat g |})
         (group_keys (map fst df)))
  end.

(** ** rolling_corr *)

Record CorrRow := { cr_date : Z; pair : string; corr : flt }.

Definition corr_columns : list string := ["date"; "pair"; "corr"]%string.

Definition str_ltb (a b : string) : bool :=
  match OrdersEx.String_as_OT.compare a b with Lt => true | _ => false end.

Fixpoint insert_label (k : string) (ks : list string) : list string :=
  match ks with
  | [] => [k]
  | k' :: rest =>
      if str_ltb k k' then k :: ks else if String.eqb k k' then ks else k' :: insert_label k rest
  end.

(** The column labels of the pivot: distinct and sorted. *)
Definition pivot_columns (ts : list string) : list string := fold_right insert_label [] ts.

Definition same_cell (r1 r2 : RetRow) : bool :=
  Z.eqb (rr_date r1) (rr_date r2) && String.eqb (rr_ticker r1) (rr_ticker r2).

(** [pivot] refuses duplicate (date, ticker) entries. *)
Fixpoint has_dup (rs : list RetRow) : bool :=
  match rs with
  | [] => false
  | r :: rest => existsb (same_cell r) rest || has_dup rest
  end.

(** A cell of [wide]: the return, or NaN where the ticker has no row that date. *)
Definition cell (rs : list RetRow) (d : Z) (t : string) : flt :=
  match find (fun r => Z.eqb (rr_date r) d && String.eqb (rr_ticker r) t) rs with
  | Some r => rr_ret r
  | None => NaN
  end.

(** [itertools.combinations(cols, 2)]. *)
Fixpoint combinations2 (l : list string) : list (string * string) :=
  match l with
  | [] => []
  | a :: rest => List.app (map (fun b => (a, b)) rest) (combinations2 rest)
  end.

(** [x.rolling(w).corr(y)]: at row [i] the window is rows [i-w+1 .. i]; with
    [min_periods] equal to [w], the value is NaN unless [w] of its rows have
    both values, and otherwise the Pearson coefficient [pearson] of those rows. *)
Definition rolling_pair (pearson : list (flt * flt) -> flt) (w : nat) (xs : list (flt * flt))
    : list flt :=
  map (fun i =>
    let win := skipn (i + 1 - w) (firstn (i + 1) xs) in
    let valid := filter (fun p => negb (is_nan (fst p)) && negb (is_nan (snd p))) win in
    if Nat.ltb (List.length valid) w then NaN else pearson valid)
    (seq 0 (List.length xs)).

Definition rolling_corr (pearson : list (flt * flt) -> flt) (ret_df : Frame RetRow) (window : nat)
    : PyLex.py_result (Frame CorrRow) :=
  match rows ret_df with
  | [] => PyLex.Ok (empty_frame corr_columns)
  | rs =>
      if has_dup rs then PyLex.Raise PyLex.ValueError else
      let dates := group_keys (map rr_date rs) in
      let col t := map (fun d => cell rs d t) dates in
      let frames :=
        map (fun ab =>
          let series := rolling_pair pearson window (combine (col (fst ab)) (col (snd ab))) in
          map (fun dc => {| cr_date := fst dc;
                            pair := String.append (fst ab) (String.append "-" (snd ab));
                            corr := snd dc |})
              (combine dates series))
          (combinations2 (pivot_columns (map rr_ticker rs))) in
      match frames with
      | [] => PyLex.Ok (empty_frame corr_columns)
      | _ => PyLex.Ok (Build_Frame corr_columns (List.concat frames))
      end
  end.

(** ** event_study *)

Definition WATCHLIST_TICKERS : list string :=
  ["ZIM"; "MATX"; "SBLK"; "GOGL"; "GNK"; "FRO"; "DHT"; "EURN"; "GSL"; "DAC";
   "CMRE"; "TRMD"; "BDRY"; "BOAT"]%string.

Record EventRow := { rel_day : Z; abret_mean : flt; abret_std : flt; n_events : nat }.

Definition event_columns : list string := ["rel_day"; "abret_mean"; "abret_std"; "n_events"]%string.

Definition non_nan (xs : list flt) : list flt := filter (fun x => negb (is_nan x)) xs.

Definition fsum (xs : list flt) : flt := fold_left fadd xs (Fin 0).

Definition fnat (n : nat) : flt := Fin (inject_Z (Z.of_nat n)).

(** pandas [mean]: NaN values skipped, NaN for no value. *)
Definition fmean (xs : list flt) : flt :=
  match non_nan xs with
  | [] => NaN
  | v => fdiv (fsum v) (fnat (List.length v))
  end.

(** pandas [std] (ddof 1), given the square root [fsqrt]. *)
Definition fstd (fsqrt : flt -> flt) (xs : list flt) : flt :=
  let v := non_nan xs in
  if Nat.ltb (List.length v) 2 then NaN
  else
    let m := fmean v in
    fsqrt (fdiv (fsum (map (fun x => fmul (fsub x m) (fsub x m)) v)) (fnat (List.length v - 1))).

(** [select(News.published_at).join(Link, ...).where(Link.asset_ticker == ticker)]. *)
Definition linked_times (db : DB) (ticker : string) : list (option Z) :=
  flat_map (fun l =>
    match link_asset_ticker l with
    | Some t =>
        if String.eqb t ticker then
          map published_at (filter (fun n => Nat.eqb (news_id n) (link_news_id l)) (db_news db))
        else []
    | None => []
    end) (db_links db).

Fixpoint unique_Z (seen : list Z) (ks : list Z) : list Z :=
  match ks with
  | [] => []
  | k :: rest =>
      if existsb (Z.eqb k) seen then unique_Z seen rest else k :: unique_Z (k :: seen) rest
  end.

Definition event_study (fsqrt : flt -> flt) (db : DB) (ticker : string) (window : Z * Z)
    : Frame EventRow :=
  let ret_df := compute_daily_returns db WATCHLIST_TICKERS in
  match rows ret_df with
  | [] => empty_frame event_columns
  | rs =>
      let mkt d := fmean (map rr_ret (filter (fun r => Z.eqb (rr_date r) d) rs)) in
      (* merged: (date, abret) of the ticker's rows *)
      let merged :=
        map (fun r => (rr_date r, fsub (rr_ret r) (mkt (rr_date r))))
            (filter (fun r => String.eqb (rr_ticker r) ticker) rs) in
      match linked_times db ticker with
      | [] => empty_frame event_columns
      | news_df =>
          (* event dates; a NULL timestamp is left out *)
          let event_dates :=
            unique_Z [] (flat_map (fun o => match o with Some s => [day_of s] | None => [] end)
                                  news_df) in
          let events :=
            flat_map (fun ed =>
              map (fun p => (fst p - ed, snd p))%Z
                  (filter (fun p => Z.leb (ed + fst window) (fst p)
                                    && Z.leb (fst p) (ed + snd window))%Z merged))
              event_dates in
          match events with
          | [] => empty_frame event_columns
          | _ =>
              Build_Frame event_columns
                (map (fun k =>
                   let g := map snd (filter (fun p => Z.eqb (fst p) k) events) in
                   {| rel_day := k; abret_mean := fmean g; abret_std := fstd fsqrt g;
                      n_events := List.length (non_nan g) |})
                 (group_keys (map fst events)))
          end
      end
  end.

(** Sample data: one asset with three daily closes stored out of order. *)
Definition zim : Asset := {| asset_id := 1; ticker := "ZIM"%string |}.

Definition price1 (d : Z) (c : flt) : Price :=
  {| price_asset_id := 1; price_date := d; close := c |}.

Definition db_rets : DB :=
  {| db_assets := [zim];
     db_prices := [price1 3 (Fin 11); price1 1 (Fin 10); price1 2 (Fin 12)];
     db_news := []; db_links := [] |}.

Definition db_empty : DB := {| db_assets := []; db_prices := []; db_news := []; db_links := [] |}.

(** Three news items on two UTC days, with summaries of 4, 10 and 3 characters. *)
Definition news3 : list News :=
  [ {| news_id := 1; published_at := Some 3600%Z; summary_ai := Some "abcd"%string |};
    {| news_id := 2; published_at := Some 7200%Z; summary_ai := Some "abcdefghij"%string |};
    {| news_id := 3; published_at := Some 90000%Z; summary_ai := Some "abc"%string |} ].

Definition db_news3 : DB := {| db_assets := []; db_prices := []; db_news := news3; db_links := [] |}.

(** Returns of two tickers on three days. *)
Definition ret_row (d : Z) (t : string) (x : Q) : RetRow :=
  {| rr_date := d; rr_ticker := t; rr_ret := Fin x |}.

Definition ret_two : Frame RetRow :=
  Build_Frame ret_columns
    [ret_row 1 "MATX" (1#10); ret_row 2 "MATX" (-1#10); ret_row 3 "MATX" (2#10);
     ret_row 1 "ZIM" (1#20); ret_row 2 "ZIM" (3#20); ret_row 3 "ZIM" (-1#20)]%string.

(** Two watchlist tickers with prices on days 10 to 12, and one news item of
    day 11 linked to ZIM. *)
Definition db_event : DB :=
  {| db_assets := [zim; {| asset_id := 2; ticker := "MATX"%string |}];
     db_prices := [price1 10 (Fin 10); price1 11 (Fin 11); price1 12 (Fin 11);
                   {| price_asset_id := 2; price_date := 10; close := Fin 20 |};
                   {| price_asset_id := 2; price_date := 11; close := Fin 21 |};
                   {| price_asset_id := 2; price_date := 12; close := Fin 21 |}];
     db_news := [{| news_id := 1; published_at := Some (11 * 86400 + 3600)%Z; summary_ai := None |}];
     db_links := [{| link_news_id := 1; link_asset_ticker := Some "ZIM"%string |}] |}.

End Analytics.

(* ------------------------------------------------------------------------- *)
(** ** indices.py *)

Module Indices.
Local Open Scope nat_scope.

(** Rows of [indices] and [index_points] (db.py). *)
Record Index := { index_id : nat; code : string }.
Record IndexPoint := { point_id : nat; point_index_id : nat; point_date : Z; value : Q }.
Record IDB := { db_indices : list Index; db_points : list IndexPoint }.

(** The id SQLite gives a new row: one more than the largest one. *)
Definition next_id (ids : list nat) : nat := S (fold_right Nat.max 0 ids).

(** [scalar_one_or_none()]: no row, one row, or MultipleResultsFound. *)
Inductive one_or_none (A : Type) := NoRow | OneRow (a : A) | ManyRows.
Arguments NoRow {A}.
Arguments OneRow {A} a.
Arguments ManyRows {A}.

Definition scalar_one_or_none {A} (l : list A) : one_or_none A :=
  match l with [] => NoRow | [a] => OneRow a | _ => ManyRows end.

(** [select(Index).where(Index.code == index_code)], adding and flushing a new
    Index when there is none; [None] for MultipleResultsFound. *)
Definition get_index (db : IDB) (c : string) : option (IDB * nat) :=
  match scalar_one_or_none (filter (fun i => String.eqb (code i) c) (db_indices db)) with
  | OneRow i => Some (db, index_id i)
  | NoRow =>
      let iid := next_id (map index_id (db_indices db)) in
      Some ({| db_indices := List.app (db_indices db) [{| index_id := iid; code := c |}];
               db_points := db_points db |}, iid)
  | ManyRows => None
  end.

(** [existing.value = value]. *)
Definition set_value (pid : nat) (v : Q) (ps : list IndexPoint) : list IndexPoint :=
  map (fun p => if Nat.eqb (point_id p) pid
                then {| point_id := point_id p; point_index_id := point_index_id p;
                        point_date := point_date p; value := v |}
                else p) ps.

(** The body of the loop of [_upsert_df] for one row (date, index_code, value). *)
Definition upsert_point (db : IDB) (row : Z * string * Q) : option IDB :=
  let '(date, index_code, v) := row in
  match get_index db index_code with
  | None => None
  | Some (db1, iid) =>
      match scalar_one_or_none
              (filter (fun p => Nat.eqb (point_index_id p) iid && Z.eqb (point_date p) date)
                      (db_points db1)) with
      | NoRow =>
          Some {| db_indices := db_indices db1;
                  db_points := List.app (db_points db1)
                    [{| point_id := next_id (map point_id (db_points db1));
                        point_index_id := iid; point_date := date; value := v |}] |}
      | OneRow p => Some {| db_indices := db_indices db1; db_points := set_value (point_id p) v (db_points db1) |}
      | ManyRows => None
      end
  end.

(** One transaction ([Session.begin()]): an exception rolls it all back. *)
Fixpoint _upsert_df (rows : list (Z * string * Q)) (db : IDB) : option IDB :=
  match rows with
  | [] => Some db
  | r :: rest =>
      match upsert_point db r with
      | Some db' => _upsert_df rest db'
      | None => None
      end
  end.

(** A CSV file as [read_csv] gives it: its header and its cells, [None] for an
    empty (NaN) cell. *)
Record CsvRow := {
  c_date : option string; c_index_code : option string;
  c_value : option string; c_source : option string }.
Record CsvFile := { csv_columns : list string; csv_rows : list CsvRow }.

Definition expected : list string := ["date"; "index_code"; "value"; "source"]%string.

Section CsvImport.
(** [pd.to_datetime(..., errors="coerce")] and [pd.to_numeric(..., errors="coerce")]
    on one cell, [None] for NaT or NaN (the parse is taken cell by cell). *)
Variable to_datetime : string -> option Z.
Variable to_numeric : string -> option Q.

(** The rows left after the two [dropna] calls, as (date, index_code, value). *)
Definition valid_rows (rows : list CsvRow) : list (Z * string * Q) :=
  flat_map (fun r =>
    match c_date r, c_index_code r, c_value r, c_source r with
    | Some d, Some c, Some v, Some _ =>
        match to_datetime d, to_numeric v with
        | Some d', Some v' => [(d', c, v')]
        | _, _ => []
        end
    | _, _, _, _ => []
    end) rows.

(** [file] is [None] when the path does not exist. *)
Definition import_indices_from_csv (file : option CsvFile) (db : IDB) : option IDB :=
  match file with
  | None => Some db
  | Some f =>
      if existsb (fun c => negb (existsb (String.eqb c) (csv_columns f))) expected then Some db
      else
        match valid_rows (csv_rows f) with
        | [] => Some db
        | rows => _upsert_df rows db
        end
  end.

End CsvImport.

(** A file of one row. *)
Definition csv_one (r : CsvRow) : CsvFile := {| csv_columns := expected; csv_rows := [r] |}.

(** Sample cell parsers for the examples. *)
Definition sample_date (s : string) : option Z :=
  if String.eqb s "2024-01-05" then Some 1704412800%Z else None.
Definition sample_number (s : string) : option Q :=
  if String.eqb s "1234.5" then Some (12345#10) else None.

Definition scfi_row : CsvRow :=
  {| c_date := Some "2024-01-05"%string; c_index_code := Some "SCFI"%string;
     c_value := Some "1234.5"%string; c_source := Some "manual"%string |}.

Definition idb_scfi : IDB := {| db_indices := [{| index_id := 1; code := "SCFI"%string |}]; db_points := [] |}.

End Indices.

(* ------------------------------------------------------------------------- *)
(** ** prices.py and news.py upserts *)

Module Store.
Import Indices.
Local Open Scope nat_scope.

Record Asset := { asset_id : nat; ticker : string }.
Record Bar := {
  open : Analytics.flt; high : Analytics.flt; low : Analytics.flt;
  close : Analytics.flt; volume : Analytics.flt }.
Record Price := { price_id : nat; price_asset_id : nat; price_date : Z; bar : Bar }.

(** A row of the frame given to [upsert_prices]. *)
Record PriceIn := { pi_ticker : string; pi_date : Z; pi_bar : Bar }.

(** [select(Asset).where(Asset.ticker == ticker)], adding and flushing a new
    Asset when there is none. *)
Definition get_asset (assets : list Asset) (t : string) : option (list Asset * nat) :=
  match scalar_one_or_none (filter (fun a => String.eqb (ticker a) t) assets) with
  | OneRow a => Some (assets, asset_id a)
  | NoRow =>
      let aid := next_id (map asset_id assets) in
      Some (List.app assets [{| asset_id := aid; ticker := t |}], aid)
  | ManyRows => None
  end.

Definition price_key (p : Price) : nat * Z := (price_asset_id p, price_date p).

Definition same_price (aid : nat) (d : Z) (p : Price) : bool :=
  Nat.eqb (price_asset_id p) aid && Z.eqb (price_date p) d.

(** [sqlite_insert(Price) ... on_conflict_do_update(index_elements=[asset_id, date])]. *)
Definition insert_price (aid : nat) (d : Z) (b : Bar) (ps : list Price) : list Price :=
  if existsb (same_price aid d) ps
  then map (fun p => if same_price aid d p
                     then {| price_id := price_id p; price_asset_id := price_asset_id p;
                             price_date := price_date p; bar := b |}
                     else p) ps
  else List.app ps [{| price_id := next_id (map price_id ps); price_asset_id := aid;
                       price_date := d; bar := b |}].

Definition upsert_group (st : list Asset * list Price) (t : string) (group : list PriceIn)
    : option (list Asset * list Price) :=
  match get_asset (fst st) t with
  | None => None
  | Some (assets, aid) =>
      Some (assets, fold_left (fun ps r => insert_price aid (pi_date r) (pi_bar r) ps) group (snd st))
  end.

(** [for ticker, group in df.groupby("ticker")]: the tickers in sorted order,
    each group in frame order; one transaction. *)
Definition upsert_prices (df : list PriceIn) (st : list Asset * list Price)
    : option (list Asset * list Price) :=
  fold_left (fun acc t =>
    match acc with
    | None => None
    | Some st' => upsert_group st' t (filter (fun r => String.eqb (pi_ticker r) t) df)
    end) (Analytics.pivot_columns (map pi_ticker df)) (Some st).

Record News := {
  news_id : nat; url : string; title : string; summary : option string;
  source : option string; published_at : option Z; summary_ai : option string }.

(** A row of the frame given to [upsert_news]. *)
Record NewsIn := {
  n_url : string; n_title : string; n_summary : option string;
  n_source : option string; n_ts : option Z }.

(** [sqlite_insert(News) ... on_conflict_do_update(index_elements=[url])]. *)
Definition insert_news (r : NewsIn) (ns : list News) : list News :=
  if existsb (fun n => String.eqb (url n) (n_url r)) ns
  then map (fun n => if String.eqb (url n) (n_url r)
                     then {| news_id := news_id n; url := url n; title := n_title r;
                             summary := n_summary r; source := n_source r;
                             published_at := n_ts r; summary_ai := summary_ai n |}
                     else n) ns
  else List.app ns [{| news_id := next_id (map news_id ns); url := n_url r; title := n_title r;
                       summary := n_summary r; source := n_source r;
                       published_at := n_ts r; summary_ai := None |}].

(** The count returned is [len(set(urls) - existing)]. *)
Definition upsert_news (df : list NewsIn) (ns : list News) : nat * list News :=
  match df with
  | [] => (0, ns)
  | _ =>
      let urls := map n_url df in
      let fresh := filter (fun u => negb (existsb (fun n => String.eqb (url n) u) ns)) urls in
      (List.length (Analytics.pivot_columns fresh), fold_left (fun acc r => insert_news r acc) df ns)
  end.

(** The stored rows the three upserts touch. *)
Record St := { st_assets : list Asset; st_prices : list Price; st_idx : IDB; st_news : list News }.

Inductive op :=
| OpPrices (df : list PriceIn)
| OpIndex (df : list (Z * string * Q))
| OpNews (df : list NewsIn).

Definition step (st : St) (o : op) : option St :=
  match o with
  | OpPrices df =>
      match upsert_prices df (st_assets st, st_prices st) with
      | Some (a, p) => Some {| st_assets := a; st_prices := p; st_idx := st_idx st; st_news := st_news st |}
      | None => None
      end
  | OpIndex df =>
      match _upsert_df df (st_idx st) with
      | Some i => Some {| st_assets := st_assets st; st_prices := st_prices st; st_idx := i; st_news := st_news st |}
      | None => None
      end
  | OpNews df =>
      Some {| st_assets := st_assets st; st_prices := st_prices st; st_idx := st_idx st;
              st_news := snd (upsert_news df (st_news st)) |}
  end.

Fixpoint run_ops (ops : list op) (st : St) : option St :=
  match ops with
  | [] => Some st
  | o :: rest => match step st o with Some st' => run_ops rest st' | None => None end
  end.

Definition point_key (p : IndexPoint) : nat * Z := (point_index_id p, point_date p).

(** The unique constraints of db.py on tickers and index codes. *)
Definition schema_ok (st : St) : Prop :=
  NoDup (map ticker (st_assets st)) /\ NoDup (map code (db_indices (st_idx st))).

(** The natural keys: (asset, date), (index, date) and url. *)
Definition keys_unique (st : St) : Prop :=
  NoDup (map price_key (st_prices st)) /\
  NoDup (map point_key (db_points (st_idx st))) /\
  NoDup (map url (st_news st)).

Definition bar0 : Bar :=
  {| open := Analytics.Fin 1; high := Analytics.Fin 2; low := Analytics.Fin 1;
     close := Analytics.Fin 2; volume := Analytics.Fin 100 |}.
Definition bar1 : Bar :=
  {| open := Analytics.Fin 2; high := Analytics.Fin 3; low := Analytics.Fin 2;
     close := Analytics.Fin 3; volume := Analytics.Fin 50 |}.

Definition st0 : St := {| st_assets := []; st_prices := []; st_idx := {| db_indices := []; db_points := [] |}; st_news := [] |}.

Definition ops0 : list op :=
  [OpPrices [{| pi_ticker := "ZIM"; pi_date := 1; pi_bar := bar0 |}];
   OpIndex [(1%Z, "SCFI", 1#1)];
   OpNews [{| n_url := "u"; n_title := "t"; n_summary := None; n_source := None; n_ts := None |}];
   OpPrices [{| pi_ticker := "ZIM"; pi_date := 1; pi_bar := bar1 |}];
   OpIndex [(1%Z, "SCFI", 2#1)];
   OpNews [{| n_url := "u"; n_title := "t2"; n_summary := None; n_source := None; n_ts := None |}]]%string.

End Store.

(* ------------------------------------------------------------------------- *)
(** ** config.py: the feed list *)

Module Config.
Local Open Scope string_scope.

Definition DEFAULT_FEEDS : list string :=
  ["https://www.hellenicshippingnews.com/feed/";
   "https://www.maritime-executive.com/rss";
   "https://gcaptain.com/feed/"].

(** [os.getenv] decodes the bytes of [MMW_EXTRA_FEEDS] as UTF-8 (with
    surrogateescape), and [str.strip()] removes the code points for which
    [str.isspace] holds: U+0009-U+000D, U+001C-U+0020, U+0085, U+00A0,
    U+1680, U+2000-U+200A, U+2028, U+2029, U+202F, U+205F and U+3000.  The
    model keeps the bytes and removes their UTF-8 encodings: one byte for the
    ASCII ones ([is_space]), two for U+0085 and U+00A0 ([space2]), three for
    the others ([space3]).  A lead byte (C2, E1, E2, E3) never continues an
    earlier sequence, so a match at either end is a whole decoded character. *)
Definition is_space (c : ascii) : bool :=
  let n := nat_of_ascii c in
  (Nat.leb 9 n && Nat.leb n 13) || (Nat.leb 28 n && Nat.leb n 32).

Definition space2 (c d : ascii) : bool :=
  Nat.eqb (nat_of_ascii c) 194 &&
  (Nat.eqb (nat_of_ascii d) 133 || Nat.eqb (nat_of_ascii d) 160).

Definition space3 (c d e : ascii) : bool :=
  let b1 := nat_of_ascii c in
  let b2 := nat_of_ascii d in
  let b3 := nat_of_ascii e in
  (Nat.eqb b1 225 && Nat.eqb b2 154 && Nat.eqb b3 128) ||
  (Nat.eqb b1 226 && Nat.eqb b2 128 &&
     ((Nat.leb 128 b3 && Nat.leb b3 138) || Nat.eqb b3 168 || Nat.eqb b3 169 || Nat.eqb b3 175)) ||
  (Nat.eqb b1 226 && Nat.eqb b2 129 && Nat.eqb b3 159) ||
  (Nat.eqb b1 227 && Nat.eqb b2 128 && Nat.eqb b3 128).

(** Drop whitespace characters at the front of a byte list; [w2] and [w3]
    recognise the two- and three-byte ones in the order the list has them. *)
Fixpoint drop_ws (w2 : ascii -> ascii -> bool) (w3 : ascii -> ascii -> ascii -> bool)
    (l : list ascii) : list ascii :=
  match l with
  | [] => []
  | c :: l1 =>
      if is_space c then drop_ws w2 w3 l1 else
      match l1 with
      | [] => l
      | d :: l2 =>
          if w2 c d then drop_ws w2 w3 l2 else
          match l2 with
          | [] => l
          | e :: l3 => if w3 c d e then drop_ws w2 w3 l3 else l
          end
      end
  end.

(** Whether [drop_ws w2 w3] drops something from [l]. *)
Definition ws_head (w2 : ascii -> ascii -> bool) (w3 : ascii -> ascii -> ascii -> bool)
    (l : list ascii) : bool :=
  match l with
  | [] => false
  | c :: l1 =>
      is_space c ||
      match l1 with
      | [] => false
      | d :: l2 => w2 c d || match l2 with [] => false | e :: _ => w3 c d e end
      end
  end.

(** [str.lstrip()]. *)
Definition lstrip (s : string) : string :=
  string_of_list_ascii (drop_ws space2 space3 (list_ascii_of_string s)).

(** [str.rstrip()]: the same on the reversed bytes. *)
Definition rstrip (s : string) : string :=
  string_of_list_ascii
    (rev (drop_ws (fun c d => space2 d c) (fun c d e => space3 e d c)
                  (rev (list_ascii_of_string s)))).

(** [str.strip()]. *)
Definition strip (s : string) : string := rstrip (lstrip s).

(** [str.split(sep)] with a one-character separator. *)
Fixpoint split (sep : ascii) (s : string) : list string :=
  match s with
  | EmptyString => [""]
  | String c s' =>
      let parts := split sep s' in
      if Ascii.eqb c sep then "" :: parts
      else match parts with
           | p :: ps => String c p :: ps
           | [] => [String c ""]
           end
  end.

(** [extra = os.getenv("MMW_EXTRA_FEEDS")]; when it is set and non-empty,
    [[u.strip() for u in extra.split(",") if u.strip()]]. *)
Definition extra_feeds (extra : option string) : list string :=
  match extra with
  | Some e =>
      if String.eqb e "" then []
      else map strip (filter (fun u => negb (String.eqb (strip u) "")) (split "," e))
  | None => []
  end.

(** [RSS_FEEDS] after [RSS_FEEDS.extend(...)]. *)
Definition RSS_FEEDS (extra : option string) : list string :=
  List.app DEFAULT_FEEDS (extra_feeds extra).

End Config.

(* ------------------------------------------------------------------------- *)
(** ** news.py: fetching, normalizing and storing feed items *)

Module Feeds.
Import Store.
Local Open Scope nat_scope.

(** What [feedparser.parse] gives: the feed's title and, per entry, the fields
    [fetch_rss] reads, [None] where the key is missing. *)
Record Entry := {
  e_link : option string; e_title : option string;
  e_summary : option string; e_published : option string }.
Record Parsed := { feed_title : option string; entries : list Entry }.

(** A dict of the list [fetch_rss] returns. *)
Record Item := {
  i_source : string; i_url : option string; i_title : string;
  i_summary : string; i_published : option string }.

(** [d.get(key, default)]. *)
Definition get_or (default : string) (o : option string) : string :=
  match o with Some s => s | None => default end.

(** [fetch_rss]: [parse feed_url] is [None] when [feedparser.parse] raises. *)
Definition fetch_rss (parse : string -> option Parsed) (feed_url : string) : list Item :=
  match parse feed_url with
  | None => []
  | Some parsed =>
      let source := get_or feed_url (feed_title parsed) in
      map (fun e => {| i_source := source; i_url := e_link e;
                       i_title := get_or "" (e_title e);
                       i_summary := get_or "" (e_summary e);
                       i_published := e_published e |}) (entries parsed)
  end.

(** A row of the frame [normalize_news] returns (columns ts, source, url,
    title, summary); [ts] is [None] for NaT. *)
Record Row := {
  ts : option Z; r_source : string; r_url : option string;
  r_title : string; r_summary : string }.

(** [normalize_news]: [to_datetime] is [pd.to_datetime(..., errors="coerce")]
    on one value, [None] for NaT (a missing [published] is NaT). *)
Definition normalize_news (to_datetime : string -> option Z) (items : list Item) : list Row :=
  map (fun i => {| ts := match i_published i with Some s => to_datetime s | None => None end;
                   r_source := i_source i; r_url := i_url i;
                   r_title := i_title i; r_summary := i_summary i |}) items.

Definition opt_eqb (a b : option string) : bool :=
  match a, b with
  | Some x, Some y => String.eqb x y
  | None, None => true
  | _, _ => false
  end.

(** [df.drop_duplicates(subset="url")]: the first row of each url stays. *)
Fixpoint drop_duplicates (seen : list (option string)) (rows : list Row) : list Row :=
  match rows with
  | [] => []
  | r :: rest =>
      if existsb (opt_eqb (r_url r)) seen then drop_duplicates seen rest
      else r :: drop_duplicates (r_url r :: seen) rest
  end.

(** The values one row gives the insert statement of [upsert_news]. *)
Definition row_in (r : Row) (u : string) : NewsIn :=
  {| n_url := u; n_title := r_title r; n_summary := Some (r_summary r);
     n_source := Some (r_source r); n_ts := ts r |}.

(** The frame's rows as statements; [None] when a row has no url. *)
Fixpoint rows_in (rows : list Row) : option (list NewsIn) :=
  match rows with
  | [] => Some []
  | r :: rest =>
      match r_url r, rows_in rest with
      | Some u, Some l => Some (row_in r u :: l)
      | _, _ => None
      end
  end.

Inductive db_error := IntegrityError.

(** [upsert_news] on a normalized frame.  A row without url breaks the
    [NOT NULL] constraint of [news.url]: its statement raises IntegrityError
    and [Session.begin()] rolls the whole transaction back. *)
Definition upsert_frame (rows : list Row) (ns : list News) : (nat * list News) + db_error :=
  match rows_in rows with
  | Some df => inl (upsert_news df ns)
  | None => inr IntegrityError
  end.

(** The end of [refresh_news]: it logs the total, or the exception escapes. *)
Inductive outcome := Done (total : nat) | Failed (e : db_error).

(** The loop of [refresh_news] over the feeds, with the total so far. *)
Fixpoint refresh_feeds (parse : string -> option Parsed) (to_datetime : string -> option Z)
    (feeds : list string) (total_new : nat) (ns : list News) : outcome * list News :=
  match feeds with
  | [] => (Done total_new, ns)
  | feed :: rest =>
      match fetch_rss parse feed with
      | [] => refresh_feeds parse to_datetime rest total_new ns
      | items =>
          match upsert_frame (drop_duplicates [] (normalize_news to_datetime items)) ns with
          | inl (new_rows, ns') => refresh_feeds parse to_datetime rest (total_new + new_rows) ns'
          | inr e => (Failed e, ns)
          end
      end
  end.

(** [refresh_news] over [RSS_FEEDS]; [extra] is [MMW_EXTRA_FEEDS]. *)
Definition refresh_news (parse : string -> option Parsed) (to_datetime : string -> option Z)
    (extra : option string) (ns : list News) : outcome * list News :=
  refresh_feeds parse to_datetime (Config.RSS_FEEDS extra) 0 ns.

End Feeds.

(* ------------------------------------------------------------------------- *)
(** ** nlp.py: enrich_news *)

Module Nlp.
Local Open Scope nat_scope.

(** Rows of [news] and [entities] (db.py) as [enrich_news] reads and writes them. *)
Record NewsRow := {
  id : nat; title : string; summary : option string;
  summary_ai : option string; published_at : option Z }.
Record EntityRow := { entity_id : nat; news_id : nat; etype : string; value : string; score : Q }.

(** A span of [doc.ents]: its [label_], its [text] and the value of its
    [score] extension. *)
Record Span := { label_ : string; span_text : string; ext_score : Q }.

Definition ENTITY_LABELS : list string := ["ORG"; "GPE"; "PRODUCT"]%string.

Section Enrich.
(** [textrank text] is the summary [summarize_text] joins for a non-empty text;
    [ents_of text] is [nlp(text).ents]; [has_score] is
    [ent.has_extension("score")]. *)
Variable textrank : string -> string.
Variable ents_of : string -> list Span.
Variable has_score : bool.

Definition summarize_text (text : string) : string :=
  if String.eqb text "" then "" else textrank text.

Definition extract_entities (text : string) : list (string * string * Q) :=
  map (fun e => (label_ e, span_text e, if has_score then ext_score e else 1%Q))
      (filter (fun e => existsb (String.eqb (label_ e)) ENTITY_LABELS) (ents_of text)).

(** [(News.summary_ai == None) | (News.summary_ai == "")] and no entity row. *)
Definition eligible (ents : list EntityRow) (n : NewsRow) : bool :=
  match summary_ai n with None => true | Some s => String.eqb s "" end &&
  negb (existsb (fun e => Nat.eqb (news_id e) (id n)) ents).

(** [order_by(News.published_at.desc())]: SQLite puts NULL below every
    date, so NULL rows come last; rows with equal dates are taken in table
    order (SQLite leaves their order open). *)
Definition pub_desc (a b : NewsRow) : bool :=
  match published_at a, published_at b with
  | Some x, Some y => Z.leb y x
  | _, None => true
  | None, Some _ => false
  end.

(** The rows of the [select(News)...limit(limit)] statement. *)
Definition select_items (ns : list NewsRow) (ents : list EntityRow) (limit : nat) : list NewsRow :=
  firstn limit (Analytics.isort pub_desc (filter (eligible ents) ns)).

(** [item.summary if item.summary else summarize_text(item.title)]. *)
Definition ai_text (n : NewsRow) : string :=
  match summary n with
  | Some s => if String.eqb s "" then summarize_text (title n) else s
  | None => summarize_text (title n)
  end.

Definition with_summary_ai (n : NewsRow) (s : string) : NewsRow :=
  {| id := id n; title := title n; summary := summary n; summary_ai := Some s;
     published_at := published_at n |}.

(** [item.summary_ai = ...] on the row of the item's id. *)
Definition set_summary_ai (nid : nat) (s : string) (ns : list NewsRow) : list NewsRow :=
  map (fun n => if Nat.eqb (id n) nid then with_summary_ai n s else n) ns.

(** [session.add(Entity(...))] per extracted entity; the rows get their
    rowids in the order they were added. *)
Definition add_entities (nid : nat) (xs : list (string * string * Q)) (ents : list EntityRow)
    : list EntityRow :=
  fold_left (fun acc '(t, v, sc) =>
    List.app acc [{| entity_id := Indices.next_id (map entity_id acc); news_id := nid;
                     etype := t; value := v; score := sc |}]) xs ents.

Definition or_empty (s : option string) : string :=
  match s with Some t => t | None => "" end.

(** One iteration of the loop over [items]. *)
Definition enrich_item (st : list NewsRow * list EntityRow) (item : NewsRow)
    : list NewsRow * list EntityRow :=
  let '(ns, ents) := st in
  (set_summary_ai (id item) (ai_text item) ns,
   add_entities (id item)
     (extract_entities (String.append (title item) (String.append ". " (or_empty (summary item)))))
     ents).

(** [enrich_news(limit)]: one transaction. *)
Definition enrich_news (ns : list NewsRow) (ents : list EntityRow) (limit : nat)
    : list NewsRow * list EntityRow :=
  fold_left enrich_item (select_items ns ents limit) (ns, ents).

End Enrich.

End Nlp.

(* ------------------------------------------------------------------------- *)
(** ** Reading back what the upserts stored *)

Module Queries.
Import Indices Store.
Local Open Scope nat_scope.

(** The points of index [iid] at date [d]. *)
Definition pts_at (ps : list IndexPoint) (iid : nat) (d : Z) : list IndexPoint :=
  filter (fun p => Nat.eqb (point_index_id p) iid && Z.eqb (point_date p) d) ps.

(** [SELECT value FROM index_points JOIN indices ON index_id = indices.id
    WHERE code = c AND date = d]. *)
Definition lookup_values (db : IDB) (c : string) (d : Z) : list Q :=
  flat_map (fun i => map value (pts_at (db_points db) (index_id i) d))
           (filter (fun i => String.eqb (code i) c) (db_indices db)).

(** The value of the last row (date, code, value) of a frame for [c] and [d]. *)
Fixpoint last_value (rows : list (Z * string * Q)) (c : string) (d : Z) : option Q :=
  match rows with
  | [] => None
  | (d', c', v) :: rest =>
      match last_value rest c d with
      | Some v' => Some v'
      | None => if String.eqb c' c && Z.eqb d' d then Some v else None
      end
  end.

(** The constraints of db.py on [indices] and [index_points]: unique codes,
    primary keys, unique (index, date), and the foreign key to [indices]. *)
Definition idb_ok (db : IDB) : Prop :=
  NoDup (map code (db_indices db)) /\ NoDup (map index_id (db_indices db)) /\
  NoDup (map point_id (db_points db)) /\ NoDup (map point_key (db_points db)) /\
  Forall (fun p => In (point_index_id p) (map index_id (db_indices db))) (db_points db).

(** [SELECT open, high, low, close, volume FROM prices JOIN assets ...
    WHERE ticker = t AND date = d]. *)
Definition lookup_bars (st : list Asset * list Price) (t : string) (d : Z) : list Bar :=
  flat_map (fun a => map bar (filter (same_price (asset_id a) d) (snd st)))
           (filter (fun a => String.eqb (ticker a) t) (fst st)).

(** The bar of the last row of a price frame for [t] and [d]. *)
Fixpoint last_bar (df : list PriceIn) (t : string) (d : Z) : option Bar :=
  match df with
  | [] => None
  | r :: rest =>
      match last_bar rest t d with
      | Some b => Some b
      | None => if String.eqb (pi_ticker r) t && Z.eqb (pi_date r) d then Some (pi_bar r) else None
      end
  end.

(** The constraints of db.py on [assets] and [prices]. *)
Definition prices_ok (st : list Asset * list Price) : Prop :=
  NoDup (map ticker (fst st)) /\ NoDup (map asset_id (fst st)) /\
  NoDup (map price_key (snd st)) /\
  Forall (fun p => In (price_asset_id p) (map asset_id (fst st))) (snd st).

(** [select(News).where(News.url == u)]. *)
Definition news_at (ns : list News) (u : string) : list News :=
  filter (fun n => String.eqb (url n) u) ns.

(** The last row of a news frame with url [u]. *)
Fixpoint last_news (df : list NewsIn) (u : string) : option NewsIn :=
  match df with
  | [] => None
  | r :: rest =>
      match last_news rest u with
      | Some r' => Some r'
      | None => if String.eqb (n_url r) u then Some r else None
      end
  end.

(** Row [n] holds what row [r] wrote over the rows [old] of its url: the
    frame's title, summary, source and date; an existing row keeps its id and
    [summary_ai], a new one has no [summary_ai]. *)
Definition writes (r : NewsIn) (old : list News) (n : News) : Prop :=
  url n = n_url r /\ title n = n_title r /\ summary n = n_summary r /\
  source n = n_source r /\ published_at n = n_ts r /\
  match old with
  | [o] => news_id n = news_id o /\ summary_ai n = summary_ai o
  | _ => summary_ai n = None
  end.

(** The first row of a normalized frame with url [u]. *)
Fixpoint first_row (rows : list Feeds.Row) (u : string) : option Feeds.Row :=
  match rows with
  | [] => None
  | r :: rest => if Feeds.opt_eqb (Feeds.r_url r) (Some u) then Some r else first_row rest u
  end.

End Queries.


(* ------------------------------------------------------------------------- *)
(** ** Sample inputs *)

Module Samples.
Import Store Feeds.
Local Open Scope string_scope.

Definition sample_entry (u : option string) : Entry :=
  {| e_link := u; e_title := Some "t"; e_summary := None; e_published := None |}.

(** Every feed gives the same three entries, two of them with one link. *)
Definition sample_parse (f : string) : option Parsed :=
  Some {| feed_title := Some "F";
          entries := [sample_entry (Some "u1"); sample_entry (Some "u1"); sample_entry (Some "u2")] |}.

(** The third default feed has an entry without link. *)
Definition broken_parse (f : string) : option Parsed :=
  if String.eqb f "https://gcaptain.com/feed/"
  then Some {| feed_title := None; entries := [sample_entry None] |}
  else sample_parse f.

Definition no_dates (s : string) : option Z := None.

Definition news_a : News :=
  {| news_id := 5; url := "u1"; title := "old"; summary := None; source := None;
     published_at := None; summary_ai := Some "ai" |}.

Definition news_in (u t : string) : NewsIn :=
  {| n_url := u; n_title := t; n_summary := None; n_source := None; n_ts := None |}.

Definition nlp_row (i : nat) (t : string) (d : option Z) : Nlp.NewsRow :=
  {| Nlp.id := i; Nlp.title := t; Nlp.summary := None; Nlp.summary_ai := None;
     Nlp.published_at := d |}.

(** Two stored items, the later one dated 2, and an entity row of item 1. *)
Definition nlp_rows : list Nlp.NewsRow := [nlp_row 1 "a" (Some 1%Z); nlp_row 2 "b" (Some 2%Z)].

Definition nlp_ents : list Nlp.EntityRow :=
  [{| Nlp.entity_id := 1; Nlp.news_id := 1; Nlp.etype := "ORG"; Nlp.value := "x";
      Nlp.score := 1%Q |}].

(** Every text has an organisation and a date. *)
Definition nlp_ents_of (t : string) : list Nlp.Span :=
  [{| Nlp.label_ := "ORG"; Nlp.span_text := "Acme"; Nlp.ext_score := 1%Q |};
   {| Nlp.label_ := "DATE"; Nlp.span_text := "today"; Nlp.ext_score := 1%Q |}].

(** [MMW_EXTRA_FEEDS] = U+00A0 "a.com" U+3000 ", ,b" in UTF-8. *)
Definition nbsp_feeds : string :=
  String (ascii_of_nat 194) (String (ascii_of_nat 160)
    ("a.com" ++ String (ascii_of_nat 227) (String (ascii_of_nat 128) (String (ascii_of_nat 128)
    ", ,b")))).

End Samples.


(* ------------------------------------------------------------------------- *)
(** * Properties *)

Module PyLexFacts.
Import PyLex.

Example analytics_py_lexes_not : lex analytics_py = LexErr UnterminatedTriple.
Proof. vm_compute. reflexivity. Qed.

Example analytics_py_fixed_lexes : exists n, lex analytics_py_fixed = LexOk n.
Proof. vm_compute. eexists. reflexivity. Qed.

End PyLexFacts.

Module LinkerFacts.
Import Linker.
Open Scope nat_scope.

(** *** Case-insensitive matching *)







Lemma filter_all_false {A} (f : A -> bool) (l : list A) :
  (forall x, In x l -> f x = false) -> filter f l = [].
Proof.
  induction l as [|x l IH]; intros H; simpl; [reflexivity|].
  rewrite (H x (or_introl eq_refl)). apply IH. intros y Hy. apply H. now right.
Qed.

Lemma filter_all_true {A} (f : A -> bool) (l : list A) :
  (forall x, In x l -> f x = true) -> filter f l = l.
Proof.
  induction l as [|x l IH]; intros H; simpl; [reflexivity|].
  rewrite (H x (or_introl eq_refl)). f_equal. apply IH. intros y Hy. apply H. now right.
Qed.

Lemma filter_filter_and {A} (f g : A -> bool) (l : list A) :
  filter f (filter g l) = filter (fun x => g x && f x) l.
Proof.
  induction l as [|x l IH]; simpl; [reflexivity|].
  destruct (g x); simpl; [destruct (f x); simpl|]; rewrite IH; reflexivity.
Qed.



(** *** Shape of the links one item gets *)

Lemma item_links_shape : forall nid text n,
  In n (item_links nid text) -> nl_news_id n = nid /\ one_target n = true.
Proof.
  intros nid text n H. unfold item_links, asset_links, index_links in H.
  apply in_app_or in H. destruct H as [H|H]; apply in_flat_map in H;
    destruct H as [[a b] [_ H]]; cbn beta iota zeta in H;
    destruct (Nat.eqb _ 0); try contradiction.
  - apply in_map_iff in H. destruct H as [t [<- _]]. split; reflexivity.
  - destruct H as [<-|[]]. split; reflexivity.
Qed.

(** *** The pass over all items, on link contents (rowids dropped) *)

Definition keep_other (nid : nat) (n : NewLink) : bool := negb (Nat.eqb (nl_news_id n) nid).
Definition has_id (nid : nat) (n : NewLink) : bool := Nat.eqb (nl_news_id n) nid.

Definition step_c (ents : list Entity) (L : list NewLink) (item : News) : list NewLink :=
  filter (keep_other (news_id item)) L
  ++ item_links (news_id item) (full_text item (entity_vals ents item)).

(** The rows of [L] whose news id is none of the items'. *)
Definition purge (items : list News) (L : list NewLink) : list NewLink :=
  filter (fun n => negb (existsb (fun it => Nat.eqb (nl_news_id n) (news_id it)) items)) L.

Lemma content_insert : forall nls ls,
  map content (insert_links ls nls) = map content ls ++ nls.
Proof.
  induction nls as [|n rest IH]; intros ls; simpl.
  - rewrite app_nil_r. reflexivity.
  - rewrite IH, map_app, <- app_assoc. destruct n. reflexivity.
Qed.

Lemma content_delete : forall nid ls,
  map content (delete_links nid ls) = filter (keep_other nid) (map content ls).
Proof.
  intros nid ls. induction ls as [|l ls IH]; simpl; [reflexivity|].
  unfold keep_other at 1. simpl.
  destruct (Nat.eqb (link_news_id l) nid); simpl; rewrite IH; reflexivity.
Qed.

Lemma content_fold : forall ents items ls,
  map content (fold_left (link_item ents) items ls)
  = fold_left (step_c ents) items (map content ls).
Proof.
  intros ents items. induction items as [|it items IH]; intros ls; simpl; [reflexivity|].
  rewrite IH. f_equal. unfold link_item, step_c.
  rewrite content_insert, content_delete. reflexivity.
Qed.

Lemma fold_app : forall ents items A B,
  fold_left (step_c ents) items (A ++ B)
  = purge items A ++ fold_left (step_c ents) items B.
Proof.
  intros ents items. induction items as [|it items IH]; intros A B; simpl.
  - unfold purge. simpl. rewrite filter_true. reflexivity.
  - assert (E : step_c ents (A ++ B) it
                 = filter (keep_other (news_id it)) A ++ step_c ents B it).
    { unfold step_c. rewrite filter_app, app_assoc. reflexivity. }
    rewrite E, IH. f_equal. unfold purge. rewrite filter_filter_and.
    apply filter_ext. intros n. unfold keep_other. simpl.
    destruct (Nat.eqb (nl_news_id n) (news_id it)); reflexivity.
Qed.

Lemma purge_app : forall items A B, purge items (A ++ B) = purge items A ++ purge items B.
Proof. intros. apply filter_app. Qed.

Lemma purge_idem : forall items A, purge items (purge items A) = purge items A.
Proof.
  intros items A. unfold purge. rewrite filter_filter_and.
  apply filter_ext. intros n. apply andb_diag.
Qed.

Lemma fold_origin : forall ents items B n,
  In n (fold_left (step_c ents) items B) ->
  In n B \/ exists it, In it items /\
    In n (item_links (news_id it) (full_text it (entity_vals ents it))).
Proof.
  intros ents items. induction items as [|it items IH]; intros B n H; simpl in H.
  - left. exact H.
  - destruct (IH _ _ H) as [H1|[it' [Hin Hn]]].
    + unfold step_c in H1. apply in_app_or in H1. destruct H1 as [H1|H1].
      * left. apply filter_In in H1. apply H1.
      * right. exists it. split; [left; reflexivity|exact H1].
    + right. exists it'. split; [right; exact Hin|exact Hn].
Qed.

Lemma purge_fresh : forall ents items,
  purge items (fold_left (step_c ents) items []) = [].
Proof.
  intros ents items. unfold purge. apply filter_all_false.
  intros n Hn. destruct (fold_origin _ _ _ _ Hn) as [[]|[it [Hin Hl]]].
  apply item_links_shape in Hl. destruct Hl as [Hid _].
  apply negb_false_iff, existsb_exists. exists it. split; [exact Hin|].
  apply Nat.eqb_eq. exact Hid.
Qed.

(** After the pass: the rows of no current item, then the freshly built rows. *)
Lemma link_news_contents : forall db,
  map content (db_links (link_news db))
  = purge (db_news db) (map content (db_links db))
    ++ fold_left (step_c (db_entities db)) (db_news db) [].
Proof.
  intros db. unfold link_news. simpl. rewrite content_fold.
  rewrite <- (app_nil_r (map content (db_links db))) at 1.
  apply fold_app.
Qed.

Lemma fold_other_id : forall ents items C x,
  ~ In x (map news_id items) ->
  filter (has_id x) (fold_left (step_c ents) items C) = filter (has_id x) C.
Proof.
  intros ents items. induction items as [|it items IH]; intros C x Hx; simpl; [reflexivity|].
  simpl in Hx. rewrite IH by tauto. unfold step_c.
  rewrite filter_app, filter_filter_and.
  rewrite (filter_all_false (has_id x) (item_links _ _)).
  - rewrite app_nil_r. apply filter_ext. intros n. unfold keep_other, has_id.
    destruct (Nat.eqb (nl_news_id n) x) eqn:E; [|apply andb_false_r].
    apply Nat.eqb_eq in E. subst x.
    destruct (Nat.eqb (nl_news_id n) (news_id it)) eqn:E2; [|reflexivity].
    apply Nat.eqb_eq in E2. exfalso. apply Hx. left. symmetry. exact E2.
  - intros n Hn. apply item_links_shape in Hn. destruct Hn as [Hid _].
    unfold has_id. apply Nat.eqb_neq. intros E. apply Hx. left. congruence.
Qed.

Lemma fold_own_id : forall ents items C it,
  NoDup (map news_id items) -> In it items ->
  filter (has_id (news_id it)) (fold_left (step_c ents) items C)
  = item_links (news_id it) (full_text it (entity_vals ents it)).
Proof.
  intros ents items. induction items as [|it0 items IH]; intros C it Hnd Hin;
    [destruct Hin|].
  simpl in Hnd. inversion Hnd as [|? ? Hnot Hnd']. subst.
  simpl. destruct Hin as [<-|Hin].
  - rewrite fold_other_id by exact Hnot. unfold step_c.
    rewrite filter_app, filter_filter_and.
    rewrite filter_all_false.
    + simpl. apply filter_all_true. intros n Hn.
      apply item_links_shape in Hn. destruct Hn as [Hid _].
      unfold has_id. apply Nat.eqb_eq. exact Hid.
    + intros n _. unfold keep_other, has_id.
      destruct (Nat.eqb (nl_news_id n) (news_id it0)); reflexivity.
  - apply IH; assumption.
Qed.

Lemma links_of_link_news : forall db item,
  NoDup (map news_id (db_news db)) -> In item (db_news db) ->
  links_of (link_news db) (news_id item) = item_links (news_id item) (haystack db item).
Proof.
  intros db item Hnd Hin. unfold links_of. rewrite link_news_contents.
  rewrite filter_app.
  rewrite (filter_all_false _ (purge _ _)).
  - apply fold_own_id; assumption.
  - intros n Hn. unfold purge in Hn. apply filter_In in Hn. destruct Hn as [_ Hn].
    apply Nat.eqb_neq. intros E. apply negb_true_iff in Hn.
    assert (Ht : existsb (fun it => Nat.eqb (nl_news_id n) (news_id it)) (db_news db) = true).
    { apply existsb_exists. exists item. split; [exact Hin|]. apply Nat.eqb_eq. exact E. }
    congruence.
Qed.

(** *** Claims *)

Example link_news_db0 :
  links_of (link_news db0) 1
  = [{| nl_news_id := 1; nl_asset_ticker := Some "ZIM"%string; nl_index_code := None; nl_score := 2 |};
     {| nl_news_id := 1; nl_asset_ticker := None; nl_index_code := Some "FBX"%string; nl_score := 2 |}]
  /\ links_of (link_news db0) 2 = [].
Proof. vm_compute. split; reflexivity. Qed.



(** C4: [link_news] recomputes: after a pass the links of each news item are
    exactly the ones built from the current news and entity rows (none of
    the item's earlier links survives), news and entities are left as they
    are, and a second pass leaves the same link rows (up to rowids) as one. *)
Theorem link_news_full_recompute : forall db,
  (NoDup (map news_id (db_news db)) ->
   forall item, In item (db_news db) ->
   links_of (link_news db) (news_id item) = item_links (news_id item) (haystack db item)) /\
  db_news (link_news db) = db_news db /\
  db_entities (link_news db) = db_entities db /\
  map content (db_links (link_news (link_news db))) = map content (db_links (link_news db)).
Proof.
  intros db. split; [|split; [reflexivity|split; [reflexivity|]]].
  - intros Hnd item Hin. apply links_of_link_news; assumption.
  - rewrite (link_news_contents (link_news db)).
    change (db_news (link_news db)) with (db_news db).
    change (db_entities (link_news db)) with (db_entities db).
    rewrite link_news_contents, purge_app, purge_idem, purge_fresh, app_nil_r.
    reflexivity.
Qed.

Lemma link_news_full_recompute_witness :
  links_of (link_news db0) (news_id news2) = item_links (news_id news2) (haystack db0 news2).
Proof.
  apply (proj1 (link_news_full_recompute db0)).
  - simpl. constructor; [simpl; intuition discriminate|].
    constructor; [simpl; tauto|constructor].
  - right. left. reflexivity.
Defined.

(** C10: every link row a pass creates (the rows of current news items) has
    exactly one of [asset_ticker] and [index_code] set; so when every earlier
    row had, every row after the pass has. *)
Theorem link_news_one_target : forall db,
  (forall l, In l (db_links (link_news db)) ->
   In (link_news_id l) (map news_id (db_news db)) -> one_target (content l) = true) /\
  ((forall l, In l (db_links db) -> one_target (content l) = true) ->
   forall l, In l (db_links (link_news db)) -> one_target (content l) = true).
Proof.
  intros db.
  assert (Hsplit : forall l, In l (db_links (link_news db)) ->
            (In (content l) (map content (db_links db)) /\
             ~ In (link_news_id l) (map news_id (db_news db)))
            \/ one_target (content l) = true).
  { intros l Hl. apply (in_map content) in Hl. rewrite link_news_contents in Hl.
    apply in_app_or in Hl. destruct Hl as [Hl|Hl].
    - left. unfold purge in Hl. apply filter_In in Hl. destruct Hl as [Hl Hp].
      split; [exact Hl|]. intros Hid. apply in_map_iff in Hid.
      destruct Hid as [it [Eid Hit]].
      assert (Ht : existsb (fun it => Nat.eqb (nl_news_id (content l)) (news_id it))
                     (db_news db) = true).
      { apply existsb_exists. exists it. split; [exact Hit|].
        apply Nat.eqb_eq. simpl. symmetry. exact Eid. }
      rewrite Ht in Hp. discriminate.
    - right. destruct (fold_origin _ _ _ _ Hl) as [[]|[it [_ Hn]]].
      apply item_links_shape in Hn. apply Hn. }
  split.
  - intros l Hl Hid. destruct (Hsplit l Hl) as [[_ Hn]|Ho]; [contradiction|exact Ho].
  - intros Hold l Hl. destruct (Hsplit l Hl) as [[Hc _]|Ho]; [|exact Ho].
    apply in_map_iff in Hc. destruct Hc as [l0 [E Hl0]]. rewrite <- E. apply Hold. exact Hl0.
Qed.

Lemma link_news_one_target_witness :
  Forall (fun l => one_target (content l) = true) (db_links (link_news db0)).
Proof.
  apply Forall_forall. apply (proj2 (link_news_one_target db0)).
  intros l Hl. simpl in Hl.
  destruct Hl as [<-|[<-|[]]]; reflexivity.
Defined.

End LinkerFacts.

Module AnalyticsFacts.
Import Analytics.
Local Open Scope nat_scope.

(** *** Insertion sort *)

Section ISortFacts.
Context {A : Type} (leb : A -> A -> bool).
Let R (x y : A) : Prop := leb x y = true.
Hypothesis leb_total : forall x y, leb x y = false -> leb y x = true.
Hypothesis leb_trans : forall x y z, leb x y = true -> leb y z = true -> leb x z = true.

Lemma insert_hd : forall x y L, HdRel R y L -> R y x -> HdRel R y (insert leb x L).
Proof.
  intros x y [|z L] H Hyx; simpl.
  - constructor. exact Hyx.
  - destruct (leb x z); constructor; [exact Hyx|]. apply HdRel_inv in H. exact H.
Qed.

Lemma insert_sorted : forall x L, Sorted R L -> Sorted R (insert leb x L).
Proof.
  intros x L H. induction H as [|y L HL IH Hy]; simpl.
  - repeat constructor.
  - destruct (leb x y) eqn:E.
    + constructor; [constructor; assumption|constructor; exact E].
    + constructor; [exact IH|]. apply insert_hd; [exact Hy|]. apply leb_total. exact E.
Qed.

Lemma isort_sorted : forall l, Sorted R (isort leb l).
Proof. induction l as [|x l IH]; simpl; [constructor|]. apply insert_sorted. exact IH. Qed.

Lemma insert_front : forall x M, (forall z, In z M -> R x z) -> insert leb x M = x :: M.
Proof.
  intros x [|z M] H; simpl; [reflexivity|].
  rewrite (H z (or_introl eq_refl)). reflexivity.
Qed.

Lemma filter_insert_false : forall (p : A -> bool) x L,
  p x = false -> filter p (insert leb x L) = filter p L.
Proof.
  intros p x L Hp. induction L as [|y L IH]; simpl.
  - rewrite Hp. reflexivity.
  - destruct (leb x y); simpl; [rewrite Hp; reflexivity|].
    destruct (p y); [rewrite IH|]; exact IH || reflexivity.
Qed.

Lemma filter_insert_true : forall (p : A -> bool) x L,
  Sorted R L -> p x = true -> filter p (insert leb x L) = insert leb x (filter p L).
Proof.
  intros p x L HL Hp. apply Sorted_StronglySorted in HL;
    [|intros a b c; unfold R; apply leb_trans].
  induction HL as [|y L HL IH Hall]; simpl.
  - rewrite Hp. reflexivity.
  - destruct (leb x y) eqn:Exy; simpl.
    + rewrite Hp. destruct (p y) eqn:Hy; simpl.
      * rewrite Exy. reflexivity.
      * symmetry. apply insert_front. intros z Hz. apply filter_In in Hz.
        destruct Hz as [Hz _]. unfold R. apply (leb_trans x y z Exy).
        rewrite Forall_forall in Hall. apply Hall. exact Hz.
    + destruct (p y); simpl; [rewrite Exy, IH; reflexivity|exact IH].
Qed.

Lemma filter_isort : forall (p : A -> bool) l, filter p (isort leb l) = isort leb (filter p l).
Proof.
  intros p l. induction l as [|x l IH]; simpl; [reflexivity|].
  destruct (p x) eqn:Hp.
  - simpl. rewrite filter_insert_true, IH; [reflexivity|apply isort_sorted|exact Hp].
  - rewrite filter_insert_false; assumption.
Qed.

Lemma isort_id : forall l, Sorted R l -> isort leb l = l.
Proof.
  intros l H. induction H as [|x l Hl IH Hx]; simpl; [reflexivity|].
  rewrite IH. destruct l as [|y l]; simpl; [reflexivity|].
  apply HdRel_inv in Hx. unfold R in Hx. rewrite Hx. reflexivity.
Qed.

End ISortFacts.

Lemma insert_ext {A} (leb1 leb2 : A -> A -> bool) (P : A -> Prop) :
  (forall x y, P x -> P y -> leb1 x y = leb2 x y) ->
  forall x L, P x -> Forall P L -> insert leb1 x L = insert leb2 x L.
Proof.
  intros Hext x L Px HL. induction HL as [|y L Py HL IH]; simpl; [reflexivity|].
  rewrite (Hext x y Px Py). destruct (leb2 x y); [reflexivity|]. rewrite IH. reflexivity.
Qed.

Lemma insert_Forall {A} (leb : A -> A -> bool) (P : A -> Prop) :
  forall x L, P x -> Forall P L -> Forall P (insert leb x L).
Proof.
  intros x L Px HL. induction HL as [|y L Py HL IH]; simpl; [repeat constructor; assumption|].
  destruct (leb x y); repeat constructor; assumption.
Qed.

Lemma isort_ext {A} (leb1 leb2 : A -> A -> bool) (P : A -> Prop) :
  (forall x y, P x -> P y -> leb1 x y = leb2 x y) ->
  forall l, Forall P l -> isort leb1 l = isort leb2 l /\ Forall P (isort leb2 l).
Proof.
  intros Hext l Hl. induction Hl as [|x l Px Hl IH]; simpl; [split; constructor|].
  destruct IH as [IH HP]. rewrite IH. split.
  - apply (insert_ext leb1 leb2 P); assumption.
  - apply insert_Forall; assumption.
Qed.

(** *** compute_daily_returns *)

Module SOT := OrdersEx.String_as_OT.

Lemma scmp_refl : forall s, SOT.compare s s = Eq.
Proof.
  intros s. destruct (SOT.compare_spec s s) as [_|H|H]; [reflexivity| |];
    exfalso; eapply (@irreflexivity _ SOT.lt _); exact H.
Qed.

Lemma slt_irrefl : forall s, ~ SOT.lt s s.
Proof. intros s H. eapply (@irreflexivity _ SOT.lt _); exact H. Qed.

Lemma slt_trans : forall a b c, SOT.lt a b -> SOT.lt b c -> SOT.lt a c.
Proof. intros a b c H1 H2. eapply (@transitivity _ SOT.lt _); eassumption. Qed.

Lemma row_leb_total : forall a b, row_leb a b = false -> row_leb b a = true.
Proof.
  intros a b. unfold row_leb.
  destruct (SOT.compare_spec (pr_ticker a) (pr_ticker b)) as [E|H|H].
  - rewrite E, scmp_refl. intros Hz. apply Z.leb_gt in Hz. apply Z.leb_le. lia.
  - discriminate.
  - intros _. unfold SOT.lt in H. rewrite H. reflexivity.
Qed.

Lemma row_leb_trans : forall a b c,
  row_leb a b = true -> row_leb b c = true -> row_leb a c = true.
Proof.
  intros a b c. unfold row_leb.
  remember (pr_ticker a) as ta. remember (pr_ticker b) as tb. remember (pr_ticker c) as tc.
  destruct (SOT.compare_spec ta tb) as [E1|H1|H1];
  destruct (SOT.compare_spec tb tc) as [E2|H2|H2];
  destruct (SOT.compare_spec ta tc) as [E3|H3|H3]; intros X Y;
    try discriminate; try reflexivity.
  all: try (apply Z.leb_le in X; apply Z.leb_le in Y; apply Z.leb_le; lia).
  all: exfalso; unfold SOT.eq in *; clear Heqta Heqtb Heqtc; subst; first
    [ eapply slt_irrefl; eassumption
    | eapply slt_irrefl; eapply slt_trans; eassumption
    | eapply slt_irrefl; eapply slt_trans; [eassumption|eapply slt_trans; eassumption] ].
Qed.

Lemma filter_map_comm {A B} (f : B -> bool) (g : A -> B) (l : list A) :
  filter f (map g l) = map g (filter (fun x => f (g x)) l).
Proof.
  induction l as [|x l IH]; simpl; [reflexivity|].
  destruct (f (g x)); simpl; rewrite IH; reflexivity.
Qed.

Lemma filter_comm {A} (f g : A -> bool) (l : list A) :
  filter f (filter g l) = filter g (filter f l).
Proof.
  rewrite !LinkerFacts.filter_filter_and. apply filter_ext. intros x. apply andb_comm.
Qed.

Lemma pct_filter : forall t rs seen seen',
  lookup t seen = lookup t seen' ->
  filter (fun p => String.eqb (pr_ticker (fst p)) t) (pct_change seen rs)
  = pct_change seen' (filter (fun r => String.eqb (pr_ticker r) t) rs).
Proof.
  intros t rs. induction rs as [|r rs IH]; intros seen seen' H; simpl; [reflexivity|].
  destruct (String.eqb (pr_ticker r) t) eqn:E.
  - apply String.eqb_eq in E. subst t. rewrite H. simpl. f_equal.
    apply IH. simpl. rewrite String.eqb_refl. reflexivity.
  - apply IH. simpl. rewrite String.eqb_sym, E. exact H.
Qed.

Lemma pct_series : forall t rs seen prev,
  Forall (fun r => pr_ticker r = t /\ is_nan (pr_close r) = false) rs ->
  lookup t seen = Some prev ->
  map to_ret (pct_change seen rs) = returns_from prev rs.
Proof.
  intros t rs. induction rs as [|r rs IH]; intros seen prev Hall Hl; simpl; [reflexivity|].
  inversion Hall as [|? ? [Ht Hn] Hall']. subst t.
  rewrite Hl, Hn. unfold to_ret at 1. simpl. f_equal.
  apply IH; [exact Hall'|]. simpl. rewrite String.eqb_refl. reflexivity.
Qed.

Lemma isort_nil {A} (leb : A -> A -> bool) l : isort leb l = [] -> l = [].
Proof.
  destruct l as [|x l]; simpl; [reflexivity|].
  destruct (isort leb l) as [|y m]; simpl; [discriminate|].
  destruct (leb x y); discriminate.
Qed.

(** The rows the query and the sort give for one ticker of the list are the
    ticker's rows ordered by date. *)
Lemma select_ticker : forall db tickers t,
  In t tickers ->
  filter (fun r => String.eqb (pr_ticker r) t) (isort row_leb (select_prices db tickers))
  = ticker_series db t.
Proof.
  intros db tickers t Hin. unfold select_prices, ticker_series.
  rewrite !(filter_isort row_leb row_leb_total row_leb_trans).
  rewrite LinkerFacts.filter_filter_and.
  rewrite (filter_ext _ (fun r => String.eqb (pr_ticker r) t)).
  2:{ intros r. destruct (String.eqb (pr_ticker r) t) eqn:E; [|apply andb_false_r].
      apply String.eqb_eq in E. subst t. rewrite andb_true_r.
      apply existsb_exists. exists (pr_ticker r). split; [exact Hin|apply String.eqb_refl]. }
  rewrite (isort_id row_leb (isort row_leb _)) by
    (apply isort_sorted; exact row_leb_total).
  apply (isort_ext row_leb date_leb (fun r => pr_ticker r = t)).
  - intros x y Hx Hy. unfold row_leb, date_leb. rewrite Hx, Hy, scmp_refl. reflexivity.
  - apply Forall_forall. intros r Hr. apply filter_In in Hr. apply String.eqb_eq. apply Hr.
Qed.

Lemma ticker_series_Forall : forall db t,
  Forall (fun r => pr_ticker r = t) (ticker_series db t).
Proof.
  intros db t. unfold ticker_series.
  apply (isort_ext date_leb date_leb (fun r => pr_ticker r = t)); [reflexivity|].
  apply Forall_forall. intros r Hr. apply filter_In in Hr. apply String.eqb_eq. apply Hr.
Qed.

Lemma ticker_series_In : forall db t r, In r (ticker_series db t) -> In r (joined db).
Proof.
  intros db t r Hr. unfold ticker_series in Hr.
  assert (Hf := isort_ext date_leb date_leb (fun r => In r (joined db))
                  (fun _ _ _ _ => eq_refl)
                  (filter (fun r => String.eqb (pr_ticker r) t) (joined db))).
  destruct Hf as [_ Hf].
  - apply Forall_forall. intros x Hx. apply filter_In in Hx. apply Hx.
  - rewrite Forall_forall in Hf. apply Hf. exact Hr.
Qed.


Lemma ret_nan_iff : forall a b, is_nan a = false -> is_nan b = false ->
  is_nan (fsub1 (fdiv a b)) = (fzero a && fzero b) || (is_inf a && is_inf b).
Proof.
  intros [a|sa|] [b|sb|] Ha Hb; try discriminate; unfold fsub1, fsub, fdiv; simpl;
    repeat (match goal with |- context [Qeq_bool ?q 0] => destruct (Qeq_bool q 0) end; simpl);
    rewrite ?andb_false_r; reflexivity.
Qed.

Lemma first_return_dropped : forall db t r rest,
  ticker_series db t = r :: rest ->
  (forall r', In r' (joined db) -> pr_ticker r' = t -> is_nan (pr_close r') = false) ->
  map to_ret (filter (fun p => negb (is_nan (snd p))) (pct_change [] (r :: rest)))
  = filter (fun x => negb (is_nan (rr_ret x))) (returns_from (pr_close r) rest).
Proof.
  intros db t r rest Hts Hnan.
  assert (Hall : Forall (fun x => pr_ticker x = t /\ is_nan (pr_close x) = false) (r :: rest)).
  { apply Forall_forall. intros x Hx. rewrite <- Hts in Hx.
    assert (Ht : pr_ticker x = t).
    { pose proof (ticker_series_Forall db t) as HF. rewrite Forall_forall in HF. apply HF, Hx. }
    split; [exact Ht|]. apply Hnan; [eapply ticker_series_In; exact Hx|exact Ht]. }
  inversion Hall as [|? ? [Ht Hn] Hrest]. subst t.
  simpl. rewrite Hn. simpl.
  replace (fdiv (pr_close r) NaN) with NaN by (destruct (pr_close r); reflexivity). simpl.
  rewrite <- (pct_series (pr_ticker r) rest [(pr_ticker r, pr_close r)] (pr_close r) Hrest)
    by (simpl; rewrite String.eqb_refl; reflexivity).
  rewrite filter_map_comm. reflexivity.
Qed.

End AnalyticsFacts.

Module AnalyticsImport.
Import PyLex Analytics.
Local Open Scope nat_scope.

Lemma call_analytics_raises : forall A (run : unit -> A), call_analytics run = Raise SyntaxError.
Proof.
  intros A run. unfold call_analytics, call_module, import_module.
  rewrite PyLexFacts.analytics_py_lexes_not. reflexivity.
Qed.

Lemma call_analytics_fixed_runs : forall A (run : unit -> A), call_analytics_fixed run = Ok (run tt).
Proof.
  intros A run. unfold call_analytics_fixed, call_module, import_module.
  destruct PyLexFacts.analytics_py_fixed_lexes as [n ->]. reflexivity.
Qed.

(** C2 (code bug): [compute_daily_returns] cannot be called: importing
    analytics.py raises SyntaxError, for every database and ticker list.
    With the slip removed, the call on ZIM's three closes returns the two
    returns [close[i]/close[i-1] - 1] of its consecutive pairs, as the spec
    describes. *)
Theorem compute_daily_returns_raises : forall db tickers,
  call_analytics (fun _ => compute_daily_returns db tickers) = Raise SyntaxError /\
  call_analytics_fixed (fun _ => rows (compute_daily_returns db_rets ["ZIM"%string]))
  = Ok (spec_daily_returns db_rets "ZIM"%string).
Proof.
  intros db tickers. split; [apply call_analytics_raises|].
  rewrite call_analytics_fixed_runs. vm_compute. reflexivity.
Qed.

(** C3 (code bug): [event_study] cannot be called: importing analytics.py
    raises SyntaxError, on the sample of two watchlist tickers and one news
    item linked to ZIM as on every input.  With the slip removed the same call
    returns the abnormal returns of ZIM on the event day and the day after
    (offsets 0 and 1, one observation each, no standard deviation). *)
Theorem event_study_raises : forall fsqrt db ticker window,
  call_analytics (fun _ => event_study fsqrt db ticker window) = Raise SyntaxError /\
  call_analytics_fixed (fun _ =>
    map (fun r => (rel_day r, is_nan (abret_std r), n_events r))
        (rows (event_study fsqrt db_event "ZIM"%string (-1, 1)%Z)))
  = Ok [(0%Z, true, 1); (1%Z, true, 1)].
Proof.
  intros fsqrt db ticker window. split; [apply call_analytics_raises|].
  rewrite call_analytics_fixed_runs. vm_compute. reflexivity.
Qed.

(** C5 (code bug): [rolling_corr] cannot be called: importing analytics.py
    raises SyntaxError for every frame and window.  With the slip removed, a
    window of 5 over three days of two tickers gives only null correlations,
    under the pair label MATX-ZIM. *)
Theorem rolling_corr_raises : forall pearson ret window,
  call_analytics (fun _ => rolling_corr pearson ret window) = Raise SyntaxError /\
  call_analytics_fixed (fun _ =>
    match rolling_corr pearson ret_two 5 with
    | Ok f => map (fun r => (pair r, is_nan (corr r))) (rows f)
    | Raise _ => []
    end)
  = Ok [("MATX-ZIM"%string, true); ("MATX-ZIM"%string, true); ("MATX-ZIM"%string, true)].
Proof.
  intros pearson ret window. split; [apply call_analytics_raises|].
  rewrite call_analytics_fixed_runs. vm_compute. reflexivity.
Qed.

(** C6 (code bug): [news_intensity] cannot be called: importing analytics.py
    raises SyntaxError, on the three-item scenario as on every database.  With
    the slip removed it returns (day 0, 2 items, mean 7) and (day 1, 1 item,
    mean 3). *)
Theorem news_intensity_raises : forall db,
  call_analytics (fun _ => news_intensity db) = Raise SyntaxError /\
  call_analytics (fun _ => news_intensity db_news3) = Raise SyntaxError /\
  call_analytics_fixed (fun _ =>
    map (fun r => (ir_date r, news_count r, Qred (avg_sentiment r))) (rows (news_intensity db_news3)))
  = Ok [(0%Z, 2, 7#1); (1%Z, 1, 3#1)].
Proof.
  intros db. split; [apply call_analytics_raises|]. split; [apply call_analytics_raises|].
  rewrite call_analytics_fixed_runs. vm_compute. reflexivity.
Qed.

(** C7 (code bug): on each empty input (an empty ticker list, a ticker without
    price rows, an empty news table, an empty returns frame, returns without
    linked news) the four functions raise SyntaxError, since analytics.py does
    not import; with the slip removed each returns an empty frame with its
    fixed columns. *)
Theorem analytics_empty_inputs_raise : forall fsqrt pearson window w,
  call_analytics (fun _ => compute_daily_returns db_rets []) = Raise SyntaxError /\
  call_analytics (fun _ => compute_daily_returns db_rets ["MATX"%string]) = Raise SyntaxError /\
  call_analytics (fun _ => news_intensity db_empty) = Raise SyntaxError /\
  call_analytics (fun _ => rolling_corr pearson (empty_frame ret_columns) w) = Raise SyntaxError /\
  call_analytics (fun _ => event_study fsqrt db_empty "ZIM"%string window) = Raise SyntaxError /\
  call_analytics (fun _ => event_study fsqrt db_rets "ZIM"%string window) = Raise SyntaxError /\
  call_analytics_fixed (fun _ => compute_daily_returns db_rets []) = Ok (empty_frame ret_columns) /\
  call_analytics_fixed (fun _ => compute_daily_returns db_rets ["MATX"%string])
    = Ok (empty_frame ret_columns) /\
  call_analytics_fixed (fun _ => news_intensity db_empty) = Ok (empty_frame intensity_columns) /\
  call_analytics_fixed (fun _ => rolling_corr pearson (empty_frame ret_columns) w)
    = Ok (Ok (empty_frame corr_columns)) /\
  call_analytics_fixed (fun _ => event_study fsqrt db_empty "ZIM"%string window)
    = Ok (empty_frame event_columns) /\
  call_analytics_fixed (fun _ => event_study fsqrt db_rets "ZIM"%string window)
    = Ok (empty_frame event_columns).
Proof.
  intros fsqrt pearson window w.
  repeat split; try apply call_analytics_raises;
    rewrite call_analytics_fixed_runs; reflexivity.
Qed.

End AnalyticsImport.

Module IndicesFacts.
Import Indices.
Local Open Scope nat_scope.

Lemma max_fold_ge : forall l x, In x l -> x <= fold_right Nat.max 0 l.
Proof.
  induction l as [|y l IH]; intros x Hx; [destruct Hx|].
  destruct Hx as [<-|Hx]; simpl; [lia|]. specialize (IH x Hx). lia.
Qed.

Lemma next_id_fresh : forall l x, In x l -> x <> next_id l.
Proof. intros l x Hx. pose proof (max_fold_ge l x Hx). unfold next_id. lia. Qed.

Lemma filter_nil_of_existsb {A} (f : A -> bool) l : existsb f l = false -> filter f l = [].
Proof.
  induction l as [|x l IH]; simpl; [reflexivity|].
  destruct (f x); simpl; [discriminate|exact IH].
Qed.

Lemma valid_rows_In : forall to_datetime to_numeric rows d c v,
  In (d, c, v) (valid_rows to_datetime to_numeric rows) <->
  exists r ds vs src, In r rows /\ c_date r = Some ds /\ c_index_code r = Some c /\
    c_value r = Some vs /\ c_source r = Some src /\
    to_datetime ds = Some d /\ to_numeric vs = Some v.
Proof.
  intros to_datetime to_numeric rows d c v. unfold valid_rows. rewrite in_flat_map. split.
  - intros [r [Hr Hin]].
    destruct (c_date r) as [ds|] eqn:E1; [|destruct Hin].
    destruct (c_index_code r) as [c'|] eqn:E2; [|destruct Hin].
    destruct (c_value r) as [vs|] eqn:E3; [|destruct Hin].
    destruct (c_source r) as [src|] eqn:E4; [|destruct Hin].
    destruct (to_datetime ds) as [d'|] eqn:E5; [|destruct Hin].
    destruct (to_numeric vs) as [v'|] eqn:E6; [|destruct Hin].
    destruct Hin as [Heq|[]]. injection Heq as <- <- <-.
    exists r, ds, vs, src. repeat split; assumption.
  - intros (r & ds & vs & src & Hr & E1 & E2 & E3 & E4 & E5 & E6).
    exists r. split; [exact Hr|]. rewrite E1, E2, E3, E4, E5, E6. left. reflexivity.
Qed.

Lemma valid_rows_one : forall to_datetime to_numeric r ds c vs src d v,
  c_date r = Some ds -> c_index_code r = Some c -> c_value r = Some vs -> c_source r = Some src ->
  to_datetime ds = Some d -> to_numeric vs = Some v ->
  valid_rows to_datetime to_numeric [r] = [(d, c, v)].
Proof.
  intros to_datetime to_numeric r ds c vs src d v E1 E2 E3 E4 E5 E6.
  unfold valid_rows. simpl. rewrite E1, E2, E3, E4, E5, E6. reflexivity.
Qed.

Lemma import_one : forall to_datetime to_numeric db r ds c vs src d v,
  c_date r = Some ds -> c_index_code r = Some c -> c_value r = Some vs -> c_source r = Some src ->
  to_datetime ds = Some d -> to_numeric vs = Some v ->
  import_indices_from_csv to_datetime to_numeric (Some (csv_one r)) db = upsert_point db (d, c, v).
Proof.
  intros to_datetime to_numeric db r ds c vs src d v E1 E2 E3 E4 E5 E6.
  unfold import_indices_from_csv. cbn -[valid_rows upsert_point].
  rewrite (valid_rows_one to_datetime to_numeric r ds c vs src d v E1 E2 E3 E4 E5 E6).
  cbn -[upsert_point]. destruct (upsert_point db (d, c, v)); reflexivity.
Qed.

(** C8 (amended). A missing file leaves the database as it is and raises
    nothing; the rows upserted are exactly those with all four cells present
    and a date and a value that parse; one valid row with a code that has no
    Index adds one Index and one IndexPoint with the parsed date and value;
    with a code that has an Index it adds no Index, and adds one IndexPoint,
    or updates the value of the point already at that date. *)
Theorem import_indices_from_csv_spec : forall to_datetime to_numeric,
  (forall db, import_indices_from_csv to_datetime to_numeric None db = Some db) /\
  (forall rows d c v,
     In (d, c, v) (valid_rows to_datetime to_numeric rows) <->
     exists r ds vs src, In r rows /\ c_date r = Some ds /\ c_index_code r = Some c /\
       c_value r = Some vs /\ c_source r = Some src /\
       to_datetime ds = Some d /\ to_numeric vs = Some v) /\
  (forall db r ds c vs src d v,
     c_date r = Some ds -> c_index_code r = Some c -> c_value r = Some vs -> c_source r = Some src ->
     to_datetime ds = Some d -> to_numeric vs = Some v ->
     (existsb (fun i => String.eqb (code i) c) (db_indices db) = false ->
      Forall (fun p => In (point_index_id p) (map index_id (db_indices db))) (db_points db) ->
      import_indices_from_csv to_datetime to_numeric (Some (csv_one r)) db =
        Some {| db_indices := List.app (db_indices db)
                  [{| index_id := next_id (map index_id (db_indices db)); code := c |}];
                db_points := List.app (db_points db)
                  [{| point_id := next_id (map point_id (db_points db));
                      point_index_id := next_id (map index_id (db_indices db));
                      point_date := d; value := v |}] |}) /\
     (forall i, filter (fun i => String.eqb (code i) c) (db_indices db) = [i] ->
      filter (fun p => Nat.eqb (point_index_id p) (index_id i) && Z.eqb (point_date p) d)
             (db_points db) = [] ->
      import_indices_from_csv to_datetime to_numeric (Some (csv_one r)) db =
        Some {| db_indices := db_indices db;
                db_points := List.app (db_points db)
                  [{| point_id := next_id (map point_id (db_points db));
                      point_index_id := index_id i; point_date := d; value := v |}] |}) /\
     (forall i p, filter (fun i => String.eqb (code i) c) (db_indices db) = [i] ->
      filter (fun p => Nat.eqb (point_index_id p) (index_id i) && Z.eqb (point_date p) d)
             (db_points db) = [p] ->
      import_indices_from_csv to_datetime to_numeric (Some (csv_one r)) db =
        Some {| db_indices := db_indices db; db_points := set_value (point_id p) v (db_points db) |})).
Proof.
  intros to_datetime to_numeric. split; [reflexivity|]. split; [apply valid_rows_In|].
  intros db r ds c vs src d v E1 E2 E3 E4 E5 E6.
  rewrite (import_one to_datetime to_numeric db r ds c vs src d v E1 E2 E3 E4 E5 E6).
  split; [|split].
  - intros Hfresh Hwf. unfold upsert_point, get_index.
    rewrite (filter_nil_of_existsb _ _ Hfresh). cbn -[next_id].
    rewrite filter_nil_of_existsb; [reflexivity|].
    clear -Hwf. induction Hwf as [|p ps Hp _ IH]; simpl; [reflexivity|].
    rewrite IH, orb_false_r.
    destruct (Nat.eqb (point_index_id p) (next_id (map index_id (db_indices db)))) eqn:E;
      [|reflexivity].
    apply Nat.eqb_eq in E. exfalso. exact (next_id_fresh _ _ Hp E).
  - intros i Hi Hp. unfold upsert_point, get_index. rewrite Hi. simpl. rewrite Hp. reflexivity.
  - intros i p Hi Hp. unfold upsert_point, get_index. rewrite Hi. simpl. rewrite Hp. reflexivity.
Qed.

Lemma import_indices_from_csv_spec_witness :
  import_indices_from_csv sample_date sample_number (Some (csv_one scfi_row))
    {| db_indices := []; db_points := [] |} =
  Some {| db_indices := [{| index_id := 1; code := "SCFI"%string |}];
          db_points := [{| point_id := 1; point_index_id := 1;
                           point_date := 1704412800%Z; value := 12345#10 |}] |}.
Proof.
  exact (proj1 (proj2 (proj2 (import_indices_from_csv_spec sample_date sample_number))
           {| db_indices := []; db_points := [] |} scfi_row "2024-01-05"%string "SCFI"%string
           "1234.5"%string "manual"%string 1704412800%Z (12345#10)
           eq_refl eq_refl eq_refl eq_refl eq_refl eq_refl)
           eq_refl (Forall_nil _)).
Defined.

(** C8: SCFI already has an Index row; importing one valid SCFI row adds an
    IndexPoint and no Index row, so the import of a single valid row does not
    always insert one Index row. *)
Lemma import_indices_existing_code :
  import_indices_from_csv sample_date sample_number (Some (csv_one scfi_row)) idb_scfi =
  Some {| db_indices := db_indices idb_scfi;
          db_points := [{| point_id := 1; point_index_id := 1;
                           point_date := 1704412800%Z; value := 12345#10 |}] |}.
Proof. vm_compute. reflexivity. Qed.

End IndicesFacts.

Module StoreFacts.
Import Indices Store.
Local Open Scope nat_scope.

Lemma NoDup_snoc {A} (l : list A) x : NoDup l -> ~ In x l -> NoDup (List.app l [x]).
Proof.
  induction l as [|y l IH]; simpl; intros Hn Hx.
  - constructor; [intros []|constructor].
  - inversion Hn as [|? ? Hy Hl]; subst. constructor.
    + rewrite in_app_iff. intros [H|[H|[]]]; [contradiction|]. apply Hx. left. symmetry. exact H.
    + apply IH; [exact Hl|]. intros H. apply Hx. right. exact H.
Qed.

(** Under a unique key, a query by that key finds at most one row. *)
Lemma filter_key_le1 {A K} (f : A -> K) (P : A -> bool) :
  (forall x y, P x = true -> P y = true -> f x = f y) ->
  forall l, NoDup (map f l) -> List.length (filter P l) <= 1.
Proof.
  intros HP l. induction l as [|x l IH]; simpl; intros Hn; [lia|].
  inversion Hn as [|? ? Hx Hl]; subst.
  destruct (P x) eqn:Px; simpl; [|apply IH, Hl].
  destruct (filter P l) as [|y m] eqn:Hf; simpl; [lia|].
  exfalso. apply Hx. assert (Hy : In y (filter P l)) by (rewrite Hf; left; reflexivity).
  apply filter_In in Hy. destruct Hy as [Hy Py].
  rewrite (HP x y Px Py). apply in_map. exact Hy.
Qed.

Lemma scalar_le1 {A} (l : list A) :
  List.length l <= 1 ->
  (l = [] /\ scalar_one_or_none l = NoRow) \/ exists a, l = [a] /\ scalar_one_or_none l = OneRow a.
Proof.
  destruct l as [|a [|b l]]; simpl; intros H; [left; split; reflexivity|right; eauto|lia].
Qed.

Lemma not_in_map_of_filter_nil {A K} (f : A -> K) (P : A -> bool) k l :
  (forall x, f x = k -> P x = true) -> filter P l = [] -> ~ In k (map f l).
Proof.
  intros HP Hf Hin. apply in_map_iff in Hin. destruct Hin as [x [Hx Hl]].
  assert (Hx' : In x (filter P l)) by (apply filter_In; split; [exact Hl|apply HP, Hx]).
  rewrite Hf in Hx'. destruct Hx'.
Qed.

(** *** prices *)

Lemma get_asset_ok : forall assets t,
  NoDup (map ticker assets) ->
  exists assets' aid, get_asset assets t = Some (assets', aid) /\ NoDup (map ticker assets').
Proof.
  intros assets t Hn. unfold get_asset.
  assert (Hle : List.length (filter (fun a => String.eqb (ticker a) t) assets) <= 1).
  { apply (filter_key_le1 ticker); [|exact Hn].
    intros x y Hx Hy. apply String.eqb_eq in Hx, Hy. congruence. }
  destruct (scalar_le1 _ Hle) as [[Hf Hs]|[a [Ha Hs]]]; rewrite Hs.
  - do 2 eexists. split; [reflexivity|]. rewrite map_app. apply NoDup_snoc; [exact Hn|].
    apply (not_in_map_of_filter_nil ticker (fun a => String.eqb (ticker a) t)); [|exact Hf].
    intros x Hx. rewrite Hx. apply String.eqb_refl.
  - do 2 eexists. split; [reflexivity|exact Hn].
Qed.

Lemma insert_price_keys : forall aid d b ps,
  map price_key (insert_price aid d b ps) =
  if existsb (same_price aid d) ps then map price_key ps
  else List.app (map price_key ps) [(aid, d)].
Proof.
  intros aid d b ps. unfold insert_price.
  destruct (existsb (same_price aid d) ps); [|rewrite map_app; reflexivity].
  rewrite map_map. apply map_ext. intros p. destruct (same_price aid d p); reflexivity.
Qed.

Lemma insert_price_nodup : forall aid d b ps,
  NoDup (map price_key ps) -> NoDup (map price_key (insert_price aid d b ps)).
Proof.
  intros aid d b ps Hn. rewrite insert_price_keys.
  destruct (existsb (same_price aid d) ps) eqn:E; [exact Hn|].
  apply NoDup_snoc; [exact Hn|].
  apply (not_in_map_of_filter_nil price_key (same_price aid d)).
  - intros p Hp. unfold price_key in Hp. injection Hp as H1 H2. unfold same_price. rewrite H1, H2.
    rewrite Nat.eqb_refl, Z.eqb_refl. reflexivity.
  - apply LinkerFacts.filter_all_false. intros p Hp.
    destruct (same_price aid d p) eqn:Ep; [|reflexivity].
    exfalso. assert (existsb (same_price aid d) ps = true) by (apply existsb_exists; eauto).
    congruence.
Qed.

Lemma upsert_group_ok : forall st t group,
  NoDup (map ticker (fst st)) -> NoDup (map price_key (snd st)) ->
  exists st', upsert_group st t group = Some st' /\
    NoDup (map ticker (fst st')) /\ NoDup (map price_key (snd st')).
Proof.
  intros [assets ps] t group Ha Hp. unfold upsert_group. simpl in *.
  destruct (get_asset_ok assets t Ha) as [assets' [aid [-> Ha']]].
  eexists. split; [reflexivity|]. split; [exact Ha'|]. simpl.
  revert ps Hp. induction group as [|r group IH]; intros ps Hp; simpl; [exact Hp|].
  apply IH. apply insert_price_nodup. exact Hp.
Qed.

Lemma upsert_prices_ok : forall df st,
  NoDup (map ticker (fst st)) -> NoDup (map price_key (snd st)) ->
  exists st', upsert_prices df st = Some st' /\
    NoDup (map ticker (fst st')) /\ NoDup (map price_key (snd st')).
Proof.
  intros df st. unfold upsert_prices.
  generalize (Analytics.pivot_columns (map pi_ticker df)) as ts.
  intros ts. revert st. induction ts as [|t ts IH]; intros st Ha Hp; simpl; [eauto|].
  destruct (upsert_group_ok st t (filter (fun r => String.eqb (pi_ticker r) t) df) Ha Hp)
    as [st' [-> [Ha' Hp']]].
  apply IH; assumption.
Qed.

(** *** index points *)

Lemma get_index_ok : forall db c,
  NoDup (map code (db_indices db)) ->
  exists db1 iid, get_index db c = Some (db1, iid) /\
    NoDup (map code (db_indices db1)) /\ db_points db1 = db_points db.
Proof.
  intros db c Hn. unfold get_index.
  assert (Hle : List.length (filter (fun i => String.eqb (code i) c) (db_indices db)) <= 1).
  { apply (filter_key_le1 code); [|exact Hn].
    intros x y Hx Hy. apply String.eqb_eq in Hx, Hy. congruence. }
  destruct (scalar_le1 _ Hle) as [[Hf Hs]|[i [Hi Hs]]]; rewrite Hs.
  - do 2 eexists. split; [reflexivity|]. split; [|reflexivity]. simpl.
    rewrite map_app. apply NoDup_snoc; [exact Hn|].
    apply (not_in_map_of_filter_nil code (fun i => String.eqb (code i) c)); [|exact Hf].
    intros x Hx. rewrite Hx. apply String.eqb_refl.
  - do 2 eexists. split; [reflexivity|]. split; [exact Hn|reflexivity].
Qed.

Lemma set_value_keys : forall pid v ps, map point_key (set_value pid v ps) = map point_key ps.
Proof.
  intros pid v ps. unfold set_value. rewrite map_map. apply map_ext.
  intros p. destruct (Nat.eqb (point_id p) pid); reflexivity.
Qed.

Lemma upsert_point_ok : forall db row,
  NoDup (map code (db_indices db)) -> NoDup (map point_key (db_points db)) ->
  exists db', upsert_point db row = Some db' /\
    NoDup (map code (db_indices db')) /\ NoDup (map point_key (db_points db')).
Proof.
  intros db [[d c] v] Hc Hk. unfold upsert_point.
  destruct (get_index_ok db c Hc) as [db1 [iid [-> [Hc1 Hp1]]]].
  cbv beta iota. rewrite <- Hp1 in Hk.
  set (P := fun p => Nat.eqb (point_index_id p) iid && Z.eqb (point_date p) d).
  assert (HP : forall p, P p = true -> point_key p = (iid, d)).
  { intros p Hp. unfold P in Hp. apply andb_true_iff in Hp. destruct Hp as [H1 H2].
    apply Nat.eqb_eq in H1. apply Z.eqb_eq in H2. unfold point_key. rewrite H1, H2. reflexivity. }
  assert (Hle : List.length (filter P (db_points db1)) <= 1).
  { apply (filter_key_le1 point_key); [|exact Hk].
    intros x y Hx Hy. rewrite (HP x Hx), (HP y Hy). reflexivity. }
  destruct (scalar_le1 _ Hle) as [[Hf Hs]|[p [Hp Hs]]]; rewrite Hs.
  - eexists. split; [reflexivity|]. split; [exact Hc1|]. simpl.
    rewrite map_app. apply NoDup_snoc; [exact Hk|].
    apply (not_in_map_of_filter_nil point_key P); [|exact Hf].
    intros x Hx. unfold P. unfold point_key in Hx. injection Hx as H1 H2.
    rewrite H1, H2, Nat.eqb_refl, Z.eqb_refl. reflexivity.
  - eexists. split; [reflexivity|]. split; [exact Hc1|]. simpl.
    rewrite set_value_keys. exact Hk.
Qed.

Lemma upsert_df_ok : forall rows db,
  NoDup (map code (db_indices db)) -> NoDup (map point_key (db_points db)) ->
  exists db', _upsert_df rows db = Some db' /\
    NoDup (map code (db_indices db')) /\ NoDup (map point_key (db_points db')).
Proof.
  induction rows as [|r rows IH]; intros db Hc Hk; simpl; [eauto|].
  destruct (upsert_point_ok db r Hc Hk) as [db' [-> [Hc' Hk']]].
  apply IH; assumption.
Qed.

(** *** news *)

Lemma insert_news_urls : forall r ns,
  map url (insert_news r ns) =
  if existsb (fun n => String.eqb (url n) (n_url r)) ns then map url ns
  else List.app (map url ns) [n_url r].
Proof.
  intros r ns. unfold insert_news.
  destruct (existsb (fun n => String.eqb (url n) (n_url r)) ns); [|rewrite map_app; reflexivity].
  rewrite map_map. apply map_ext. intros n.
  destruct (String.eqb (url n) (n_url r)); reflexivity.
Qed.

Lemma insert_news_nodup : forall r ns, NoDup (map url ns) -> NoDup (map url (insert_news r ns)).
Proof.
  intros r ns Hn. rewrite insert_news_urls.
  destruct (existsb (fun n => String.eqb (url n) (n_url r)) ns) eqn:E; [exact Hn|].
  apply NoDup_snoc; [exact Hn|].
  apply (not_in_map_of_filter_nil url (fun n => String.eqb (url n) (n_url r))).
  - intros n Hu. rewrite Hu. apply String.eqb_refl.
  - apply IndicesFacts.filter_nil_of_existsb. exact E.
Qed.

Lemma upsert_news_nodup : forall df ns, NoDup (map url ns) -> NoDup (map url (snd (upsert_news df ns))).
Proof.
  intros df ns Hn. unfold upsert_news. destruct df as [|r0 df]; [exact Hn|]. simpl.
  generalize (insert_news_nodup r0 ns Hn). generalize (insert_news r0 ns).
  induction df as [|r df IH]; intros l Hl; simpl; [exact Hl|].
  apply IH. apply insert_news_nodup. exact Hl.
Qed.

(** *** sequences of upserts *)

Lemma step_ok : forall st o, schema_ok st -> keys_unique st ->
  exists st', step st o = Some st' /\ schema_ok st' /\ keys_unique st'.
Proof.
  intros st o [Ht Hc] [Hp [Hk Hu]]. destruct o as [df|df|df]; simpl.
  - destruct (upsert_prices_ok df (st_assets st, st_prices st) Ht Hp) as [[a p] [-> [Ht' Hp']]].
    eexists. split; [reflexivity|]. split; split; simpl; auto.
  - destruct (upsert_df_ok df (st_idx st) Hc Hk) as [i [-> [Hc' Hk']]].
    eexists. split; [reflexivity|]. split; split; simpl; auto.
  - eexists. split; [reflexivity|]. split; split; simpl; auto.
    split; [exact Hk|]. apply upsert_news_nodup. exact Hu.
Qed.

Lemma run_ops_ok : forall ops st, schema_ok st -> keys_unique st ->
  exists st', run_ops ops st = Some st' /\ schema_ok st' /\ keys_unique st'.
Proof.
  induction ops as [|o ops IH]; intros st Hs Hk; simpl; [eauto|].
  destruct (step_ok st o Hs Hk) as [st' [-> [Hs' Hk']]]. apply IH; assumption.
Qed.

(** *** re-insertion of a key *)

Lemma insert_price_update : forall aid d b ps,
  existsb (same_price aid d) ps = true ->
  List.length (insert_price aid d b ps) = List.length ps /\
  Forall (fun p => bar p = b) (filter (same_price aid d) (insert_price aid d b ps)).
Proof.
  intros aid d b ps E. unfold insert_price. rewrite E. split; [apply length_map|].
  apply Forall_forall. intros q Hq. apply filter_In in Hq. destruct Hq as [Hq Hs].
  apply in_map_iff in Hq. destruct Hq as [p [<- Hp]].
  destruct (same_price aid d p) eqn:Ep; [reflexivity|]. rewrite Ep in Hs. congruence.
Qed.

Lemma insert_news_update : forall r ns,
  existsb (fun n => String.eqb (url n) (n_url r)) ns = true ->
  List.length (insert_news r ns) = List.length ns /\
  Forall (fun n => title n = n_title r)
    (filter (fun n => String.eqb (url n) (n_url r)) (insert_news r ns)).
Proof.
  intros r ns E. unfold insert_news. rewrite E. split; [apply length_map|].
  apply Forall_forall. intros q Hq. apply filter_In in Hq. destruct Hq as [Hq Hs].
  apply in_map_iff in Hq. destruct Hq as [n [<- Hn]].
  destruct (String.eqb (url n) (n_url r)) eqn:En; [reflexivity|]. rewrite En in Hs. congruence.
Qed.

Lemma upsert_point_update : forall db d c v i p,
  filter (fun i => String.eqb (code i) c) (db_indices db) = [i] ->
  filter (fun p => Nat.eqb (point_index_id p) (index_id i) && Z.eqb (point_date p) d)
         (db_points db) = [p] ->
  exists db', upsert_point db (d, c, v) = Some db' /\
    db_indices db' = db_indices db /\
    List.length (db_points db') = List.length (db_points db) /\
    Forall (fun q => value q = v) (filter (fun q => Nat.eqb (point_id q) (point_id p)) (db_points db')).
Proof.
  intros db d c v i p Hi Hp. unfold upsert_point, get_index. rewrite Hi. simpl. rewrite Hp.
  eexists. split; [reflexivity|]. simpl. split; [reflexivity|]. split.
  - unfold set_value. apply length_map.
  - apply Forall_forall. intros q Hq. apply filter_In in Hq. destruct Hq as [Hq Hs].
    unfold set_value in Hq. apply in_map_iff in Hq. destruct Hq as [q' [<- Hq']].
    destruct (Nat.eqb (point_id q') (point_id p)) eqn:E; [reflexivity|]. rewrite E in Hs. congruence.
Qed.

(** C9. From a state where tickers and index codes are unique (the schema's
    unique constraints) and the natural keys are unique, any sequence of price,
    index-point and news upserts runs without error and leaves at most one
    Price per (asset, date), one IndexPoint per (index, date) and one News per
    url; upserting a key already present keeps the number of rows and writes
    the new values into the existing row. *)
Theorem upserts_keep_keys_unique :
  (forall ops st, schema_ok st -> keys_unique st ->
     exists st', run_ops ops st = Some st' /\ schema_ok st' /\ keys_unique st') /\
  (forall aid d b ps, existsb (same_price aid d) ps = true ->
     List.length (insert_price aid d b ps) = List.length ps /\
     Forall (fun p => bar p = b) (filter (same_price aid d) (insert_price aid d b ps))) /\
  (forall db d c v i p,
     filter (fun i => String.eqb (code i) c) (db_indices db) = [i] ->
     filter (fun p => Nat.eqb (point_index_id p) (index_id i) && Z.eqb (point_date p) d)
            (db_points db) = [p] ->
     exists db', upsert_point db (d, c, v) = Some db' /\
       db_indices db' = db_indices db /\
       List.length (db_points db') = List.length (db_points db) /\
       Forall (fun q => value q = v) (filter (fun q => Nat.eqb (point_id q) (point_id p)) (db_points db'))) /\
  (forall r ns, existsb (fun n => String.eqb (url n) (n_url r)) ns = true ->
     List.length (insert_news r ns) = List.length ns /\
     Forall (fun n => title n = n_title r)
       (filter (fun n => String.eqb (url n) (n_url r)) (insert_news r ns))).
Proof.
  split; [exact run_ops_ok|]. split; [exact insert_price_update|].
  split; [exact upsert_point_update|exact insert_news_update].
Qed.

Lemma upserts_keep_keys_unique_witness :
  exists st', run_ops ops0 st0 = Some st' /\ schema_ok st' /\ keys_unique st' /\
    List.length (st_prices st') = 1 /\ List.length (db_points (st_idx st')) = 1 /\
    List.length (st_news st') = 1.
Proof.
  destruct (proj1 upserts_keep_keys_unique ops0 st0
              (conj (NoDup_nil _) (NoDup_nil _))
              (conj (NoDup_nil _) (conj (NoDup_nil _) (NoDup_nil _))))
    as [st' [Hrun [Hs Hk]]].
  exists st'. split; [exact Hrun|]. split; [exact Hs|]. split; [exact Hk|].
  vm_compute in Hrun. injection Hrun as <-. repeat split.
Defined.

End StoreFacts.

(* ------------------------------------------------------------------------- *)
(** ** Further properties of the code *)

Module LabelFacts.
Import Analytics.
Local Open Scope nat_scope.

Definition slt (a b : string) : Prop := str_ltb a b = true.

Lemma str_ltb_flip : forall a b, str_ltb a b = false -> a <> b -> str_ltb b a = true.
Proof.
  intros a b. unfold str_ltb.
  destruct (OrdersEx.String_as_OT.compare_spec a b) as [E|H|H].
  - intros _ Hn. exfalso. apply Hn. exact E.
  - discriminate.
  - unfold OrdersEx.String_as_OT.lt in H. rewrite H. reflexivity.
Qed.

Lemma slt_trans' : forall a b c, slt a b -> slt b c -> slt a c.
Proof.
  unfold slt, str_ltb. intros a b c H1 H2.
  destruct (OrdersEx.String_as_OT.compare a b) eqn:E1; try discriminate.
  destruct (OrdersEx.String_as_OT.compare b c) eqn:E2; try discriminate.
  assert (H : OrdersEx.String_as_OT.lt a c).
  { eapply (@transitivity _ OrdersEx.String_as_OT.lt _); [exact E1|exact E2]. }
  unfold OrdersEx.String_as_OT.lt in H. rewrite H. reflexivity.
Qed.

Lemma slt_irrefl' : forall a, ~ slt a a.
Proof.
  unfold slt, str_ltb. intros a H.
  destruct (OrdersEx.String_as_OT.compare a a) eqn:E; try discriminate.
  exact (@irreflexivity _ OrdersEx.String_as_OT.lt _ a E).
Qed.

Lemma insert_label_In : forall k ks x, In x (insert_label k ks) <-> k = x \/ In x ks.
Proof.
  intros k ks x. induction ks as [|a ks IH]; simpl; [tauto|].
  destruct (str_ltb k a); [simpl; tauto|].
  destruct (String.eqb k a) eqn:E.
  - apply String.eqb_eq in E. subst a. simpl. tauto.
  - simpl. rewrite IH. tauto.
Qed.

Lemma pivot_In : forall l x, In x (pivot_columns l) <-> In x l.
Proof.
  induction l as [|a l IH]; intros x; simpl; [tauto|].
  change (In x (insert_label a (pivot_columns l)) <-> a = x \/ In x l).
  rewrite insert_label_In, IH. reflexivity.
Qed.

Lemma insert_label_sorted : forall k ks,
  StronglySorted slt ks -> StronglySorted slt (insert_label k ks).
Proof.
  intros k ks. induction ks as [|a ks IH]; intros H; simpl.
  - constructor; constructor.
  - inversion H as [|? ? Hs Hf]; subst.
    destruct (str_ltb k a) eqn:E1.
    + constructor; [exact H|]. constructor; [exact E1|].
      eapply Forall_impl; [|exact Hf]. intros y Hy. eapply slt_trans'; [exact E1|exact Hy].
    + destruct (String.eqb k a) eqn:E2; [exact H|].
      constructor; [apply IH, Hs|]. apply Forall_forall. intros y Hy.
      apply insert_label_In in Hy. destruct Hy as [<-|Hy].
      * apply str_ltb_flip; [exact E1|]. intros Ek. subst. rewrite String.eqb_refl in E2. discriminate.
      * rewrite Forall_forall in Hf. apply Hf, Hy.
Qed.

Lemma pivot_sorted : forall l, StronglySorted slt (pivot_columns l).
Proof.
  induction l as [|a l IH]; simpl; [constructor|].
  apply insert_label_sorted, IH.
Qed.

Lemma sorted_nodup : forall l, StronglySorted slt l -> NoDup l.
Proof.
  induction l as [|a l IH]; intros H; [constructor|].
  inversion H as [|? ? Hs Hf]; subst. constructor; [|apply IH, Hs].
  intros Ha. rewrite Forall_forall in Hf. exact (slt_irrefl' a (Hf a Ha)).
Qed.

Lemma pivot_nodup : forall l, NoDup (pivot_columns l).
Proof. intros l. apply sorted_nodup, pivot_sorted. Qed.

(** The number of distinct labels: the head, and the rest without it. *)
Lemma pivot_length_cons : forall u m,
  List.length (pivot_columns (u :: m))
  = S (List.length (pivot_columns (filter (fun x => negb (String.eqb x u)) m))).
Proof.
  intros u m.
  assert (P : Permutation (pivot_columns (u :: m))
                          (u :: pivot_columns (filter (fun x => negb (String.eqb x u)) m))).
  { apply NoDup_Permutation.
    - apply pivot_nodup.
    - constructor; [|apply pivot_nodup].
      rewrite pivot_In. intros Hu. apply filter_In in Hu. destruct Hu as [_ Hu].
      rewrite String.eqb_refl in Hu. discriminate.
    - intros x. rewrite pivot_In. simpl. rewrite pivot_In, filter_In.
      destruct (String.eqb x u) eqn:E.
      + apply String.eqb_eq in E. subst. tauto.
      + apply String.eqb_neq in E. simpl. intuition. }
  apply Permutation_length in P. exact P.
Qed.

Lemma existsb_pivot : forall l t, existsb (String.eqb t) (pivot_columns l) = true <-> In t l.
Proof.
  intros l t. rewrite existsb_exists. split.
  - intros [x [Hx E]]. apply String.eqb_eq in E. subst. apply pivot_In, Hx.
  - intros H. exists t. split; [apply pivot_In, H|apply String.eqb_refl].
Qed.

End LabelFacts.

Module NewsFacts.
Import Indices Store Queries.
Local Open Scope nat_scope.

Lemma existsb_url : forall ns u,
  existsb (fun n => String.eqb (url n) u) ns = existsb (fun x => String.eqb x u) (map url ns).
Proof. induction ns as [|n ns IH]; intros u; simpl; [reflexivity|]. rewrite IH. reflexivity. Qed.

Lemma upsert_news_snd : forall df ns,
  snd (upsert_news df ns) = fold_left (fun acc r => insert_news r acc) df ns.
Proof. intros [|r df] ns; reflexivity. Qed.

Lemma fold_insert_news_length : forall df ns,
  List.length (fold_left (fun acc r => insert_news r acc) df ns)
  = List.length ns + List.length (Analytics.pivot_columns
      (filter (fun u => negb (existsb (fun n => String.eqb (url n) u) ns)) (map n_url df))).
Proof.
  induction df as [|r df IH]; intros ns; simpl; [lia|].
  rewrite IH. rewrite (existsb_url ns (n_url r)).
  destruct (existsb (fun x => String.eqb x (n_url r)) (map url ns)) eqn:E; simpl.
  - assert (Hu : map url (insert_news r ns) = map url ns).
    { rewrite StoreFacts.insert_news_urls, existsb_url, E. reflexivity. }
    assert (Hl : List.length (insert_news r ns) = List.length ns).
    { unfold insert_news. rewrite existsb_url, E. apply length_map. }
    rewrite Hl. f_equal. f_equal. f_equal. apply filter_ext. intros u.
    rewrite !existsb_url, Hu. reflexivity.
  - assert (Hu : map url (insert_news r ns) = List.app (map url ns) [n_url r]).
    { rewrite StoreFacts.insert_news_urls, existsb_url, E. reflexivity. }
    assert (Hl : List.length (insert_news r ns) = S (List.length ns)).
    { unfold insert_news. rewrite existsb_url, E, length_app. simpl. lia. }
    rewrite Hl.
    change (Analytics.insert_label (n_url r) (Analytics.pivot_columns ?m))
      with (Analytics.pivot_columns (n_url r :: m)).
    rewrite LabelFacts.pivot_length_cons. rewrite LinkerFacts.filter_filter_and.
    assert (Hf : filter (fun u => negb (existsb (fun n => String.eqb (url n) u) (insert_news r ns)))
                        (map n_url df)
                 = filter (fun x => negb (existsb (fun n => String.eqb (url n) x) ns) &&
                                    negb (String.eqb x (n_url r))) (map n_url df)).
    { apply filter_ext. intros u. rewrite !existsb_url, Hu, existsb_app. simpl.
      rewrite orb_false_r, negb_orb, (String.eqb_sym u). reflexivity. }
    rewrite Hf. lia.
Qed.

(** The count [upsert_news] returns is the number of rows it adds. *)
Lemma upsert_news_count_aux : forall df ns,
  List.length (snd (upsert_news df ns)) = List.length ns + fst (upsert_news df ns).
Proof.
  intros [|r df] ns; [simpl; lia|].
  rewrite upsert_news_snd, fold_insert_news_length. reflexivity.
Qed.

Lemma news_at_le1 : forall ns u, NoDup (map url ns) ->
  news_at ns u = [] \/ exists o, news_at ns u = [o].
Proof.
  intros ns u Hn.
  assert (Hle : List.length (news_at ns u) <= 1).
  { apply (StoreFacts.filter_key_le1 url); [|exact Hn].
    intros x y Hx Hy. apply String.eqb_eq in Hx, Hy. congruence. }
  destruct (news_at ns u) as [|o [|o' l]]; simpl in Hle; [left; reflexivity|right; eauto|lia].
Qed.

Lemma news_at_insert : forall r ns u, NoDup (map url ns) ->
  (n_url r <> u -> news_at (insert_news r ns) u = news_at ns u) /\
  (n_url r = u -> exists n, news_at (insert_news r ns) u = [n] /\ writes r (news_at ns u) n).
Proof.
  intros r ns u Hn. unfold insert_news.
  destruct (existsb (fun n => String.eqb (url n) (n_url r)) ns) eqn:E.
  - set (f := fun n => if String.eqb (url n) (n_url r)
                       then {| news_id := news_id n; url := url n; title := n_title r;
                               summary := n_summary r; source := n_source r;
                               published_at := n_ts r; summary_ai := summary_ai n |}
                       else n).
    assert (Hm : news_at (map f ns) u = map f (news_at ns u)).
    { unfold news_at. rewrite AnalyticsFacts.filter_map_comm. f_equal.
      apply filter_ext. intros n. unfold f. destruct (String.eqb (url n) (n_url r)); reflexivity. }
    rewrite Hm. split.
    + intros Hne. rewrite <- (map_id (news_at ns u)) at 2. apply map_ext_in.
      intros n Hin. unfold news_at in Hin. apply filter_In in Hin. destruct Hin as [_ Hu].
      apply String.eqb_eq in Hu. unfold f. rewrite Hu.
      destruct (String.eqb u (n_url r)) eqn:Eu; [|reflexivity].
      apply String.eqb_eq in Eu. congruence.
    + intros <-. destruct (news_at_le1 ns (n_url r) Hn) as [H0|[o Ho]].
      * exfalso. apply existsb_exists in E. destruct E as [n [Hin Hu]].
        assert (Hin' : In n (news_at ns (n_url r))) by (apply filter_In; split; assumption).
        rewrite H0 in Hin'. destruct Hin'.
      * rewrite Ho. simpl. eexists. split; [reflexivity|].
        assert (Hou : url o = n_url r).
        { assert (Hin : In o (news_at ns (n_url r))) by (rewrite Ho; left; reflexivity).
          apply filter_In in Hin. apply String.eqb_eq, Hin. }
        unfold f. rewrite Hou, String.eqb_refl. unfold writes. simpl.
        repeat split; assumption.
  - assert (H0 : news_at ns (n_url r) = []).
    { apply IndicesFacts.filter_nil_of_existsb. exact E. }
    unfold news_at. rewrite filter_app. simpl. split.
    + intros Hne. destruct (String.eqb (n_url r) u) eqn:Eu.
      * apply String.eqb_eq in Eu. contradiction.
      * apply app_nil_r.
    + intros <-. rewrite String.eqb_refl. fold (news_at ns (n_url r)). rewrite H0. simpl.
      eexists. split; [reflexivity|]. unfold writes. simpl. repeat split.
Qed.

Lemma writes_chain : forall r r' old n1 n,
  writes r old n1 -> writes r' [n1] n -> writes r' old n.
Proof.
  intros r r' old n1 n H1 H2. unfold writes in *.
  destruct H2 as [U [T [S [O [P [I A]]]]]]. repeat split; try assumption.
  destruct H1 as [_ [_ [_ [_ [_ H1]]]]].
  destruct old as [|o [|o' l]];
    [congruence|destruct H1 as [H1a H1b]; split; congruence|congruence].
Qed.

(** Upserting a frame: per url, the row holds what the frame's last row of
    that url wrote; a url the frame lacks keeps its rows. *)
Lemma upsert_news_last_write_aux : forall df ns, NoDup (map url ns) -> forall u,
  match last_news df u with
  | Some r => exists n, news_at (snd (upsert_news df ns)) u = [n] /\ writes r (news_at ns u) n
  | None => news_at (snd (upsert_news df ns)) u = news_at ns u
  end.
Proof.
  intros df ns Hn u. rewrite upsert_news_snd. revert ns Hn.
  induction df as [|r df IH]; intros ns Hn; simpl; [reflexivity|].
  pose proof (StoreFacts.insert_news_nodup r ns Hn) as Hn1.
  specialize (IH (insert_news r ns) Hn1).
  destruct (news_at_insert r ns u Hn) as [Hne Heq].
  destruct (last_news df u) as [r'|] eqn:El.
  - destruct IH as [n [Hf Hw]]. exists n. split; [exact Hf|].
    destruct (String.eqb (n_url r) u) eqn:Eu.
    + apply String.eqb_eq in Eu. destruct (Heq Eu) as [n1 [H1 Hw1]].
      rewrite H1 in Hw. eapply writes_chain; eassumption.
    + apply String.eqb_neq in Eu. rewrite (Hne Eu) in Hw. exact Hw.
  - rewrite IH. destruct (String.eqb (n_url r) u) eqn:Eu.
    + apply String.eqb_eq in Eu. exact (Heq Eu).
    + apply String.eqb_neq in Eu. exact (Hne Eu).
Qed.

(** X3: the count [upsert_news] returns is the number of rows it adds to
    [news]. *)
Theorem upsert_news_count : forall df ns,
  List.length (snd (upsert_news df ns)) = List.length ns + fst (upsert_news df ns).
Proof. exact upsert_news_count_aux. Qed.

(** X4: with urls unique in [news], after [upsert_news] the row of a url the
    frame has holds what the frame's last row of that url wrote (an existing
    row keeps its id and [summary_ai]); the rows of other urls are unchanged. *)
Theorem upsert_news_last_write : forall df ns u,
  NoDup (map url ns) ->
  match last_news df u with
  | Some r => exists n, news_at (snd (upsert_news df ns)) u = [n] /\ writes r (news_at ns u) n
  | None => news_at (snd (upsert_news df ns)) u = news_at ns u
  end.
Proof. intros df ns u Hn. exact (upsert_news_last_write_aux df ns Hn u). Qed.

Local Open Scope string_scope.

Lemma upsert_news_last_write_witness :
  NoDup (map url [Samples.news_a]) /\
  match last_news [Samples.news_in "u1" "a"; Samples.news_in "u1" "b"] "u1" with
  | Some r => exists n, news_at (snd (upsert_news [Samples.news_in "u1" "a"; Samples.news_in "u1" "b"]
                                                 [Samples.news_a])) "u1" = [n] /\
                        writes r (news_at [Samples.news_a] "u1") n
  | None => news_at (snd (upsert_news [Samples.news_in "u1" "a"; Samples.news_in "u1" "b"]
                                      [Samples.news_a])) "u1" = news_at [Samples.news_a] "u1"
  end.
Proof.
  assert (Hn : NoDup (map url [Samples.news_a])) by (simpl; constructor; [simpl; tauto|constructor]).
  split; [exact Hn|].
  exact (upsert_news_last_write [Samples.news_in "u1" "a"; Samples.news_in "u1" "b"] _ "u1" Hn).
Defined.

End NewsFacts.

Module FeedsFacts.
Import Indices Store Queries Feeds.
Local Open Scope nat_scope.

Definition conv (r : Row) : NewsIn := row_in r (get_or "" (r_url r)).

Lemma rows_in_all : forall rows, Forall (fun r => r_url r <> None) rows ->
  rows_in rows = Some (map conv rows).
Proof.
  induction rows as [|r rows IH]; intros H; simpl; [reflexivity|].
  inversion H as [|? ? Hr Hrs]; subst. rewrite (IH Hrs).
  destruct (r_url r) as [u|] eqn:E; [|contradiction]. unfold conv. rewrite E. reflexivity.
Qed.

Lemma drop_duplicates_In : forall rows seen r, In r (drop_duplicates seen rows) -> In r rows.
Proof.
  induction rows as [|x rows IH]; intros seen r H; simpl in H; [exact H|].
  destruct (existsb (opt_eqb (r_url x)) seen).
  - right. eapply IH. exact H.
  - destruct H as [<-|H]; [left; reflexivity|right; eapply IH; exact H].
Qed.

Lemma opt_eqb_some : forall a b, opt_eqb (Some a) (Some b) = String.eqb a b.
Proof. reflexivity. Qed.

Lemma opt_eqb_sym : forall a b, opt_eqb a b = opt_eqb b a.
Proof. intros [a|] [b|]; simpl; try reflexivity. apply String.eqb_sym. Qed.

(** Dropping later duplicates, then letting the last row of a url win,
    leaves the first row of each url. *)
Lemma last_news_drop : forall rows seen u,
  Forall (fun r => r_url r <> None) rows ->
  last_news (map conv (drop_duplicates seen rows)) u
  = if existsb (opt_eqb (Some u)) seen then None else option_map conv (first_row rows u).
Proof.
  induction rows as [|r rows IH]; intros seen u H; simpl.
  - destruct (existsb (opt_eqb (Some u)) seen); reflexivity.
  - inversion H as [|? ? Hr Hrs]; subst.
    destruct (r_url r) as [ur|] eqn:Eu; [|contradiction].
    change (opt_eqb (Some ur) (Some u)) with (String.eqb ur u).
    destruct (existsb (opt_eqb (Some ur)) seen) eqn:Es.
    + rewrite (IH seen u Hrs).
      destruct (existsb (opt_eqb (Some u)) seen) eqn:Esu; [reflexivity|].
      destruct (String.eqb ur u) eqn:E; [|reflexivity].
      apply String.eqb_eq in E. subst. congruence.
    + simpl. rewrite (IH (Some ur :: seen) u Hrs). simpl.
      destruct (existsb (opt_eqb (Some u)) seen) eqn:Esu.
      * destruct (String.eqb u ur) eqn:E; simpl.
        -- apply String.eqb_eq in E. subst. congruence.
        -- unfold conv. simpl. rewrite Eu. simpl. rewrite String.eqb_sym, E. reflexivity.
      * destruct (String.eqb u ur) eqn:E; simpl.
        -- apply String.eqb_eq in E. subst. unfold conv. cbn. rewrite Eu. cbn.
           rewrite ?String.eqb_refl. cbn. rewrite ?Eu. reflexivity.
        -- rewrite Eu. simpl. rewrite (String.eqb_sym ur u), E.
           destruct (option_map conv (first_row rows u)); reflexivity.
Qed.

Lemma first_row_url : forall rows u r, first_row rows u = Some r -> r_url r = Some u.
Proof.
  induction rows as [|x rows IH]; intros u r H; simpl in H; [discriminate|].
  destruct (opt_eqb (r_url x) (Some u)) eqn:E.
  - injection H as <-. destruct (r_url x) as [v|]; [|discriminate].
    simpl in E. apply String.eqb_eq in E. subst. reflexivity.
  - eapply IH. exact H.
Qed.

Lemma rows_in_none : forall rows seen,
  Exists (fun r => r_url r = None) rows -> existsb (opt_eqb None) seen = false ->
  rows_in (drop_duplicates seen rows) = None.
Proof.
  induction rows as [|r rows IH]; intros seen H Hs; [inversion H|].
  simpl. destruct (r_url r) as [u|] eqn:Eu.
  - assert (H' : Exists (fun r => r_url r = None) rows).
    { inversion H as [? ? Hr|? ? Hr]; subst; [congruence|exact Hr]. }
    destruct (existsb (opt_eqb (Some u)) seen).
    + apply IH; assumption.
    + simpl. rewrite Eu. rewrite (IH (Some u :: seen) H'); [reflexivity|].
      simpl. exact Hs.
  - rewrite Hs. simpl. rewrite Eu. reflexivity.
Qed.

Lemma refresh_feeds_app : forall parse to_datetime f1 f2 t ns,
  refresh_feeds parse to_datetime (List.app f1 f2) t ns
  = match refresh_feeds parse to_datetime f1 t ns with
    | (Done t1, ns1) => refresh_feeds parse to_datetime f2 t1 ns1
    | (Failed e, ns1) => (Failed e, ns1)
    end.
Proof.
  intros parse to_datetime f1 f2. induction f1 as [|f f1 IH]; intros t ns; simpl; [reflexivity|].
  destruct (fetch_rss parse f) as [|i items]; [apply IH|].
  destruct (upsert_frame _ ns) as [[n ns']|e]; [apply IH|reflexivity].
Qed.

Lemma refresh_feeds_count : forall parse to_datetime feeds t ns t' ns',
  refresh_feeds parse to_datetime feeds t ns = (Done t', ns') ->
  List.length ns' + t = List.length ns + t'.
Proof.
  intros parse to_datetime feeds. induction feeds as [|f feeds IH]; intros t ns t' ns' H; simpl in H.
  - injection H as <- <-. reflexivity.
  - destruct (fetch_rss parse f) as [|i items]; [eapply IH; exact H|].
    unfold upsert_frame in H.
    destruct (rows_in _) as [df|]; [|discriminate].
    pose proof (NewsFacts.upsert_news_count_aux df ns) as Hc.
    destruct (upsert_news df ns) as [n ns1]. simpl in Hc.
    apply IH in H. lia.
Qed.

Lemma normalize_urls : forall to_datetime items,
  map r_url (normalize_news to_datetime items) = map i_url items.
Proof.
  intros to_datetime items. unfold normalize_news. rewrite map_map. reflexivity.
Qed.

Lemma refresh_one_feed_aux : forall parse to_datetime f total ns,
  NoDup (map url ns) ->
  Forall (fun i => i_url i <> None) (fetch_rss parse f) ->
  let res := refresh_feeds parse to_datetime [f] total ns in
  (exists total', fst res = Done total') /\
  forall u, match first_row (normalize_news to_datetime (fetch_rss parse f)) u with
            | Some r => exists n, news_at (snd res) u = [n] /\ writes (row_in r u) (news_at ns u) n
            | None => news_at (snd res) u = news_at ns u
            end.
Proof.
  intros parse to_datetime f total ns Hn Hu. cbv zeta.
  destruct (fetch_rss parse f) as [|i0 items0] eqn:Ef.
  - simpl. rewrite Ef. simpl. split; [eauto|]. intros u. reflexivity.
  - assert (Hs : refresh_feeds parse to_datetime [f] total ns
                 = match upsert_frame (drop_duplicates [] (normalize_news to_datetime (fetch_rss parse f))) ns with
                   | inl (n, ns') => (Done (total + n), ns')
                   | inr e => (Failed e, ns)
                   end).
    { simpl. rewrite Ef. destruct (upsert_frame _ ns) as [[n ns']|e]; reflexivity. }
    rewrite Hs. rewrite <- Ef. rewrite <- Ef in Hu.
    set (rows := normalize_news to_datetime (fetch_rss parse f)).
    assert (Hr : Forall (fun r => r_url r <> None) rows).
    { apply Forall_forall. intros r Hr. unfold rows in Hr.
      assert (Hm : In (r_url r) (map i_url (fetch_rss parse f)))
        by (rewrite <- (normalize_urls to_datetime); apply in_map; exact Hr).
      apply in_map_iff in Hm. destruct Hm as [i [Ei Hi]]. rewrite <- Ei.
      rewrite Forall_forall in Hu. apply Hu, Hi. }
    assert (Hd : Forall (fun r => r_url r <> None) (drop_duplicates [] rows)).
    { rewrite Forall_forall in Hr |- *. intros r Hin. apply Hr.
      eapply drop_duplicates_In. exact Hin. }
    unfold upsert_frame. rewrite (rows_in_all _ Hd). simpl.
    pose proof (NewsFacts.upsert_news_last_write_aux (map conv (drop_duplicates [] rows)) ns Hn)
      as Hw0.
    destruct (upsert_news (map conv (drop_duplicates [] rows)) ns) as [n1 ns1]. simpl in Hw0 |- *.
    split; [eexists; reflexivity|]. intros u. pose proof (Hw0 u) as Hw.
    rewrite (last_news_drop rows [] u Hr) in Hw. simpl in Hw.
    destruct (first_row rows u) as [r|] eqn:Efr; simpl in Hw; [|exact Hw].
    unfold conv in Hw. rewrite (first_row_url _ _ _ Efr) in Hw. exact Hw.
Qed.

Lemma refresh_feeds_cons : forall parse to_datetime f rest t ns,
  fetch_rss parse f <> [] ->
  refresh_feeds parse to_datetime (f :: rest) t ns
  = match upsert_frame (drop_duplicates [] (normalize_news to_datetime (fetch_rss parse f))) ns with
    | inl (n, ns') => refresh_feeds parse to_datetime rest (t + n) ns'
    | inr e => (Failed e, ns)
    end.
Proof.
  intros parse to_datetime f rest t ns H. simpl.
  destruct (fetch_rss parse f); [congruence|reflexivity].
Qed.

Lemma normalize_missing : forall to_datetime items,
  Exists (fun i => i_url i = None) items ->
  Exists (fun r => r_url r = None) (normalize_news to_datetime items).
Proof.
  intros to_datetime items H. apply Exists_exists in H. destruct H as [i [Hi Hu]].
  apply Exists_exists. eexists. split; [unfold normalize_news; apply in_map; exact Hi|exact Hu].
Qed.

(** X5: when [refresh_news] gets through all feeds, the rows of [news] grew by
    the total it logs. *)
Theorem refresh_news_count : forall parse to_datetime extra ns t ns',
  refresh_news parse to_datetime extra ns = (Done t, ns') ->
  List.length ns' = List.length ns + t.
Proof.
  intros parse to_datetime extra ns t ns' H. unfold refresh_news in H.
  apply refresh_feeds_count in H. lia.
Qed.

Lemma refresh_news_count_witness :
  refresh_news Samples.sample_parse Samples.no_dates None []
    = (Done 2, snd (refresh_news Samples.sample_parse Samples.no_dates None [])) /\
  List.length (snd (refresh_news Samples.sample_parse Samples.no_dates None [])) = List.length (@nil News) + 2.
Proof.
  assert (H : refresh_news Samples.sample_parse Samples.no_dates None []
              = (Done 2, snd (refresh_news Samples.sample_parse Samples.no_dates None [])))
    by (vm_compute; reflexivity).
  split; [exact H|exact (refresh_news_count _ _ _ _ _ _ H)].
Defined.

(** X6: a feed with an entry without link makes [refresh_news] fail with an
    IntegrityError: the rows the feeds before it stored stay, nothing of it and
    of the feeds after it is stored. *)
Theorem refresh_news_missing_link : forall parse to_datetime extra ns feeds1 f feeds2 t1 ns1,
  Config.RSS_FEEDS extra = List.app feeds1 (f :: feeds2) ->
  refresh_feeds parse to_datetime feeds1 0 ns = (Done t1, ns1) ->
  Exists (fun i => i_url i = None) (fetch_rss parse f) ->
  refresh_news parse to_datetime extra ns = (Failed IntegrityError, ns1).
Proof.
  intros parse to_datetime extra ns feeds1 f feeds2 t1 ns1 Hf H1 Hx.
  unfold refresh_news. rewrite Hf, refresh_feeds_app, H1.
  assert (Hne : fetch_rss parse f <> []) by (intros E; rewrite E in Hx; inversion Hx).
  rewrite (refresh_feeds_cons _ _ _ _ _ _ Hne). unfold upsert_frame.
  rewrite rows_in_none; [reflexivity| |reflexivity].
  apply normalize_missing. exact Hx.
Qed.

Lemma refresh_news_missing_link_witness :
  Config.RSS_FEEDS None
    = List.app ["https://www.hellenicshippingnews.com/feed/"; "https://www.maritime-executive.com/rss"]%string
               ("https://gcaptain.com/feed/"%string :: []) /\
  refresh_feeds Samples.broken_parse Samples.no_dates
    ["https://www.hellenicshippingnews.com/feed/"; "https://www.maritime-executive.com/rss"]%string 0 []
    = (Done 2, snd (refresh_feeds Samples.broken_parse Samples.no_dates
                      ["https://www.hellenicshippingnews.com/feed/"; "https://www.maritime-executive.com/rss"]%string 0 [])) /\
  Exists (fun i => i_url i = None) (fetch_rss Samples.broken_parse "https://gcaptain.com/feed/"%string) /\
  refresh_news Samples.broken_parse Samples.no_dates None []
    = (Failed IntegrityError, snd (refresh_feeds Samples.broken_parse Samples.no_dates
                      ["https://www.hellenicshippingnews.com/feed/"; "https://www.maritime-executive.com/rss"]%string 0 [])).
Proof.
  assert (H1 : Config.RSS_FEEDS None
    = List.app ["https://www.hellenicshippingnews.com/feed/"; "https://www.maritime-executive.com/rss"]%string
               ("https://gcaptain.com/feed/"%string :: [])) by reflexivity.
  assert (H2 : refresh_feeds Samples.broken_parse Samples.no_dates
    ["https://www.hellenicshippingnews.com/feed/"; "https://www.maritime-executive.com/rss"]%string 0 []
    = (Done 2, snd (refresh_feeds Samples.broken_parse Samples.no_dates
                      ["https://www.hellenicshippingnews.com/feed/"; "https://www.maritime-executive.com/rss"]%string 0 [])))
    by (vm_compute; reflexivity).
  assert (H3 : Exists (fun i => i_url i = None) (fetch_rss Samples.broken_parse "https://gcaptain.com/feed/"%string))
    by (vm_compute; apply Exists_cons_hd; reflexivity).
  split; [exact H1|split; [exact H2|split; [exact H3|]]].
  exact (refresh_news_missing_link _ _ _ _ _ _ _ _ _ H1 H2 H3).
Defined.

(** X7: one pass of the loop of [refresh_news] over a feed whose entries all
    have a link stores, for each url of the feed, its first entry (title,
    summary, source, date), keeping the id and [summary_ai] of an existing row;
    the rows of other urls are unchanged. *)
Theorem refresh_feed_first_entry : forall parse to_datetime f total ns,
  NoDup (map url ns) ->
  Forall (fun i => i_url i <> None) (fetch_rss parse f) ->
  (exists total', fst (refresh_feeds parse to_datetime [f] total ns) = Done total') /\
  forall u, match first_row (normalize_news to_datetime (fetch_rss parse f)) u with
            | Some r => exists n, news_at (snd (refresh_feeds parse to_datetime [f] total ns)) u = [n] /\
                                  writes (row_in r u) (news_at ns u) n
            | None => news_at (snd (refresh_feeds parse to_datetime [f] total ns)) u = news_at ns u
            end.
Proof. intros parse to_datetime f total ns Hn Hu. exact (refresh_one_feed_aux parse to_datetime f total ns Hn Hu). Qed.

Lemma refresh_feed_first_entry_witness :
  NoDup (map url [Samples.news_a]) /\
  Forall (fun i => i_url i <> None) (fetch_rss Samples.sample_parse "f"%string) /\
  (exists total', fst (refresh_feeds Samples.sample_parse Samples.no_dates ["f"%string] 0 [Samples.news_a]) = Done total') /\
  match first_row (normalize_news Samples.no_dates (fetch_rss Samples.sample_parse "f"%string)) "u1"%string with
  | Some r => exists n, news_at (snd (refresh_feeds Samples.sample_parse Samples.no_dates ["f"%string] 0 [Samples.news_a])) "u1"%string = [n] /\
                        writes (row_in r "u1"%string) (news_at [Samples.news_a] "u1"%string) n
  | None => news_at (snd (refresh_feeds Samples.sample_parse Samples.no_dates ["f"%string] 0 [Samples.news_a])) "u1"%string
            = news_at [Samples.news_a] "u1"%string
  end.
Proof.
  assert (Hn : NoDup (map url [Samples.news_a])) by (simpl; constructor; [simpl; tauto|constructor]).
  assert (Hu : Forall (fun i => i_url i <> None) (fetch_rss Samples.sample_parse "f"%string))
    by (vm_compute; repeat constructor; discriminate).
  destruct (refresh_feed_first_entry Samples.sample_parse Samples.no_dates "f"%string 0 [Samples.news_a] Hn Hu)
    as [Ht Hr].
  split; [exact Hn|split; [exact Hu|split; [exact Ht|exact (Hr "u1"%string)]]].
Defined.

End FeedsFacts.

Module ConfigFacts.
Import Config.
Local Open Scope string_scope.

Definition no_sep (sep : ascii) (s : string) : Prop := Forall (fun c => c <> sep) (list_ascii_of_string s).
Definition all_space (s : string) : Prop := Forall (fun c => is_space c = true) (list_ascii_of_string s).

(** [sep.join(...)] with [pad] after each separator. *)
Fixpoint join (sep : ascii) (pad : string) (us : list string) : string :=
  match us with
  | [] => ""
  | [u] => u
  | u :: rest => u ++ String sep (pad ++ join sep pad rest)
  end.

Lemma split_nonempty : forall sep s, split sep s <> [].
Proof.
  intros sep s. induction s as [|c s IH]; simpl; [discriminate|].
  destruct (Ascii.eqb c sep); [discriminate|].
  destruct (split sep s); discriminate.
Qed.

Lemma split_no_sep : forall sep s p, In p (split sep s) -> no_sep sep p.
Proof.
  intros sep s. induction s as [|c s IH]; intros p H; simpl in H.
  - destruct H as [<-|[]]. constructor.
  - destruct (Ascii.eqb c sep) eqn:E.
    + destruct H as [<-|H]; [constructor|apply IH, H].
    + destruct (split sep s) as [|q qs] eqn:Es.
      * destruct H as [<-|[]]. constructor; [|constructor].
        intros ->. rewrite Ascii.eqb_refl in E. discriminate.
      * destruct H as [<-|H]; [|apply IH; right; exact H].
        constructor; [|apply IH; left; reflexivity].
        intros ->. rewrite Ascii.eqb_refl in E. discriminate.
Qed.

Section DropWs.
Local Open Scope nat_scope.
Variable w2 : ascii -> ascii -> bool.
Variable w3 : ascii -> ascii -> ascii -> bool.

Lemma drop_ws_suffix_n : forall n l, List.length l <= n -> exists t, l = List.app t (drop_ws w2 w3 l).
Proof.
  induction n as [|n IH]; intros l Hl.
  - destruct l; [exists []; reflexivity|simpl in Hl; lia].
  - destruct l as [|c l1]; [exists []; reflexivity|]. simpl.
    destruct (is_space c).
    { destruct (IH l1) as [t Ht]; [simpl in Hl; lia|]. exists (c :: t). simpl. f_equal. exact Ht. }
    destruct l1 as [|d l2]; [exists []; reflexivity|].
    destruct (w2 c d).
    { destruct (IH l2) as [t Ht]; [simpl in Hl; lia|]. exists (c :: d :: t). simpl. rewrite <- Ht. reflexivity. }
    destruct l2 as [|e l3]; [exists []; reflexivity|].
    destruct (w3 c d e); [|exists []; reflexivity].
    destruct (IH l3) as [t Ht]; [simpl in Hl; lia|]. exists (c :: d :: e :: t). simpl. rewrite <- Ht. reflexivity.
Qed.

Lemma drop_ws_suffix : forall l, exists t, l = List.app t (drop_ws w2 w3 l).
Proof. intros l. exact (drop_ws_suffix_n (List.length l) l (le_n _)). Qed.

Lemma drop_ws_clean_n : forall n l, List.length l <= n -> ws_head w2 w3 (drop_ws w2 w3 l) = false.
Proof.
  induction n as [|n IH]; intros l Hl.
  - destruct l; [reflexivity|simpl in Hl; lia].
  - destruct l as [|c l1]; [reflexivity|]. simpl.
    destruct (is_space c) eqn:E1; [apply IH; simpl in Hl; lia|].
    destruct l1 as [|d l2]; [simpl; rewrite E1; reflexivity|].
    destruct (w2 c d) eqn:E2; [apply IH; simpl in Hl; lia|].
    destruct l2 as [|e l3]; [simpl; rewrite E1, E2; reflexivity|].
    destruct (w3 c d e) eqn:E3; [apply IH; simpl in Hl; lia|].
    simpl. rewrite E1, E2, E3. reflexivity.
Qed.

Lemma drop_ws_clean : forall l, ws_head w2 w3 (drop_ws w2 w3 l) = false.
Proof. intros l. exact (drop_ws_clean_n (List.length l) l (le_n _)). Qed.

Lemma drop_ws_noop : forall l, ws_head w2 w3 l = false -> drop_ws w2 w3 l = l.
Proof.
  intros [|c [|d [|e l]]] H; simpl in *; try reflexivity.
  - destruct (is_space c); [discriminate|reflexivity].
  - destruct (is_space c); [discriminate|]. destruct (w2 c d); [discriminate|reflexivity].
  - destruct (is_space c); [discriminate|]. destruct (w2 c d); [discriminate|].
    destruct (w3 c d e); [discriminate|reflexivity].
Qed.

Lemma drop_ws_idem : forall l, drop_ws w2 w3 (drop_ws w2 w3 l) = drop_ws w2 w3 l.
Proof. intros l. apply drop_ws_noop, drop_ws_clean. Qed.

Lemma ws_head_prefix : forall p q, ws_head w2 w3 (List.app p q) = false -> ws_head w2 w3 p = false.
Proof.
  intros [|c [|d [|e p]]] q H; simpl in *; try reflexivity.
  - destruct (is_space c); [discriminate|reflexivity].
  - destruct (is_space c); [discriminate|]. destruct (w2 c d); [discriminate|reflexivity].
  - exact H.
Qed.

Lemma drop_ws_pad : forall pad l, Forall (fun c => is_space c = true) pad ->
  drop_ws w2 w3 (List.app pad l) = drop_ws w2 w3 l.
Proof.
  induction pad as [|c pad IH]; intros l Hp; simpl; [reflexivity|].
  apply Forall_cons_iff in Hp. destruct Hp as [Hc Hp]. rewrite Hc. apply IH, Hp.
Qed.

End DropWs.

Lemma lstrip_list : forall s,
  list_ascii_of_string (lstrip s) = drop_ws space2 space3 (list_ascii_of_string s).
Proof. intros s. unfold lstrip. apply list_ascii_of_string_of_list_ascii. Qed.

Lemma rstrip_list : forall s,
  list_ascii_of_string (rstrip s) =
  rev (drop_ws (fun c d => space2 d c) (fun c d e => space3 e d c) (rev (list_ascii_of_string s))).
Proof. intros s. unfold rstrip. apply list_ascii_of_string_of_list_ascii. Qed.

Lemma lstrip_incl : forall s, incl (list_ascii_of_string (lstrip s)) (list_ascii_of_string s).
Proof.
  intros s. rewrite lstrip_list.
  destruct (drop_ws_suffix space2 space3 (list_ascii_of_string s)) as [t Ht].
  rewrite Ht at 2. intros x Hx. apply in_or_app. right. exact Hx.
Qed.

Lemma rstrip_incl : forall s, incl (list_ascii_of_string (rstrip s)) (list_ascii_of_string s).
Proof.
  intros s. rewrite rstrip_list.
  destruct (drop_ws_suffix (fun c d => space2 d c) (fun c d e => space3 e d c)
              (rev (list_ascii_of_string s))) as [t Ht].
  intros x Hx. apply in_rev in Hx.
  assert (Hx' : In x (rev (list_ascii_of_string s))) by (rewrite Ht; apply in_or_app; right; exact Hx).
  apply in_rev in Hx'. exact Hx'.
Qed.

Lemma rstrip_idem : forall s, rstrip (rstrip s) = rstrip s.
Proof.
  intros s. unfold rstrip at 1. rewrite rstrip_list, rev_involutive, drop_ws_idem.
  reflexivity.
Qed.

Lemma lstrip_rstrip_lstrip : forall s, lstrip (rstrip (lstrip s)) = rstrip (lstrip s).
Proof.
  intros s.
  set (l := drop_ws space2 space3 (list_ascii_of_string s)).
  assert (Hl : ws_head space2 space3 l = false) by apply drop_ws_clean.
  destruct (drop_ws_suffix (fun c d => space2 d c) (fun c d e => space3 e d c) (rev l)) as [t Ht].
  set (r := drop_ws (fun c d => space2 d c) (fun c d e => space3 e d c) (rev l)) in Ht.
  assert (Hr : l = List.app (rev r) (rev t)).
  { rewrite <- rev_app_distr, <- Ht, rev_involutive. reflexivity. }
  assert (Hc : ws_head space2 space3 (rev r) = false)
    by (apply (ws_head_prefix _ _ _ (rev t)); rewrite <- Hr; exact Hl).
  unfold lstrip at 1. rewrite rstrip_list, lstrip_list. fold l. fold r.
  rewrite (drop_ws_noop _ _ _ Hc).
  unfold rstrip. rewrite lstrip_list. reflexivity.
Qed.

Lemma extra_feeds_In : forall extra u, In u (extra_feeds extra) ->
  exists p, u = strip p /\ strip p <> "" /\ no_sep "," p.
Proof.
  intros [e|] u H; simpl in H; [|contradiction].
  destruct (String.eqb e ""); [contradiction|].
  apply in_map_iff in H. destruct H as [p [<- Hp]]. apply filter_In in Hp. destruct Hp as [Hp Hs].
  exists p. split; [reflexivity|split].
  - apply negb_true_iff, String.eqb_neq in Hs. exact Hs.
  - eapply split_no_sep. exact Hp.
Qed.

Lemma extra_feeds_clean_aux : forall extra u, In u (extra_feeds extra) ->
  u <> "" /\ no_sep "," u /\ lstrip u = u /\ rstrip u = u.
Proof.
  intros extra u H. destruct (extra_feeds_In extra u H) as [p [-> [Hne Hp]]].
  split; [exact Hne|split; [|split]].
  - unfold no_sep in *. rewrite Forall_forall in Hp |- *. intros x Hx. apply Hp.
    unfold strip in Hx. apply lstrip_incl, rstrip_incl, Hx.
  - apply lstrip_rstrip_lstrip.
  - apply rstrip_idem.
Qed.

Lemma append_empty_r : forall s, s ++ "" = s.
Proof. induction s as [|c s IH]; simpl; [reflexivity|rewrite IH; reflexivity]. Qed.

Lemma split_app : forall sep u s, no_sep sep u ->
  split sep (u ++ s) = match split sep s with p :: ps => (u ++ p) :: ps | [] => [] end.
Proof.
  intros sep u s. induction u as [|c u IH]; intros Hu; simpl.
  - destruct (split sep s) eqn:E; [exfalso; exact (split_nonempty sep s E)|reflexivity].
  - inversion Hu as [|? ? Hc Hu']; subst.
    destruct (Ascii.eqb c sep) eqn:E; [apply Ascii.eqb_eq in E; contradiction|].
    rewrite (IH Hu'). destruct (split sep s) eqn:Es; [exfalso; exact (split_nonempty sep s Es)|reflexivity].
Qed.

Lemma split_sep_cons : forall sep s, split sep (String sep s) = "" :: split sep s.
Proof. intros sep s. simpl. rewrite Ascii.eqb_refl. reflexivity. Qed.

Lemma split_join : forall sep pad us, us <> [] -> no_sep sep pad -> Forall (no_sep sep) us ->
  split sep (join sep pad us) = match us with u :: rest => u :: map (fun v => pad ++ v) rest | [] => [] end.
Proof.
  intros sep pad us. induction us as [|u rest IH]; intros Hne Hp Hus; [contradiction|].
  inversion Hus as [|? ? Hu Hrest]; subst.
  destruct rest as [|v rest].
  - simpl. rewrite <- (append_empty_r u) at 1. rewrite (split_app sep u "" Hu). simpl.
    rewrite append_empty_r. reflexivity.
  - change (join sep pad (u :: v :: rest)) with (u ++ String sep (pad ++ join sep pad (v :: rest))).
    rewrite (split_app sep u _ Hu), split_sep_cons.
    rewrite (split_app sep pad _ Hp). rewrite (IH ltac:(discriminate) Hp Hrest).
    rewrite append_empty_r. reflexivity.
Qed.

Lemma list_ascii_of_string_app : forall s t,
  list_ascii_of_string (s ++ t) = List.app (list_ascii_of_string s) (list_ascii_of_string t).
Proof. induction s as [|c s IH]; intros t; simpl; [reflexivity|rewrite IH; reflexivity]. Qed.

Lemma lstrip_pad : forall pad u, all_space pad -> lstrip (pad ++ u) = lstrip u.
Proof.
  intros pad u Hp. unfold lstrip. rewrite list_ascii_of_string_app, drop_ws_pad by exact Hp.
  reflexivity.
Qed.

Lemma comma_not_space : all_space "" /\ is_space ","%char = false.
Proof. split; [constructor|reflexivity]. Qed.

Lemma all_space_no_comma : forall pad, all_space pad -> no_sep "," pad.
Proof.
  intros pad Hp. unfold all_space, no_sep in *. rewrite Forall_forall in Hp |- *.
  intros c Hc ->. specialize (Hp _ Hc). discriminate.
Qed.

Lemma filter_strip_pad : forall pad rest, all_space pad ->
  Forall (fun u => u <> "" /\ strip u = u) rest ->
  map strip (filter (fun u => negb (String.eqb (strip u) "")) (map (fun v => pad ++ v) rest)) = rest.
Proof.
  intros pad rest Hp. induction rest as [|v rest IH]; intros Hr; [reflexivity|].
  apply Forall_cons_iff in Hr. destruct Hr as [[Hv1 Hv2] Hr].
  assert (Hv : strip (pad ++ v) = v) by (unfold strip in *; rewrite lstrip_pad; assumption).
  simpl. rewrite Hv.
  assert (Hvs : String.eqb v "" = false) by (apply String.eqb_neq, Hv1).
  rewrite Hvs. simpl. rewrite Hv, (IH Hr). reflexivity.
Qed.

Lemma extra_feeds_join_aux : forall pad us,
  us <> [] -> all_space pad ->
  Forall (fun u => u <> "" /\ strip u = u /\ no_sep "," u) us ->
  extra_feeds (Some (join "," pad us)) = us.
Proof.
  intros pad us Hne Hp Hus. unfold extra_feeds.
  destruct us as [|u rest]; [contradiction|].
  assert (Hsep : Forall (no_sep ",") (u :: rest)).
  { rewrite Forall_forall in Hus |- *. intros x Hx. apply Hus, Hx. }
  assert (Hrest : Forall (fun u => u <> "" /\ strip u = u) rest).
  { apply Forall_cons_iff in Hus. rewrite Forall_forall in Hus |- *.
    intros x Hx. destruct Hus as [_ Hus]. destruct (Hus x Hx) as [A [B _]]. split; assumption. }
  apply Forall_cons_iff in Hus. destruct Hus as [[Hu1 [Hu2 _]] _].
  rewrite (split_join "," pad (u :: rest) Hne (all_space_no_comma pad Hp) Hsep).
  assert (Hj : String.eqb (join "," pad (u :: rest)) "" = false).
  { apply String.eqb_neq. destruct rest as [|v rest]; [exact Hu1|].
    simpl. destruct u; [contradiction|discriminate]. }
  rewrite Hj. simpl.
  assert (Hs : String.eqb (strip u) "" = false) by (rewrite Hu2; apply String.eqb_neq, Hu1).
  rewrite Hs. simpl. rewrite Hu2, (filter_strip_pad pad rest Hp Hrest). reflexivity.
Qed.

(** X8: every feed [MMW_EXTRA_FEEDS] adds is non-empty, has no comma, and
    neither starts nor ends with a whitespace character ([str.lstrip] and
    [str.rstrip] leave it as it is). *)
Theorem extra_feeds_clean : forall extra u, In u (extra_feeds extra) ->
  u <> "" /\ no_sep "," u /\ lstrip u = u /\ rstrip u = u.
Proof. intros extra u H. exact (extra_feeds_clean_aux extra u H). Qed.

Lemma extra_feeds_clean_witness :
  In "a.com" (extra_feeds (Some Samples.nbsp_feeds)) /\
  ("a.com" <> "" /\ no_sep "," "a.com" /\ lstrip "a.com" = "a.com" /\ rstrip "a.com" = "a.com").
Proof.
  assert (H : In "a.com" (extra_feeds (Some Samples.nbsp_feeds))) by (vm_compute; left; reflexivity).
  split; [exact H|exact (extra_feeds_clean _ _ H)].
Defined.

(** X9: a comma-separated list of non-empty urls that have no comma and that
    [str.strip] leaves as they are, with ASCII whitespace after each comma, is
    read back by [MMW_EXTRA_FEEDS] as exactly those urls, in order. *)
Theorem extra_feeds_join : forall pad us,
  us <> [] -> all_space pad ->
  Forall (fun u => u <> "" /\ strip u = u /\ no_sep "," u) us ->
  extra_feeds (Some (join "," pad us)) = us.
Proof. intros pad us H1 H2 H3. exact (extra_feeds_join_aux pad us H1 H2 H3). Qed.

Lemma extra_feeds_join_witness :
  ["a"; "b"] <> [] /\ all_space " " /\
  Forall (fun u => u <> "" /\ strip u = u /\ no_sep "," u) ["a"; "b"] /\
  extra_feeds (Some (join "," " " ["a"; "b"])) = ["a"; "b"].
Proof.
  assert (H1 : ["a"; "b"] <> []) by discriminate.
  assert (H2 : all_space " ") by (repeat constructor).
  assert (H3 : Forall (fun u => u <> "" /\ strip u = u /\ no_sep "," u) ["a"; "b"]).
  { repeat constructor; try discriminate; vm_compute; congruence. }
  split; [exact H1|split; [exact H2|split; [exact H3|exact (extra_feeds_join _ _ H1 H2 H3)]]].
Defined.

End ConfigFacts.

Module LinkerMore.
Import Linker LinkerFacts.
Local Open Scope nat_scope.

(** A link whose news id is none of the items'. *)
Definition orphan (items : list News) (l : Link) : bool :=
  negb (existsb (fun it => Nat.eqb (link_news_id l) (news_id it)) items).

(** The target of a link. *)
Definition hd_link : Link :=
  {| link_id := 0; link_news_id := 0; asset_ticker := None; index_code := None; score := 0 |}.

Definition tgt (n : NewLink) : option string * option string := (nl_asset_ticker n, nl_index_code n).

(** Score and target of a link as [link_news] writes them. *)
Definition well_scored (sc : nat) (a c : option string) : Prop :=
  1 <= sc <= 3 /\
  ((exists t, a = Some t /\ In t (flat_map snd MAPPINGS) /\ c = None) \/
   (exists k, c = Some k /\ In k (map fst INDEX_KEYWORDS) /\ a = None)).

Lemma insert_links_app : forall nls ls,
  exists extra, insert_links ls nls = ls ++ extra /\ map content extra = nls.
Proof.
  induction nls as [|n rest IH]; intros ls; simpl.
  - exists []. split; [symmetry; apply app_nil_r|reflexivity].
  - destruct (IH (ls ++ [{| link_id := next_rowid ls; link_news_id := nl_news_id n;
                            asset_ticker := nl_asset_ticker n; index_code := nl_index_code n;
                            score := nl_score n |}])) as [extra [E M]].
    eexists. split; [rewrite E, <- app_assoc; reflexivity|].
    simpl. rewrite M. destruct n. reflexivity.
Qed.

Lemma filter_absorb {A} (f g : A -> bool) (l : list A) :
  (forall x, f x = true -> g x = true) -> filter f (filter g l) = filter f l.
Proof.
  intros H. induction l as [|x l IH]; simpl; [reflexivity|].
  destruct (g x) eqn:Eg; simpl; rewrite IH; [reflexivity|].
  destruct (f x) eqn:Ef; [rewrite (H x Ef) in Eg; discriminate|reflexivity].
Qed.

Lemma fold_orphans : forall ents items sub ls, incl sub items ->
  filter (orphan items) (fold_left (link_item ents) sub ls) = filter (orphan items) ls.
Proof.
  intros ents items sub. induction sub as [|it sub IH]; intros ls Hs; simpl; [reflexivity|].
  rewrite IH; [|intros x Hx; apply Hs; right; exact Hx].
  assert (Hit : In it items) by (apply Hs; left; reflexivity).
  unfold link_item.
  destruct (insert_links_app (item_links (news_id it) (full_text it (entity_vals ents it)))
              (delete_links (news_id it) ls)) as [extra [E M]].
  rewrite E, filter_app.
  rewrite (filter_all_false (orphan items) extra), app_nil_r.
  - unfold delete_links. apply filter_absorb. intros l Hl.
    apply negb_true_iff, Nat.eqb_neq. intros Eid. unfold orphan in Hl.
    apply negb_true_iff in Hl.
    assert (Ht : existsb (fun it => Nat.eqb (link_news_id l) (news_id it)) items = true).
    { apply existsb_exists. exists it. split; [exact Hit|]. apply Nat.eqb_eq. exact Eid. }
    congruence.
  - intros l Hl. unfold orphan. apply negb_false_iff, existsb_exists.
    exists it. split; [exact Hit|]. apply Nat.eqb_eq.
    assert (Hc : In (content l) (item_links (news_id it) (full_text it (entity_vals ents it))))
      by (rewrite <- M; apply in_map, Hl).
    apply item_links_shape in Hc. destruct Hc as [Hc _]. exact Hc.
Qed.

Lemma link_news_orphans_aux : forall db,
  filter (orphan (db_news db)) (db_links (link_news db)) = filter (orphan (db_news db)) (db_links db).
Proof. intros db. unfold link_news. simpl. apply fold_orphans, incl_refl. Qed.

Lemma item_links_scored : forall nid text n, In n (item_links nid text) ->
  well_scored (nl_score n) (nl_asset_ticker n) (nl_index_code n).
Proof.
  intros nid text n H. unfold item_links, asset_links, index_links in H.
  apply in_app_or in H. destruct H as [H|H]; apply in_flat_map in H;
    destruct H as [[a b] [Hab H]]; cbn beta iota zeta in H;
    destruct (Nat.eqb (_match_score text _) 0) eqn:E0; try contradiction;
    apply Nat.eqb_neq in E0.
  - apply in_map_iff in H. destruct H as [t [<- Ht]]. simpl. split.
    + split; [lia|]. unfold _match_score. etransitivity; [apply filter_length_le|].
      simpl in Hab. simpl.
      destruct Hab as [E|[E|[E|[E|[]]]]]; injection E as <- <-; simpl; lia.
    + left. exists t. split; [reflexivity|split; [|reflexivity]].
      apply in_flat_map. exists (a, b). split; assumption.
  - destruct H as [<-|[]]. simpl. split.
    + split; [lia|]. unfold _match_score. etransitivity; [apply filter_length_le|].
      simpl in Hab.
      destruct Hab as [E|[E|[E|[E|[]]]]]; injection E as <- <-; simpl; lia.
    + right. exists a. split; [reflexivity|split; [|reflexivity]].
      apply in_map_iff. exists (a, b). split; [reflexivity|exact Hab].
Qed.

Lemma fold_step_c_In : forall ents items C n, In n (fold_left (step_c ents) items C) ->
  In n C \/ exists it, In it items /\ In n (item_links (news_id it) (full_text it (entity_vals ents it))).
Proof.
  intros ents items. induction items as [|it items IH]; intros C n H; simpl in H; [left; exact H|].
  destruct (IH _ _ H) as [H1|[it' [Hi Hn]]].
  - unfold step_c in H1. apply in_app_or in H1. destruct H1 as [H1|H1].
    + left. apply filter_In in H1. apply H1.
    + right. exists it. split; [left; reflexivity|exact H1].
  - right. exists it'. split; [right; exact Hi|exact Hn].
Qed.

Lemma link_news_scored_aux : forall db l, In l (db_links (link_news db)) ->
  In (link_news_id l) (map news_id (db_news db)) ->
  well_scored (score l) (asset_ticker l) (index_code l).
Proof.
  intros db l Hl Hid. apply (in_map content) in Hl. rewrite link_news_contents in Hl.
  apply in_app_or in Hl. destruct Hl as [Hl|Hl].
  - exfalso. unfold purge in Hl. apply filter_In in Hl. destruct Hl as [_ Hp].
    apply negb_true_iff in Hp. apply in_map_iff in Hid. destruct Hid as [it [Eit Hit]].
    assert (Ht : existsb (fun it => Nat.eqb (nl_news_id (content l)) (news_id it)) (db_news db) = true).
    { apply existsb_exists. exists it. split; [exact Hit|]. apply Nat.eqb_eq. simpl. symmetry. exact Eit. }
    congruence.
  - destruct (fold_step_c_In _ _ _ _ Hl) as [[]|[it [_ Hn]]].
    apply item_links_scored in Hn. exact Hn.
Qed.

Lemma map_flat_map' {A B C} (h : B -> C) (f : A -> list B) (l : list A) :
  map h (flat_map f l) = flat_map (fun x => map h (f x)) l.
Proof. induction l as [|x l IH]; simpl; [reflexivity|]. rewrite map_app, IH. reflexivity. Qed.

Lemma NoDup_app_disj {A} (l1 l2 : list A) : NoDup (l1 ++ l2) -> forall a, In a l1 -> ~ In a l2.
Proof.
  induction l1 as [|x l1 IH]; intros H a Ha; [destruct Ha|].
  inversion H as [|? ? Hx Hr]; subst. destruct Ha as [<-|Ha].
  - intros Hb. apply Hx. apply in_or_app. right. exact Hb.
  - apply IH; assumption.
Qed.

Lemma flat_map_sub_incl {A B} (f g : A -> list B) (l : list A) :
  (forall x, g x = [] \/ g x = f x) -> incl (flat_map g l) (flat_map f l).
Proof.
  intros H y Hy. apply in_flat_map in Hy. destruct Hy as [x [Hx Hy]].
  apply in_flat_map. exists x. split; [exact Hx|].
  destruct (H x) as [E|E]; rewrite E in Hy; [destruct Hy|exact Hy].
Qed.

Lemma NoDup_flat_map_sub {A B} (f g : A -> list B) (l : list A) :
  (forall x, g x = [] \/ g x = f x) -> NoDup (flat_map f l) -> NoDup (flat_map g l).
Proof.
  intros H. induction l as [|x l IH]; intros Hf; simpl in *; [constructor|].
  pose proof (NoDup_app_remove_l _ _ Hf) as Hr.
  destruct (H x) as [E|E]; rewrite E; [exact (IH Hr)|].
  apply NoDup_app; [exact (NoDup_app_remove_r _ _ Hf)|exact (IH Hr)|].
  intros a Ha Hb. apply (NoDup_app_disj _ _ Hf a Ha).
  apply (flat_map_sub_incl f g l H), Hb.
Qed.

Lemma NoDup_app_sub {A} (l1 l2 m1 m2 : list A) :
  NoDup (l1 ++ l2) -> NoDup m1 -> NoDup m2 -> incl m1 l1 -> incl m2 l2 -> NoDup (m1 ++ m2).
Proof.
  intros H H1 H2 I1 I2. apply NoDup_app; [exact H1|exact H2|].
  intros a Ha Hb. exact (NoDup_app_disj _ _ H a (I1 _ Ha) (I2 _ Hb)).
Qed.

Definition asset_targets (g : string * list string) : list (option string * option string) :=
  map (fun t => (Some t, None)) (snd g).
Definition index_targets (g : string * list string) : list (option string * option string) :=
  [(None, Some (fst g))].

Lemma all_targets_nodup :
  NoDup (flat_map asset_targets MAPPINGS ++ flat_map index_targets INDEX_KEYWORDS).
Proof. simpl. repeat constructor; simpl; intuition discriminate. Qed.

Lemma item_links_targets_nodup : forall nid text, NoDup (map tgt (item_links nid text)).
Proof.
  intros nid text. unfold item_links, asset_links, index_links.
  rewrite map_app, !map_flat_map'.
  assert (Ha : forall x : string * list string,
     (fun x => map tgt (let '(name, tickers) := x in
        if Nat.eqb (_match_score text (name :: tickers)) 0 then []
        else map (fun t => {| nl_news_id := nid; nl_asset_ticker := Some t;
                              nl_index_code := None; nl_score := _match_score text (name :: tickers) |})
               tickers)) x = [] \/
     (fun x => map tgt (let '(name, tickers) := x in
        if Nat.eqb (_match_score text (name :: tickers)) 0 then []
        else map (fun t => {| nl_news_id := nid; nl_asset_ticker := Some t;
                              nl_index_code := None; nl_score := _match_score text (name :: tickers) |})
               tickers)) x = asset_targets x).
  { intros [a b]. cbn beta iota. destruct (Nat.eqb _ 0); [left; reflexivity|right].
    unfold asset_targets. rewrite map_map. reflexivity. }
  assert (Hi : forall x : string * list string,
     (fun x => map tgt (let '(code, keywords) := x in
        if Nat.eqb (_match_score text keywords) 0 then []
        else [{| nl_news_id := nid; nl_asset_ticker := None;
                 nl_index_code := Some code; nl_score := _match_score text keywords |}])) x = [] \/
     (fun x => map tgt (let '(code, keywords) := x in
        if Nat.eqb (_match_score text keywords) 0 then []
        else [{| nl_news_id := nid; nl_asset_ticker := None;
                 nl_index_code := Some code; nl_score := _match_score text keywords |}])) x
     = index_targets x).
  { intros [a b]. cbn beta iota. destruct (Nat.eqb _ 0); [left; reflexivity|right; reflexivity]. }
  pose proof all_targets_nodup as H.
  apply (NoDup_app_sub _ _ _ _ H).
  - apply (NoDup_flat_map_sub asset_targets _ _ Ha), (NoDup_app_remove_r _ _ H).
  - apply (NoDup_flat_map_sub index_targets _ _ Hi), (NoDup_app_remove_l _ _ H).
  - apply (flat_map_sub_incl asset_targets _ _ Ha).
  - apply (flat_map_sub_incl index_targets _ _ Hi).
Qed.

(** X1: [link_news] leaves the links of news ids that are not in [news]
    untouched: same rows, same rowids, same order. *)
Theorem link_news_keeps_orphans : forall db,
  filter (orphan (db_news db)) (db_links (link_news db)) = filter (orphan (db_news db)) (db_links db).
Proof. exact link_news_orphans_aux. Qed.

(** X2: after [link_news], every link of a news item has a score between 1 and
    3 and targets either a ticker of [MAPPINGS] (no index code) or a code of
    [INDEX_KEYWORDS] (no ticker). *)
Theorem link_news_scores : forall db l, In l (db_links (link_news db)) ->
  In (link_news_id l) (map news_id (db_news db)) ->
  well_scored (score l) (asset_ticker l) (index_code l).
Proof. intros db l H1 H2. exact (link_news_scored_aux db l H1 H2). Qed.

Lemma link_news_scores_witness :
  In (nth 0 (db_links (link_news db0)) (hd_link)) (db_links (link_news db0)) /\
  In (link_news_id (nth 0 (db_links (link_news db0)) hd_link)) (map news_id (db_news db0)) /\
  well_scored (score (nth 0 (db_links (link_news db0)) hd_link))
              (asset_ticker (nth 0 (db_links (link_news db0)) hd_link))
              (index_code (nth 0 (db_links (link_news db0)) hd_link)).
Proof.
  assert (H1 : In (nth 0 (db_links (link_news db0)) hd_link) (db_links (link_news db0)))
    by (vm_compute; left; reflexivity).
  assert (H2 : In (link_news_id (nth 0 (db_links (link_news db0)) hd_link)) (map news_id (db_news db0)))
    by (vm_compute; left; reflexivity).
  split; [exact H1|split; [exact H2|exact (link_news_scores _ _ H1 H2)]].
Defined.

(** X10: with news ids unique, [link_news] gives a news item at most one link
    per target (ticker or index code). *)
Theorem link_news_distinct_targets : forall db item,
  NoDup (map news_id (db_news db)) -> In item (db_news db) ->
  NoDup (map tgt (links_of (link_news db) (news_id item))).
Proof.
  intros db item Hnd Hin. rewrite (links_of_link_news db item Hnd Hin).
  apply item_links_targets_nodup.
Qed.

Lemma link_news_distinct_targets_witness :
  NoDup (map news_id (db_news db0)) /\ In news1 (db_news db0) /\
  NoDup (map tgt (links_of (link_news db0) (news_id news1))).
Proof.
  assert (H1 : NoDup (map news_id (db_news db0))) by (simpl; repeat constructor; simpl; lia).
  assert (H2 : In news1 (db_news db0)) by (simpl; left; reflexivity).
  split; [exact H1|split; [exact H2|exact (link_news_distinct_targets _ _ H1 H2)]].
Defined.

End LinkerMore.

Module IndicesRT.
Import Indices Store Queries StoreFacts IndicesFacts.
Local Open Scope nat_scope.

Lemma NoDup_map_inj {A B} (f : A -> B) l x y :
  NoDup (map f l) -> In x l -> In y l -> f x = f y -> x = y.
Proof.
  induction l as [|z l IH]; intros Hn Hx Hy E; [destruct Hx|].
  simpl in Hn. inversion Hn as [|? ? Hz Hl]; subst.
  destruct Hx as [<-|Hx]; destruct Hy as [<-|Hy]; auto.
  - exfalso. apply Hz. rewrite E. apply in_map, Hy.
  - exfalso. apply Hz. rewrite <- E. apply in_map, Hx.
Qed.

Lemma lookup_values_ext : forall db db' c d,
  db_indices db' = db_indices db ->
  (forall j, In j (db_indices db) -> code j = c ->
     map value (pts_at (db_points db') (index_id j) d) = map value (pts_at (db_points db) (index_id j) d)) ->
  lookup_values db' c d = lookup_values db c d.
Proof.
  intros db db' c d Hi H. unfold lookup_values. rewrite Hi.
  revert H. generalize (db_indices db) as inds.
  induction inds as [|j inds IH]; intros H; simpl; [reflexivity|].
  destruct (String.eqb (code j) c) eqn:E; simpl.
  - apply String.eqb_eq in E. rewrite (H j (or_introl eq_refl) E). f_equal.
    apply IH. intros k Hk. apply H. right. exact Hk.
  - apply IH. intros k Hk. apply H. right. exact Hk.
Qed.

Lemma lookup_values_one : forall db c d i,
  filter (fun j => String.eqb (code j) c) (db_indices db) = [i] ->
  lookup_values db c d = map value (pts_at (db_points db) (index_id i) d).
Proof. intros db c d i H. unfold lookup_values. rewrite H. simpl. apply app_nil_r. Qed.

Lemma filter_one_In {A} (f : A -> bool) l x : filter f l = [x] -> In x l /\ f x = true.
Proof. intros H. apply filter_In. rewrite H. left. reflexivity. Qed.

Lemma pts_at_app : forall ps q iid d,
  pts_at (List.app ps [q]) iid d
  = List.app (pts_at ps iid d) (if Nat.eqb (point_index_id q) iid && Z.eqb (point_date q) d then [q] else []).
Proof. intros ps q iid d. unfold pts_at. rewrite filter_app. reflexivity. Qed.

Lemma pts_at_set_value : forall ps pid v iid d,
  pts_at (set_value pid v ps) iid d = set_value pid v (pts_at ps iid d).
Proof.
  induction ps as [|p ps IH]; intros pid v iid d; [reflexivity|].
  unfold pts_at, set_value in *. simpl.
  destruct (Nat.eqb (point_id p) pid) eqn:E; simpl;
    destruct (Nat.eqb (point_index_id p) iid && Z.eqb (point_date p) d) eqn:F; simpl;
    rewrite ?E, ?IH; reflexivity.
Qed.

Lemma set_value_other : forall pid v ps, (forall q, In q ps -> point_id q <> pid) ->
  set_value pid v ps = ps.
Proof.
  induction ps as [|p ps IH]; intros H; [reflexivity|]. unfold set_value in *. simpl.
  destruct (Nat.eqb (point_id p) pid) eqn:E.
  - apply Nat.eqb_eq in E. exfalso. exact (H p (or_introl eq_refl) E).
  - f_equal. apply IH. intros q Hq. apply H. right. exact Hq.
Qed.

Lemma set_value_ids : forall pid v ps, map point_id (set_value pid v ps) = map point_id ps.
Proof.
  intros pid v ps. unfold set_value. rewrite map_map. apply map_ext.
  intros p. destruct (Nat.eqb (point_id p) pid); reflexivity.
Qed.

Lemma set_value_index_ids : forall pid v ps,
  map point_index_id (set_value pid v ps) = map point_index_id ps.
Proof.
  intros pid v ps. unfold set_value. rewrite map_map. apply map_ext.
  intros p. destruct (Nat.eqb (point_id p) pid); reflexivity.
Qed.

Lemma fk_iff : forall ps L,
  Forall (fun p => In (point_index_id p) L) ps <-> Forall (fun k => In k L) (map point_index_id ps).
Proof. intros ps L. rewrite Forall_map. reflexivity. Qed.

Lemma get_index_rt : forall db c, idb_ok db ->
  exists db1 i, get_index db c = Some (db1, index_id i) /\ idb_ok db1 /\
    db_points db1 = db_points db /\
    filter (fun j => String.eqb (code j) c) (db_indices db1) = [i] /\
    (exists ni, db_indices db1 = List.app (db_indices db) ni) /\
    forall c' d', lookup_values db1 c' d' = lookup_values db c' d'.
Proof.
  intros db c Hok. pose proof Hok as [Hc [Hi [Hp [Hk Hf]]]]. unfold get_index.
  assert (Hle : List.length (filter (fun i => String.eqb (code i) c) (db_indices db)) <= 1).
  { apply (filter_key_le1 code); [|exact Hc].
    intros x y Hx Hy. apply String.eqb_eq in Hx, Hy. congruence. }
  destruct (scalar_le1 _ Hle) as [[Hfl Hs]|[i [Hfl Hs]]]; rewrite Hs.
  - set (iid := next_id (map index_id (db_indices db))).
    exists {| db_indices := List.app (db_indices db) [{| index_id := iid; code := c |}];
              db_points := db_points db |}, {| index_id := iid; code := c |}.
    split; [reflexivity|]. split; [|split; [reflexivity|split; [|split]]].
    + unfold idb_ok; simpl. rewrite !map_app. repeat split.
      * apply NoDup_snoc; [exact Hc|].
        apply (not_in_map_of_filter_nil code (fun i => String.eqb (code i) c)); [|exact Hfl].
        intros x Ex. apply String.eqb_eq. exact Ex.
      * apply NoDup_snoc; [exact Hi|]. intros Hin. exact (next_id_fresh _ _ Hin eq_refl).
      * exact Hp.
      * exact Hk.
      * rewrite Forall_forall in Hf |- *. intros p Hin. apply in_or_app. left. apply Hf, Hin.
    + simpl. rewrite filter_app, Hfl. simpl. rewrite String.eqb_refl. reflexivity.
    + eexists. reflexivity.
    + intros c' d'. unfold lookup_values. simpl. rewrite filter_app, flat_map_app. simpl.
      destruct (String.eqb c c'); simpl; rewrite ?app_nil_r; [|reflexivity].
      assert (E : pts_at (db_points db) iid d' = []).
      { destruct (pts_at (db_points db) iid d') as [|q qs] eqn:Eq; [reflexivity|exfalso].
        assert (Hq : In q (pts_at (db_points db) iid d')) by (rewrite Eq; left; reflexivity).
        unfold pts_at in Hq. apply filter_In in Hq. destruct Hq as [Hq Pq].
        apply andb_true_iff in Pq. destruct Pq as [Pq _]. apply Nat.eqb_eq in Pq.
        rewrite Forall_forall in Hf. specialize (Hf q Hq). rewrite Pq in Hf.
        exact (next_id_fresh _ _ Hf eq_refl). }
      rewrite E. simpl. apply app_nil_r.
  - exists db, i. split; [reflexivity|]. split; [exact Hok|]. split; [reflexivity|].
    split; [exact Hfl|]. split; [exists []; symmetry; apply app_nil_r|]. reflexivity.
Qed.

(** The database an upsert ends with, the empty one when it fails. *)
Definition get_db (o : option IDB) : IDB :=
  match o with Some db => db | None => {| db_indices := []; db_points := [] |} end.

(** A point's id, index and date: what an upsert never rewrites. *)
Definition point_head (p : IndexPoint) : nat * nat * Z := (point_id p, point_index_id p, point_date p).

Lemma set_value_heads : forall pid v ps, map point_head (set_value pid v ps) = map point_head ps.
Proof.
  intros pid v ps. unfold set_value. rewrite map_map. apply map_ext.
  intros p. destruct (Nat.eqb (point_id p) pid); reflexivity.
Qed.

Lemma upsert_point_rt : forall db d c v, idb_ok db ->
  exists db', upsert_point db (d, c, v) = Some db' /\ idb_ok db' /\
    (exists ni, db_indices db' = List.app (db_indices db) ni) /\
    (exists np, map point_head (db_points db') = List.app (map point_head (db_points db)) np) /\
    forall c' d', lookup_values db' c' d'
                  = if String.eqb c' c && Z.eqb d' d then [v] else lookup_values db c' d'.
Proof.
  intros db d c v Hok.
  destruct (get_index_rt db c Hok) as [db1 [i [Hg [Hok1 [Hp1 [Hfi [[ni Hni] Hl1]]]]]]].
  unfold upsert_point. cbv beta iota zeta. rewrite Hg.
  pose proof Hok1 as [Hc1 [Hi1 [Hp1' [Hk1 Hf1]]]].
  destruct (filter_one_In _ _ _ Hfi) as [Hin_i Hci]. apply String.eqb_eq in Hci.
  set (P := fun p => Nat.eqb (point_index_id p) (index_id i) && Z.eqb (point_date p) d).
  assert (HP : forall p, P p = true -> point_key p = (index_id i, d)).
  { intros p Hp. unfold P in Hp. apply andb_true_iff in Hp. destruct Hp as [H1 H2].
    apply Nat.eqb_eq in H1. apply Z.eqb_eq in H2. unfold point_key. rewrite H1, H2. reflexivity. }
  assert (Hle : List.length (filter P (db_points db1)) <= 1).
  { apply (filter_key_le1 point_key); [|exact Hk1].
    intros x y Hx Hy. rewrite (HP x Hx), (HP y Hy). reflexivity. }
  (* a code and an index id name the same index *)
  assert (Hsame : forall j, In j (db_indices db1) -> index_id j = index_id i -> code j = c).
  { intros j Hj E. rewrite <- Hci. f_equal. exact (NoDup_map_inj index_id _ j i Hi1 Hj Hin_i E). }
  destruct (scalar_le1 _ Hle) as [[Hfp Hs]|[p [Hfp Hs]]]; rewrite Hs.
  - set (np := {| point_id := next_id (map point_id (db_points db1)); point_index_id := index_id i;
                  point_date := d; value := v |}).
    eexists. split; [reflexivity|]. split; [|split; [|split]].
    + unfold idb_ok; simpl. rewrite !map_app. repeat split; try assumption.
      * apply NoDup_snoc; [exact Hp1'|]. intros Hin. exact (next_id_fresh _ _ Hin eq_refl).
      * apply NoDup_snoc; [exact Hk1|].
        apply (not_in_map_of_filter_nil point_key P); [|exact Hfp].
        intros x Ex. unfold P, point_key in *. injection Ex as E1 E2. rewrite E1, E2.
        rewrite Nat.eqb_refl, Z.eqb_refl. reflexivity.
      * apply Forall_app. split; [exact Hf1|]. constructor; [|constructor].
        simpl. apply in_map, Hin_i.
    + exists ni. simpl. exact Hni.
    + exists [point_head np]. simpl. rewrite Hp1. apply map_app.
    + intros c' d'. rewrite <- Hl1.
      destruct (String.eqb c' c) eqn:Ec; destruct (Z.eqb d' d) eqn:Ed; simpl.
      * apply String.eqb_eq in Ec. apply Z.eqb_eq in Ed. subst c' d'.
        assert (Hf' : filter (fun j => String.eqb (code j) c)
                        (db_indices {| db_indices := db_indices db1;
                                       db_points := List.app (db_points db1) [np] |}) = [i])
          by exact Hfi.
        rewrite (lookup_values_one _ _ _ _ Hf'). simpl. rewrite pts_at_app.
        change (pts_at (db_points db1) (index_id i) d) with (filter P (db_points db1)).
        rewrite Hfp. simpl. rewrite Nat.eqb_refl, Z.eqb_refl. reflexivity.
      * apply lookup_values_ext; [reflexivity|]. intros j Hj Ecj. simpl. rewrite pts_at_app.
        simpl. rewrite (Z.eqb_sym d d'), Ed, andb_false_r, app_nil_r. reflexivity.
      * apply lookup_values_ext; [reflexivity|]. intros j Hj Ecj. simpl. rewrite pts_at_app.
        simpl. destruct (Nat.eqb (index_id i) (index_id j)) eqn:Eij; simpl; [|rewrite app_nil_r; reflexivity].
        apply Nat.eqb_eq in Eij. rewrite (Hsame j Hj (eq_sym Eij)) in Ecj. subst c'.
        rewrite String.eqb_refl in Ec. discriminate.
      * apply lookup_values_ext; [reflexivity|]. intros j Hj Ecj. simpl. rewrite pts_at_app.
        simpl. rewrite (Z.eqb_sym d d'), Ed, andb_false_r, app_nil_r. reflexivity.
  - destruct (filter_one_In _ _ _ Hfp) as [Hin_p HPp].
    eexists. split; [reflexivity|]. split; [|split; [|split]].
    + unfold idb_ok; simpl. repeat split; try assumption.
      * rewrite set_value_ids. exact Hp1'.
      * rewrite set_value_keys. exact Hk1.
      * apply fk_iff. rewrite set_value_index_ids. apply fk_iff. exact Hf1.
    + exists ni. simpl. exact Hni.
    + exists []. simpl. rewrite app_nil_r, set_value_heads, Hp1. reflexivity.
    + intros c' d'. rewrite <- Hl1.
      destruct (String.eqb c' c && Z.eqb d' d) eqn:Ecd.
      * apply andb_true_iff in Ecd. destruct Ecd as [Ec Ed].
        apply String.eqb_eq in Ec. apply Z.eqb_eq in Ed. subst c' d'.
        assert (Hf' : filter (fun j => String.eqb (code j) c)
                        (db_indices {| db_indices := db_indices db1;
                                       db_points := set_value (point_id p) v (db_points db1) |}) = [i])
          by exact Hfi.
        rewrite (lookup_values_one _ _ _ _ Hf'). simpl. rewrite pts_at_set_value.
        change (pts_at (db_points db1) (index_id i) d) with (filter P (db_points db1)).
        rewrite Hfp. unfold set_value. simpl. rewrite Nat.eqb_refl. reflexivity.
      * apply lookup_values_ext; [reflexivity|]. intros j Hj Ecj. simpl.
        rewrite pts_at_set_value, set_value_other; [reflexivity|].
        intros q Hq Eq. unfold pts_at in Hq. apply filter_In in Hq. destruct Hq as [Hq Pq].
        rewrite <- (NoDup_map_inj point_id _ q p Hp1' Hq Hin_p Eq) in HPp.
        unfold P in HPp. apply andb_true_iff in HPp, Pq.
        destruct HPp as [A1 A2]. destruct Pq as [B1 B2].
        apply Nat.eqb_eq in A1, B1. apply Z.eqb_eq in A2, B2.
        rewrite (Hsame j Hj ltac:(congruence)) in Ecj. subst c'.
        rewrite String.eqb_refl in Ecd. simpl in Ecd. rewrite <- B2, A2, Z.eqb_refl in Ecd.
        discriminate.
Qed.

Lemma upsert_df_rt_aux : forall rows db, idb_ok db ->
  exists db', _upsert_df rows db = Some db' /\ idb_ok db' /\
    forall c d, lookup_values db' c d
                = match last_value rows c d with Some v => [v] | None => lookup_values db c d end.
Proof.
  induction rows as [|[[d0 c0] v0] rows IH]; intros db Hok; cbn [_upsert_df last_value].
  - exists db. split; [reflexivity|]. split; [exact Hok|]. reflexivity.
  - destruct (upsert_point_rt db d0 c0 v0 Hok) as [db1 [-> [Hok1 [_ [_ Hl1]]]]].
    destruct (IH db1 Hok1) as [db' [Hr [Hok' Hl']]].
    exists db'. split; [exact Hr|]. split; [exact Hok'|]. intros c d.
    rewrite Hl'. destruct (last_value rows c d); [reflexivity|].
    rewrite Hl1, (String.eqb_sym c0 c), (Z.eqb_sym d0 d). destruct (_ && _); reflexivity.
Qed.

Lemma get_index_append : forall db c db1 iid, get_index db c = Some (db1, iid) ->
  (exists ni, db_indices db1 = List.app (db_indices db) ni) /\ db_points db1 = db_points db.
Proof.
  intros db c db1 iid H. unfold get_index in H.
  destruct (scalar_one_or_none (filter (fun i => String.eqb (code i) c) (db_indices db))) as [|i|];
    [injection H as <- _|injection H as <- _|discriminate]; simpl.
  - split; [eexists; reflexivity|reflexivity].
  - split; [exists []; symmetry; apply app_nil_r|reflexivity].
Qed.

Lemma upsert_point_append : forall db row db', upsert_point db row = Some db' ->
  (exists ni, db_indices db' = List.app (db_indices db) ni) /\
  (exists np, map point_head (db_points db') = List.app (map point_head (db_points db)) np).
Proof.
  intros db [[d c] v] db' H. unfold upsert_point in H. cbv beta iota zeta in H.
  destruct (get_index db c) as [[db1 iid]|] eqn:Eg; [|discriminate].
  destruct (get_index_append _ _ _ _ Eg) as [[ni Hni] Hp].
  destruct (scalar_one_or_none _) as [|p|];
    [injection H as <-|injection H as <-|discriminate]; simpl.
  - split; [exists ni; exact Hni|]. eexists. rewrite map_app, Hp. reflexivity.
  - split; [exists ni; exact Hni|]. exists []. rewrite set_value_heads, Hp, app_nil_r. reflexivity.
Qed.

Lemma upsert_df_append_aux : forall rows db db', _upsert_df rows db = Some db' ->
  (exists ni, db_indices db' = List.app (db_indices db) ni) /\
  (exists np, map point_head (db_points db') = List.app (map point_head (db_points db)) np).
Proof.
  induction rows as [|r rows IH]; intros db db' H; simpl in H.
  - injection H as <-. split; exists []; symmetry; apply app_nil_r.
  - destruct (upsert_point db r) as [db1|] eqn:E; [|discriminate].
    destruct (upsert_point_append _ _ _ E) as [[n1 H1] [m1 K1]].
    destruct (IH _ _ H) as [[n2 H2] [m2 K2]].
    split; [exists (List.app n1 n2)|exists (List.app m1 m2)].
    + rewrite H2, H1, app_assoc. reflexivity.
    + rewrite K2, K1, app_assoc. reflexivity.
Qed.

Lemma import_rt_aux : forall to_datetime to_numeric f db, idb_ok db ->
  Forall (fun c => In c (csv_columns f)) expected ->
  exists db', import_indices_from_csv to_datetime to_numeric (Some f) db = Some db' /\ idb_ok db' /\
    forall c d, lookup_values db' c d
      = match last_value (valid_rows to_datetime to_numeric (csv_rows f)) c d with
        | Some v => [v] | None => lookup_values db c d end.
Proof.
  intros to_datetime to_numeric f db Hok Hcols. unfold import_indices_from_csv.
  destruct (existsb (fun c => negb (existsb (String.eqb c) (csv_columns f))) expected) eqn:E.
  - exfalso. apply existsb_exists in E. destruct E as [c [Hc Hn]].
    rewrite Forall_forall in Hcols. specialize (Hcols c Hc). apply negb_true_iff in Hn.
    assert (Ht : existsb (String.eqb c) (csv_columns f) = true).
    { apply existsb_exists. exists c. split; [exact Hcols|apply String.eqb_refl]. }
    congruence.
  - destruct (valid_rows to_datetime to_numeric (csv_rows f)) as [|r rows] eqn:Ev.
    + exists db. split; [reflexivity|]. split; [exact Hok|]. reflexivity.
    + apply upsert_df_rt_aux, Hok.
Qed.

(** X11: in one [_upsert_df] call on a database meeting the constraints of
    db.py, the value stored for a code and a date is the value of the frame's
    last row with that code and date; other codes and dates keep their values;
    the constraints still hold afterwards. *)
Theorem upsert_df_last_write : forall rows db, idb_ok db ->
  exists db', _upsert_df rows db = Some db' /\ idb_ok db' /\
    forall c d, lookup_values db' c d
                = match last_value rows c d with Some v => [v] | None => lookup_values db c d end.
Proof. intros rows db Hok. exact (upsert_df_rt_aux rows db Hok). Qed.

Definition rows3 : list (Z * string * Q) :=
  [(1%Z, "SCFI"%string, 1%Q); (1%Z, "SCFI"%string, 2%Q); (2%Z, "WCI"%string, 3%Q)].

Lemma idb_scfi_ok : idb_ok idb_scfi.
Proof. repeat split; simpl; repeat constructor; simpl; tauto. Qed.

Lemma upsert_df_last_write_witness :
  idb_ok idb_scfi /\
  exists db', _upsert_df rows3 idb_scfi = Some db' /\ idb_ok db' /\
    lookup_values db' "SCFI"%string 1%Z
    = match last_value rows3 "SCFI"%string 1%Z with Some v => [v] | None => lookup_values idb_scfi "SCFI"%string 1%Z end.
Proof.
  split; [exact idb_scfi_ok|].
  destruct (upsert_df_last_write rows3 idb_scfi idb_scfi_ok) as [db' [H1 [H2 H3]]].
  exists db'. split; [exact H1|split; [exact H2|exact (H3 _ _)]].
Defined.

(** X12: [_upsert_df] only appends: the indices it ends with are the ones it
    started with followed by new ones, and the index points keep their id,
    index and date, in order, followed by new ones. *)
Theorem upsert_df_append_only : forall rows db db', _upsert_df rows db = Some db' ->
  (exists ni, db_indices db' = List.app (db_indices db) ni) /\
  (exists np, map point_head (db_points db') = List.app (map point_head (db_points db)) np).
Proof. intros rows db db' H. exact (upsert_df_append_aux rows db db' H). Qed.

Lemma upsert_df_append_only_witness :
  _upsert_df rows3 idb_scfi = Some (get_db (_upsert_df rows3 idb_scfi)) /\
  (exists ni, db_indices (get_db (_upsert_df rows3 idb_scfi)) = List.app (db_indices idb_scfi) ni) /\
  (exists np, map point_head (db_points (get_db (_upsert_df rows3 idb_scfi)))
              = List.app (map point_head (db_points idb_scfi)) np).
Proof.
  assert (H : _upsert_df rows3 idb_scfi = Some (get_db (_upsert_df rows3 idb_scfi)))
    by (vm_compute; reflexivity).
  split; [exact H|]. exact (upsert_df_append_only _ _ _ H).
Defined.

(** X13: importing a CSV file that has the four expected columns into a
    database meeting the constraints of db.py stores, for each code and date,
    the value of the last valid row with that code and date, and keeps every
    other value. *)
Theorem import_indices_last_write : forall to_datetime to_numeric f db, idb_ok db ->
  Forall (fun c => In c (csv_columns f)) expected ->
  exists db', import_indices_from_csv to_datetime to_numeric (Some f) db = Some db' /\ idb_ok db' /\
    forall c d, lookup_values db' c d
      = match last_value (valid_rows to_datetime to_numeric (csv_rows f)) c d with
        | Some v => [v] | None => lookup_values db c d end.
Proof. intros to_datetime to_numeric f db H1 H2. exact (import_rt_aux to_datetime to_numeric f db H1 H2). Qed.

Lemma import_indices_last_write_witness :
  idb_ok idb_scfi /\ Forall (fun c => In c (csv_columns (csv_one scfi_row))) expected /\
  exists db', import_indices_from_csv sample_date sample_number (Some (csv_one scfi_row)) idb_scfi = Some db' /\
    idb_ok db' /\
    lookup_values db' "SCFI"%string 1704412800%Z
      = match last_value (valid_rows sample_date sample_number (csv_rows (csv_one scfi_row)))
                         "SCFI"%string 1704412800%Z with
        | Some v => [v] | None => lookup_values idb_scfi "SCFI"%string 1704412800%Z end.
Proof.
  assert (H2 : Forall (fun c => In c (csv_columns (csv_one scfi_row))) expected)
    by (simpl; repeat constructor; simpl; tauto).
  split; [exact idb_scfi_ok|split; [exact H2|]].
  destruct (import_indices_last_write sample_date sample_number _ _ idb_scfi_ok H2) as [db' [A [B C]]].
  exists db'. split; [exact A|split; [exact B|exact (C _ _)]].
Defined.

End IndicesRT.

Module PricesRT.
Import Indices Store Queries StoreFacts IndicesFacts IndicesRT.
Local Open Scope nat_scope.

(** [SELECT open, high, low, close, volume FROM prices WHERE asset_id = aid AND date = d]. *)
Definition bars_at (ps : list Price) (aid : nat) (d : Z) : list Bar :=
  map bar (filter (same_price aid d) ps).

(** A price's id, asset and date: what an upsert never rewrites. *)
Definition price_head (p : Price) : nat * nat * Z := (price_id p, price_asset_id p, price_date p).

(** The state an upsert ends with, the empty one when it fails. *)
Definition get_st (o : option (list Asset * list Price)) : list Asset * list Price :=
  match o with Some st => st | None => ([], []) end.

Lemma filter_map_same : forall aid d (g : Price -> Price) ps,
  (forall p, same_price aid d (g p) = same_price aid d p) ->
  filter (same_price aid d) (map g ps) = map g (filter (same_price aid d) ps).
Proof.
  intros aid d g ps H. induction ps as [|p ps IH]; simpl; [reflexivity|].
  rewrite H. destruct (same_price aid d p); simpl; rewrite IH; reflexivity.
Qed.

Lemma same_price_key : forall aid d p, same_price aid d p = true -> price_key p = (aid, d).
Proof.
  intros aid d p H. unfold same_price in H. apply andb_true_iff in H. destruct H as [H1 H2].
  apply Nat.eqb_eq in H1. apply Z.eqb_eq in H2. unfold price_key. rewrite H1, H2. reflexivity.
Qed.

Lemma insert_price_rt : forall aid d b ps, NoDup (map price_key ps) ->
  forall aid' d', bars_at (insert_price aid d b ps) aid' d'
                  = if Nat.eqb aid' aid && Z.eqb d' d then [b] else bars_at ps aid' d'.
Proof.
  intros aid d b ps Hn aid' d'. unfold insert_price, bars_at.
  destruct (existsb (same_price aid d) ps) eqn:E.
  - rewrite filter_map_same; [|intros p; destruct (same_price aid d p); reflexivity].
    rewrite map_map.
    destruct (Nat.eqb aid' aid && Z.eqb d' d) eqn:Ead.
    + apply andb_true_iff in Ead. destruct Ead as [E1 E2].
      apply Nat.eqb_eq in E1. apply Z.eqb_eq in E2. subst aid' d'.
      assert (Hle : List.length (filter (same_price aid d) ps) <= 1).
      { apply (filter_key_le1 price_key); [|exact Hn].
        intros x y Hx Hy. rewrite (same_price_key _ _ _ Hx), (same_price_key _ _ _ Hy). reflexivity. }
      destruct (scalar_le1 _ Hle) as [[Hf _]|[p [Hf _]]].
      * exfalso. apply existsb_exists in E. destruct E as [p [Hp Ep]].
        assert (Hq : In p (filter (same_price aid d) ps)) by (apply filter_In; split; assumption).
        rewrite Hf in Hq. destruct Hq.
      * rewrite Hf. simpl. destruct (filter_one_In _ _ _ Hf) as [_ Hp]. rewrite Hp. reflexivity.
    + apply map_ext_in. intros p Hp. apply filter_In in Hp. destruct Hp as [_ Hp].
      destruct (same_price aid d p) eqn:Ep; [|reflexivity].
      exfalso. pose proof (same_price_key _ _ _ Hp) as K1. pose proof (same_price_key _ _ _ Ep) as K2.
      rewrite K1 in K2. injection K2 as -> ->. rewrite Nat.eqb_refl, Z.eqb_refl in Ead. discriminate.
  - rewrite filter_app, map_app. simpl. unfold same_price at 2. simpl.
    rewrite (Nat.eqb_sym aid aid'), (Z.eqb_sym d d').
    destruct (Nat.eqb aid' aid && Z.eqb d' d) eqn:Ead; simpl; [|apply app_nil_r].
    apply andb_true_iff in Ead. destruct Ead as [E1 E2].
    apply Nat.eqb_eq in E1. apply Z.eqb_eq in E2. subst aid' d'.
    rewrite (filter_nil_of_existsb _ _ E). reflexivity.
Qed.

Lemma insert_price_fk : forall aid d b ps L, In aid L ->
  Forall (fun p => In (price_asset_id p) L) ps ->
  Forall (fun p => In (price_asset_id p) L) (insert_price aid d b ps).
Proof.
  intros aid d b ps L Ha H. unfold insert_price. destruct (existsb (same_price aid d) ps).
  - rewrite Forall_forall in H |- *. intros q Hq. apply in_map_iff in Hq. destruct Hq as [p [<- Hp]].
    destruct (same_price aid d p); simpl; apply H, Hp.
  - apply Forall_app. split; [exact H|]. constructor; [exact Ha|constructor].
Qed.

Lemma fold_insert_rt : forall t aid group ps,
  NoDup (map price_key ps) -> Forall (fun r => pi_ticker r = t) group ->
  NoDup (map price_key (fold_left (fun ps r => insert_price aid (pi_date r) (pi_bar r) ps) group ps)) /\
  forall aid' d', bars_at (fold_left (fun ps r => insert_price aid (pi_date r) (pi_bar r) ps) group ps) aid' d'
    = if Nat.eqb aid' aid
      then match last_bar group t d' with Some b => [b] | None => bars_at ps aid' d' end
      else bars_at ps aid' d'.
Proof.
  intros t aid group. induction group as [|r group IH]; intros ps Hn Hg; simpl.
  - split; [exact Hn|]. intros aid' d'. destruct (Nat.eqb aid' aid); reflexivity.
  - inversion Hg as [|? ? Hr Hg']; subst.
    destruct (IH _ (insert_price_nodup aid (pi_date r) (pi_bar r) ps Hn) Hg') as [Hn' Hb'].
    split; [exact Hn'|]. intros aid' d'. rewrite Hb'.
    rewrite (insert_price_rt _ _ _ _ Hn), String.eqb_refl, (Z.eqb_sym (pi_date r) d').
    destruct (Nat.eqb aid' aid); simpl; [|reflexivity].
    destruct (last_bar group (pi_ticker r) d'); [reflexivity|].
    destruct (Z.eqb d' (pi_date r)); reflexivity.
Qed.

Lemma fold_insert_fk : forall aid group ps L, In aid L ->
  Forall (fun p => In (price_asset_id p) L) ps ->
  Forall (fun p => In (price_asset_id p) L)
         (fold_left (fun ps r => insert_price aid (pi_date r) (pi_bar r) ps) group ps).
Proof.
  intros aid group. induction group as [|r group IH]; intros ps L Ha H; simpl; [exact H|].
  apply IH; [exact Ha|]. apply insert_price_fk; assumption.
Qed.

Lemma lookup_bars_ext : forall assets ps ps' t d,
  (forall a, In a assets -> ticker a = t -> bars_at ps' (asset_id a) d = bars_at ps (asset_id a) d) ->
  lookup_bars (assets, ps') t d = lookup_bars (assets, ps) t d.
Proof.
  intros assets ps ps' t d. unfold lookup_bars. simpl.
  induction assets as [|a assets IH]; intros H; simpl; [reflexivity|].
  destruct (String.eqb (ticker a) t) eqn:E; simpl.
  - apply String.eqb_eq in E. change (map bar (filter (same_price (asset_id a) d) ps'))
      with (bars_at ps' (asset_id a) d).
    change (map bar (filter (same_price (asset_id a) d) ps)) with (bars_at ps (asset_id a) d).
    rewrite (H a (or_introl eq_refl) E). f_equal.
    apply IH. intros k Hk. apply H. right. exact Hk.
  - apply IH. intros k Hk. apply H. right. exact Hk.
Qed.

Lemma lookup_bars_one : forall assets ps t d a,
  filter (fun a => String.eqb (ticker a) t) assets = [a] ->
  lookup_bars (assets, ps) t d = bars_at ps (asset_id a) d.
Proof. intros assets ps t d a H. unfold lookup_bars. simpl. rewrite H. simpl. apply app_nil_r. Qed.

Lemma get_asset_rt : forall assets ps t, prices_ok (assets, ps) ->
  exists assets' a, get_asset assets t = Some (assets', asset_id a) /\
    prices_ok (assets', ps) /\
    filter (fun a => String.eqb (ticker a) t) assets' = [a] /\
    (exists na, assets' = List.app assets na) /\
    forall t' d', lookup_bars (assets', ps) t' d' = lookup_bars (assets, ps) t' d'.
Proof.
  intros assets ps t Hok. pose proof Hok as [Ht [Hi [Hk Hf]]]. simpl in *. unfold get_asset.
  assert (Hle : List.length (filter (fun a => String.eqb (ticker a) t) assets) <= 1).
  { apply (filter_key_le1 ticker); [|exact Ht].
    intros x y Hx Hy. apply String.eqb_eq in Hx, Hy. congruence. }
  destruct (scalar_le1 _ Hle) as [[Hfl Hs]|[a [Hfl Hs]]]; rewrite Hs.
  - set (aid := next_id (map asset_id assets)).
    exists (List.app assets [{| asset_id := aid; ticker := t |}]), {| asset_id := aid; ticker := t |}.
    split; [reflexivity|]. split; [|split; [|split]].
    + unfold prices_ok; simpl. rewrite !map_app. repeat split.
      * apply NoDup_snoc; [exact Ht|].
        apply (not_in_map_of_filter_nil ticker (fun a => String.eqb (ticker a) t)); [|exact Hfl].
        intros x Ex. apply String.eqb_eq. exact Ex.
      * apply NoDup_snoc; [exact Hi|]. intros Hin. exact (next_id_fresh _ _ Hin eq_refl).
      * exact Hk.
      * rewrite Forall_forall in Hf |- *. intros p Hin. apply in_or_app. left. apply Hf, Hin.
    + rewrite filter_app, Hfl. simpl. rewrite String.eqb_refl. reflexivity.
    + eexists. reflexivity.
    + intros t' d'. unfold lookup_bars. simpl. rewrite filter_app, flat_map_app. simpl.
      destruct (String.eqb t t'); simpl; rewrite ?app_nil_r; [|reflexivity].
      assert (E : filter (same_price aid d') ps = []).
      { destruct (filter (same_price aid d') ps) as [|q qs] eqn:Eq; [reflexivity|exfalso].
        assert (Hq : In q (filter (same_price aid d') ps)) by (rewrite Eq; left; reflexivity).
        apply filter_In in Hq. destruct Hq as [Hq Pq].
        unfold same_price in Pq. apply andb_true_iff in Pq. destruct Pq as [Pq _]. apply Nat.eqb_eq in Pq.
        rewrite Forall_forall in Hf. specialize (Hf q Hq). rewrite Pq in Hf.
        exact (next_id_fresh _ _ Hf eq_refl). }
      rewrite E. simpl. apply app_nil_r.
  - exists assets, a. split; [reflexivity|]. split; [exact Hok|]. split; [exact Hfl|].
    split; [exists []; symmetry; apply app_nil_r|]. reflexivity.
Qed.

Lemma upsert_group_rt : forall st t group, prices_ok st -> Forall (fun r => pi_ticker r = t) group ->
  exists st', upsert_group st t group = Some st' /\ prices_ok st' /\
    forall t' d', lookup_bars st' t' d'
      = if String.eqb t' t
        then match last_bar group t d' with Some b => [b] | None => lookup_bars st t' d' end
        else lookup_bars st t' d'.
Proof.
  intros [assets ps] t group Hok Hg. unfold upsert_group. simpl.
  destruct (get_asset_rt assets ps t Hok) as [assets' [a [-> [Hok' [Hfa [_ Hl]]]]]].
  pose proof Hok' as [Ht' [Hi' [Hk' Hf']]]. simpl in *.
  destruct (fold_insert_rt t (asset_id a) group ps Hk' Hg) as [Hn Hb].
  destruct (filter_one_In _ _ _ Hfa) as [Hin_a Hta]. apply String.eqb_eq in Hta.
  eexists. split; [reflexivity|]. split.
  - unfold prices_ok. simpl. repeat split; try assumption.
    apply fold_insert_fk; [apply in_map, Hin_a|exact Hf'].
  - intros t' d'. rewrite <- Hl.
    destruct (String.eqb t' t) eqn:E.
    + apply String.eqb_eq in E. subst t'.
      rewrite !(lookup_bars_one _ _ _ _ _ Hfa), Hb, Nat.eqb_refl. reflexivity.
    + apply lookup_bars_ext. intros a' Ha' Ht. rewrite Hb.
      destruct (Nat.eqb (asset_id a') (asset_id a)) eqn:Eid; [|reflexivity].
      exfalso. apply Nat.eqb_eq in Eid.
      rewrite (NoDup_map_inj asset_id _ a' a Hi' Ha' Hin_a Eid), Hta in Ht. subst t'.
      rewrite String.eqb_refl in E. discriminate.
Qed.

Lemma last_bar_filter : forall df t d,
  last_bar (filter (fun r => String.eqb (pi_ticker r) t) df) t d = last_bar df t d.
Proof.
  induction df as [|r df IH]; intros t d; simpl; [reflexivity|].
  destruct (String.eqb (pi_ticker r) t) eqn:E; simpl; rewrite IH; [rewrite E; reflexivity|].
  destruct (last_bar df t d); reflexivity.
Qed.

Lemma last_bar_none : forall df t d, ~ In t (map pi_ticker df) -> last_bar df t d = None.
Proof.
  induction df as [|r df IH]; intros t d H; simpl; [reflexivity|].
  rewrite IH; [|intros Hin; apply H; right; exact Hin].
  destruct (String.eqb (pi_ticker r) t) eqn:E; [|reflexivity].
  apply String.eqb_eq in E. exfalso. apply H. left. exact E.
Qed.

Lemma upsert_fold_rt : forall df ts st, prices_ok st ->
  exists st', fold_left (fun acc t =>
    match acc with
    | None => None
    | Some st' => upsert_group st' t (filter (fun r => String.eqb (pi_ticker r) t) df)
    end) ts (Some st) = Some st' /\ prices_ok st' /\
    forall t' d', lookup_bars st' t' d'
      = if existsb (String.eqb t') ts
        then match last_bar df t' d' with Some b => [b] | None => lookup_bars st t' d' end
        else lookup_bars st t' d'.
Proof.
  intros df ts. induction ts as [|t ts IH]; intros st Hok; simpl.
  - exists st. split; [reflexivity|]. split; [exact Hok|]. reflexivity.
  - assert (Hg : Forall (fun r => pi_ticker r = t) (filter (fun r => String.eqb (pi_ticker r) t) df)).
    { apply Forall_forall. intros r Hr. apply filter_In in Hr. apply String.eqb_eq, Hr. }
    destruct (upsert_group_rt st t _ Hok Hg) as [st1 [-> [Hok1 Hl1]]].
    destruct (IH st1 Hok1) as [st' [Hr [Hok' Hl']]].
    exists st'. split; [exact Hr|]. split; [exact Hok'|]. intros t' d'.
    rewrite Hl', Hl1, last_bar_filter.
    destruct (String.eqb t' t) eqn:E.
    + apply String.eqb_eq in E. subst t'. simpl.
      destruct (existsb (String.eqb t) ts); destruct (last_bar df t d'); reflexivity.
    + simpl. reflexivity.
Qed.

Lemma upsert_prices_rt_aux : forall df st, prices_ok st ->
  exists st', upsert_prices df st = Some st' /\ prices_ok st' /\
    forall t d, lookup_bars st' t d
                = match last_bar df t d with Some b => [b] | None => lookup_bars st t d end.
Proof.
  intros df st Hok. unfold upsert_prices.
  destruct (upsert_fold_rt df (Analytics.pivot_columns (map pi_ticker df)) st Hok) as [st' [H1 [H2 H3]]].
  exists st'. split; [exact H1|]. split; [exact H2|]. intros t d. rewrite H3.
  destruct (existsb (String.eqb t) (Analytics.pivot_columns (map pi_ticker df))) eqn:E; [reflexivity|].
  rewrite last_bar_none; [reflexivity|]. intros Hin.
  apply (LabelFacts.existsb_pivot (map pi_ticker df) t) in Hin. congruence.
Qed.

Lemma insert_price_heads : forall aid d b ps,
  exists np, map price_head (insert_price aid d b ps) = List.app (map price_head ps) np.
Proof.
  intros aid d b ps. unfold insert_price. destruct (existsb (same_price aid d) ps).
  - exists []. rewrite app_nil_r, map_map. apply map_ext.
    intros p. destruct (same_price aid d p); reflexivity.
  - rewrite map_app. eexists. reflexivity.
Qed.

Lemma upsert_group_append : forall st t group st', upsert_group st t group = Some st' ->
  (exists na, fst st' = List.app (fst st) na) /\
  (exists np, map price_head (snd st') = List.app (map price_head (snd st)) np).
Proof.
  intros [assets ps] t group st' H. unfold upsert_group in H. simpl in *.
  destruct (get_asset assets t) as [[assets' aid]|] eqn:Eg; [|discriminate].
  injection H as <-. simpl. split.
  - unfold get_asset in Eg.
    destruct (scalar_one_or_none (filter (fun a => String.eqb (ticker a) t) assets)) as [|a|];
      injection Eg as <- _ || discriminate Eg.
    + eexists. reflexivity.
    + exists []. symmetry. apply app_nil_r.
  - clear Eg. revert ps. induction group as [|r group IH]; intros ps; simpl.
    + exists []. symmetry. apply app_nil_r.
    + destruct (insert_price_heads aid (pi_date r) (pi_bar r) ps) as [n1 H1].
      destruct (IH (insert_price aid (pi_date r) (pi_bar r) ps)) as [n2 H2].
      exists (List.app n1 n2). rewrite H2, H1, app_assoc. reflexivity.
Qed.

Lemma fold_none : forall (f : list Asset * list Price -> string -> option (list Asset * list Price)) ts,
  fold_left (fun acc t => match acc with None => None | Some st => f st t end) ts None = None.
Proof. intros f ts. induction ts as [|t ts IH]; simpl; [reflexivity|exact IH]. Qed.

Lemma upsert_prices_append_aux : forall df st st', upsert_prices df st = Some st' ->
  (exists na, fst st' = List.app (fst st) na) /\
  (exists np, map price_head (snd st') = List.app (map price_head (snd st)) np).
Proof.
  intros df st st'. unfold upsert_prices.
  generalize (Analytics.pivot_columns (map pi_ticker df)) as ts. intros ts.
  revert st. induction ts as [|t ts IH]; intros st H; simpl in H.
  - injection H as <-. split; exists []; symmetry; apply app_nil_r.
  - destruct (upsert_group st t (filter (fun r => String.eqb (pi_ticker r) t) df)) as [st1|] eqn:E.
    + destruct (upsert_group_append _ _ _ _ E) as [[n1 H1] [m1 K1]].
      destruct (IH _ H) as [[n2 H2] [m2 K2]].
      split; [exists (List.app n1 n2)|exists (List.app m1 m2)].
      * rewrite H2, H1, app_assoc. reflexivity.
      * rewrite K2, K1, app_assoc. reflexivity.
    + rewrite fold_none in H. discriminate.
Qed.

(** X14: [upsert_prices] on a state meeting the constraints of db.py stores,
    for each ticker and date, the bar of the frame's last row with that ticker
    and date, and keeps every other bar; the constraints still hold. *)
Theorem upsert_prices_last_write : forall df st, prices_ok st ->
  exists st', upsert_prices df st = Some st' /\ prices_ok st' /\
    forall t d, lookup_bars st' t d
                = match last_bar df t d with Some b => [b] | None => lookup_bars st t d end.
Proof. intros df st Hok. exact (upsert_prices_rt_aux df st Hok). Qed.

Definition zim_st : list Asset * list Price := ([{| asset_id := 1; ticker := "ZIM"%string |}], []).

Definition df3 : list PriceIn :=
  [{| pi_ticker := "ZIM"%string; pi_date := 1%Z; pi_bar := bar0 |};
   {| pi_ticker := "ZIM"%string; pi_date := 1%Z; pi_bar := bar1 |};
   {| pi_ticker := "MATX"%string; pi_date := 2%Z; pi_bar := bar0 |}].

Lemma zim_st_ok : prices_ok zim_st.
Proof. repeat split; simpl; repeat constructor; simpl; tauto. Qed.

Lemma upsert_prices_last_write_witness :
  prices_ok zim_st /\
  exists st', upsert_prices df3 zim_st = Some st' /\ prices_ok st' /\
    lookup_bars st' "ZIM"%string 1%Z
    = match last_bar df3 "ZIM"%string 1%Z with Some b => [b] | None => lookup_bars zim_st "ZIM"%string 1%Z end.
Proof.
  split; [exact zim_st_ok|].
  destruct (upsert_prices_last_write df3 zim_st zim_st_ok) as [st' [H1 [H2 H3]]].
  exists st'. split; [exact H1|split; [exact H2|exact (H3 _ _)]].
Defined.

(** X15: [upsert_prices] only appends: the assets it ends with are the ones it
    started with followed by new ones, and the prices keep their id, asset
    and date, in order, followed by new ones. *)
Theorem upsert_prices_append_only : forall df st st', upsert_prices df st = Some st' ->
  (exists na, fst st' = List.app (fst st) na) /\
  (exists np, map price_head (snd st') = List.app (map price_head (snd st)) np).
Proof. intros df st st' H. exact (upsert_prices_append_aux df st st' H). Qed.

Lemma upsert_prices_append_only_witness :
  upsert_prices df3 zim_st = Some (get_st (upsert_prices df3 zim_st)) /\
  (exists na, fst (get_st (upsert_prices df3 zim_st)) = List.app (fst zim_st) na) /\
  (exists np, map price_head (snd (get_st (upsert_prices df3 zim_st)))
              = List.app (map price_head (snd zim_st)) np).
Proof.
  assert (H : upsert_prices df3 zim_st = Some (get_st (upsert_prices df3 zim_st)))
    by (vm_compute; reflexivity).
  split; [exact H|]. exact (upsert_prices_append_only _ _ _ H).
Defined.

End PricesRT.

Module NlpFacts.
Import Nlp.
Local Open Scope nat_scope.

Lemma pub_desc_total : forall a b, pub_desc a b = false -> pub_desc b a = true.
Proof.
  intros a b. unfold pub_desc.
  destruct (published_at a) as [x|], (published_at b) as [y|]; try discriminate; auto.
  intros H. apply Z.leb_gt in H. apply Z.leb_le. lia.
Qed.

Lemma pub_desc_trans : forall a b c,
  pub_desc a b = true -> pub_desc b c = true -> pub_desc a c = true.
Proof.
  intros a b c. unfold pub_desc.
  destruct (published_at a) as [x|], (published_at b) as [y|], (published_at c) as [z|];
    try discriminate; auto.
  intros H1 H2. apply Z.leb_le in H1, H2. apply Z.leb_le. lia.
Qed.

Lemma insert_perm {A} (leb : A -> A -> bool) x L :
  Permutation (Analytics.insert leb x L) (x :: L).
Proof.
  induction L as [|y L IH]; simpl; [reflexivity|].
  destruct (leb x y); [reflexivity|].
  rewrite IH. apply perm_swap.
Qed.

Lemma isort_perm {A} (leb : A -> A -> bool) l : Permutation (Analytics.isort leb l) l.
Proof.
  induction l as [|x l IH]; simpl; [reflexivity|].
  rewrite insert_perm. apply perm_skip, IH.
Qed.

Lemma Sorted_firstn {A} (R : A -> A -> Prop) k l : Sorted R l -> Sorted R (firstn k l).
Proof.
  revert l. induction k as [|k IH]; intros l H; simpl; [constructor|].
  destruct l as [|x l]; [constructor|].
  apply Sorted_inv in H. destruct H as [Hl Hx].
  constructor; [apply IH, Hl|].
  destruct k as [|k]; [constructor|]. destruct l as [|y l]; simpl; [constructor|].
  apply HdRel_inv in Hx. constructor. exact Hx.
Qed.

Lemma firstn_incl {A} k (l : list A) x : In x (firstn k l) -> In x l.
Proof.
  intros H. rewrite <- (firstn_skipn k l). apply in_or_app. left. exact H.
Qed.

Lemma StronglySorted_app_rel {A} (R : A -> A -> Prop) (l1 l2 : list A) a b :
  StronglySorted R (List.app l1 l2) -> In a l1 -> In b l2 -> R a b.
Proof.
  induction l1 as [|x l1 IH]; intros H Ha Hb; [destruct Ha|].
  simpl in H. apply StronglySorted_inv in H. destruct H as [H Hx].
  destruct Ha as [<-|Ha].
  - rewrite Forall_forall in Hx. apply Hx, in_or_app. right. exact Hb.
  - apply IH; assumption.
Qed.

Lemma select_items_In : forall ns ents limit n,
  In n (select_items ns ents limit) -> In n ns /\ eligible ents n = true.
Proof.
  intros ns ents limit n H. unfold select_items in H.
  apply firstn_incl in H.
  apply (Permutation_in _ (isort_perm _ _)) in H. apply filter_In in H. exact H.
Qed.

Lemma enrich_fold_rows tr eo hs : forall sel st,
  (forall it n, In it sel -> In n (fst st) -> id n = id it ->
     title n = title it /\ summary n = summary it) ->
  fst (fold_left (enrich_item tr eo hs) sel st) =
  map (fun n => if existsb (fun it => Nat.eqb (id it) (id n)) sel
                then with_summary_ai n (ai_text tr n) else n) (fst st).
Proof.
  induction sel as [|it sel IH]; intros st H; simpl.
  - clear. induction (fst st) as [|n l IHl]; simpl; congruence.
  - assert (E : fst (enrich_item tr eo hs st it) = set_summary_ai (id it) (ai_text tr it) (fst st))
      by (destruct st; reflexivity).
    rewrite IH.
    + rewrite E. unfold set_summary_ai. rewrite map_map. apply map_ext_in.
      intros n Hn. destruct (Nat.eqb (id n) (id it)) eqn:En.
      * apply Nat.eqb_eq in En.
        destruct (H it n (or_introl eq_refl) Hn En) as [Ht Hs].
        assert (Ea : ai_text tr it = ai_text tr n)
          by (unfold ai_text, summarize_text; rewrite Ht, Hs; reflexivity).
        assert (En' : Nat.eqb (id it) (id n) = true) by (apply Nat.eqb_eq; auto).
        rewrite Ea. simpl. rewrite En'. simpl.
        destruct (existsb _ sel); reflexivity.
      * assert (En' : Nat.eqb (id it) (id n) = false)
          by (rewrite Nat.eqb_sym; exact En).
        simpl. rewrite En'. reflexivity.
    + intros it' n Hit' Hn Eid. rewrite E in Hn. unfold set_summary_ai in Hn.
      apply in_map_iff in Hn. destruct Hn as [m [Em Hm]].
      destruct (Nat.eqb (id m) (id it)); subst n; apply (H it' m); simpl; auto.
Qed.

Lemma add_entities_app nid xs : forall e, exists added,
  add_entities nid xs e = List.app e added /\
  map (fun r => (news_id r, etype r, value r, score r)) added =
  map (fun x => (nid, fst (fst x), snd (fst x), snd x)) xs.
Proof.
  induction xs as [|[[t v] sc] xs IH]; intros e.
  - exists []. rewrite app_nil_r. split; reflexivity.
  - set (r := {| entity_id := Indices.next_id (map entity_id e); news_id := nid;
                 etype := t; value := v; score := sc |}).
    destruct (IH (List.app e [r])) as [added [Ha Hm]].
    exists (r :: added). split.
    + unfold add_entities in *. simpl. fold r. rewrite Ha, <- app_assoc. reflexivity.
    + simpl. rewrite Hm. reflexivity.
Qed.

Lemma add_entities_nodup nid xs : forall e,
  NoDup (map entity_id e) -> NoDup (map entity_id (add_entities nid xs e)).
Proof.
  induction xs as [|[[t v] sc] xs IH]; intros e H; [exact H|].
  unfold add_entities in *. simpl. apply IH.
  rewrite map_app. simpl. apply StoreFacts.NoDup_snoc; [exact H|].
  intros Hin. exact (IndicesFacts.next_id_fresh _ _ Hin eq_refl).
Qed.

Lemma enrich_fold_ents tr eo hs : forall sel st, exists added,
  snd (fold_left (enrich_item tr eo hs) sel st) = List.app (snd st) added /\
  map (fun r => (news_id r, etype r, value r, score r)) added =
  flat_map (fun it => map (fun x => (id it, fst (fst x), snd (fst x), snd x))
              (extract_entities eo hs
                 (String.append (title it) (String.append ". " (or_empty (summary it))))))
           sel.
Proof.
  induction sel as [|it sel IH]; intros st; simpl.
  - exists []. rewrite app_nil_r. split; reflexivity.
  - destruct (IH (enrich_item tr eo hs st it)) as [a2 [H2 M2]].
    destruct (add_entities_app (id it)
      (extract_entities eo hs (String.append (title it) (String.append ". " (or_empty (summary it)))))
      (snd st)) as [a1 [H1 M1]].
    exists (List.app a1 a2). split.
    + rewrite H2. destruct st as [ns e]. simpl in *. rewrite H1, app_assoc. reflexivity.
    + rewrite map_app, M1, M2. reflexivity.
Qed.

Lemma enrich_fold_nodup tr eo hs : forall sel st,
  NoDup (map entity_id (snd st)) ->
  NoDup (map entity_id (snd (fold_left (enrich_item tr eo hs) sel st))).
Proof.
  induction sel as [|it sel IH]; intros st H; simpl; [exact H|].
  apply IH. destruct st as [ns e]. simpl in *. apply add_entities_nodup, H.
Qed.

Lemma extract_entities_labels eo hs t x :
  In x (extract_entities eo hs t) -> In (fst (fst x)) ENTITY_LABELS.
Proof.
  unfold extract_entities. intros H. apply in_map_iff in H.
  destruct H as [sp [<- Hsp]]. apply filter_In in Hsp. destruct Hsp as [_ Hl].
  apply existsb_exists in Hl. destruct Hl as [l [Hl E]].
  apply String.eqb_eq in E. simpl. rewrite E. exact Hl.
Qed.

(** X16: [enrich_news] picks [min limit k] items, [k] the number of items with
    no AI summary and no entity row; every picked item is such an item, the
    picked items come latest first, undated items last, and no such item left
    out is later than a picked one (an undated one is never later). *)
Theorem select_items_spec : forall ns ents limit,
  List.length (select_items ns ents limit) = Nat.min limit (List.length (filter (eligible ents) ns)) /\
  (forall n, In n (select_items ns ents limit) -> In n ns /\ eligible ents n = true) /\
  Sorted (fun a b => pub_desc a b = true) (select_items ns ents limit) /\
  (forall n m, In n (select_items ns ents limit) -> In m ns -> eligible ents m = true ->
     ~ In m (select_items ns ents limit) -> pub_desc n m = true).
Proof.
  intros ns ents limit. split; [|split; [|split]].
  - unfold select_items. rewrite length_firstn, (Permutation_length (isort_perm _ _)).
    reflexivity.
  - apply select_items_In.
  - unfold select_items. apply Sorted_firstn.
    apply (AnalyticsFacts.isort_sorted pub_desc pub_desc_total _).
  - intros n m Hn Hm He Hout. unfold select_items in *.
    set (L := Analytics.isort pub_desc (filter (eligible ents) ns)) in *.
    assert (HL : In m L)
      by (apply (Permutation_in _ (Permutation_sym (isort_perm _ _))), filter_In; auto).
    rewrite <- (firstn_skipn limit L) in HL. apply in_app_or in HL.
    destruct HL as [HL|HL]; [contradiction|].
    apply (StronglySorted_app_rel (fun a b => pub_desc a b = true) (firstn limit L) (skipn limit L)); auto.
    rewrite firstn_skipn. apply Sorted_StronglySorted.
    + intros a b c. apply pub_desc_trans.
    + apply (AnalyticsFacts.isort_sorted pub_desc pub_desc_total _).
Qed.

(** X17: when news ids are distinct, [enrich_news] sets [summary_ai] of each
    picked item to its summary (or the summary of its title when it has
    none) and leaves every other news row as it was. *)
Theorem enrich_news_summaries : forall tr eo hs ns ents limit,
  NoDup (map id ns) ->
  fst (enrich_news tr eo hs ns ents limit) =
  map (fun n => if existsb (fun it => Nat.eqb (id it) (id n)) (select_items ns ents limit)
                then with_summary_ai n (ai_text tr n) else n) ns.
Proof.
  intros tr eo hs ns ents limit H. unfold enrich_news.
  rewrite enrich_fold_rows; [reflexivity|]. simpl.
  intros it n Hit Hn E. apply select_items_In in Hit. destruct Hit as [Hit _].
  rewrite (IndicesRT.NoDup_map_inj id ns n it H Hn Hit E). auto.
Qed.

(** X18: [enrich_news] only appends entity rows: for the picked items in
    order, one row per entity of [title. summary] with an ORG, GPE or
    PRODUCT label, carrying the item's id, the label, the text and the score. *)
Theorem enrich_news_entities : forall tr eo hs ns ents limit, exists added,
  snd (enrich_news tr eo hs ns ents limit) = List.app ents added /\
  map (fun r => (news_id r, etype r, value r, score r)) added =
  flat_map (fun it => map (fun x => (id it, fst (fst x), snd (fst x), snd x))
              (extract_entities eo hs
                 (String.append (title it) (String.append ". " (or_empty (summary it))))))
           (select_items ns ents limit).
Proof.
  intros tr eo hs ns ents limit. unfold enrich_news.
  exact (enrich_fold_ents tr eo hs (select_items ns ents limit) (ns, ents)).
Qed.

(** X19: every entity row [enrich_news] adds has the type ORG, GPE or
    PRODUCT and belongs to a stored news item that had no AI summary and no
    entity row before. *)
Theorem enrich_news_entity_rows : forall tr eo hs ns ents limit, exists added,
  snd (enrich_news tr eo hs ns ents limit) = List.app ents added /\
  Forall (fun r => In (etype r) ENTITY_LABELS /\
                   exists it, In it ns /\ eligible ents it = true /\ news_id r = id it) added.
Proof.
  intros tr eo hs ns ents limit. unfold enrich_news.
  destruct (enrich_fold_ents tr eo hs (select_items ns ents limit) (ns, ents)) as [added [Ha Hm]].
  exists added. split; [exact Ha|]. apply Forall_forall. intros r Hr.
  assert (Hc : In (news_id r, etype r, value r, score r)
                  (map (fun r => (news_id r, etype r, value r, score r)) added))
    by (apply (in_map (fun r => (news_id r, etype r, value r, score r))), Hr).
  rewrite Hm in Hc. apply in_flat_map in Hc. destruct Hc as [it [Hit Hx]].
  apply in_map_iff in Hx. destruct Hx as [x [Ex Hx]].
  injection Ex as E1 E2 E3 E4.
  apply select_items_In in Hit. split.
  - rewrite <- E2. exact (extract_entities_labels _ _ _ _ Hx).
  - exists it. destruct Hit as [Hit He]. auto.
Qed.

(** X20: if entity ids are distinct before [enrich_news], they are after. *)
Theorem enrich_news_entity_ids : forall tr eo hs ns ents limit,
  NoDup (map entity_id ents) ->
  NoDup (map entity_id (snd (enrich_news tr eo hs ns ents limit))).
Proof.
  intros tr eo hs ns ents limit H. unfold enrich_news.
  apply enrich_fold_nodup. exact H.
Qed.

Import Samples.

Lemma enrich_news_summaries_witness :
  NoDup (map id nlp_rows) /\
  fst (enrich_news (fun t => t) nlp_ents_of false nlp_rows [] 1) =
  map (fun n => if existsb (fun it => Nat.eqb (id it) (id n)) (select_items nlp_rows [] 1)
                then with_summary_ai n (ai_text (fun t => t) n) else n) nlp_rows.
Proof.
  assert (H : NoDup (map id nlp_rows)).
  { simpl. constructor; [simpl; intros [E|[]]; discriminate|].
    constructor; [intros []|constructor]. }
  split; [exact H|]. exact (enrich_news_summaries (fun t => t) nlp_ents_of false nlp_rows [] 1 H).
Defined.

Lemma enrich_news_entity_ids_witness :
  NoDup (map entity_id nlp_ents) /\
  NoDup (map entity_id (snd (enrich_news (fun t => t) nlp_ents_of true nlp_rows nlp_ents 2))).
Proof.
  assert (H : NoDup (map entity_id nlp_ents)) by (simpl; constructor; [intros []|constructor]).
  split; [exact H|].
  exact (enrich_news_entity_ids (fun t => t) nlp_ents_of true nlp_rows nlp_ents 2 H).
Defined.

End NlpFacts.
